(** * The scheduling request pipeline of nim_slack_bot

    A shallow embedding of the command parser, the timeframe normaliser,
    the retrying inference client, the response validator and the fallback
    synthesiser, followed by the properties that the specification states
    about them.  The last part proves further properties of the same
    code, of the duration estimates and of the two handlers of the
    [/schedule] command that call it.

    The repository carries two variants of the pipeline: a compact one
    ([src/utils.js], [src/nim-service.js]) and a layered one
    ([src/utils/validators.js], [src/services/nim-service.js]).  Each
    variant is embedded in a module of its own, under the names the source
    uses.

    Conventions.
    - Text is [string]; a character stands for one UTF-16 code unit below
      256, so the white space class, the line terminators and the case
      mapping are those of JavaScript restricted to that range.
    - A JavaScript number is [JSNum]: an integer that is a double, or
      NaN; the arithmetic rounds as that of doubles does.
    - Code that can throw returns a [Completion]; [try ... catch] is
      [try_catch]. *)

From Stdlib Require Import String Ascii List ZArith NArith Lia Bool.
From Stdlib Require Decimal DecimalString DecimalN.
From Equations Require Import Equations.
Import ListNotations.

Set Warnings "-register-all".
Local Open Scope string_scope.
Local Open Scope list_scope.

(** ** JavaScript values and control *)

Module JS.

(** Abrupt and normal completion of a function body. *)
Inductive Exn : Type :=
| TypeError (msg : string)
| SyntaxError (msg : string)
| Error (msg : string)
(* an error raised by the HTTP client: its [code], its
   [response?.status] and its message; an absent field is [None] *)
| HttpError (code : option string) (status : option Z) (msg : string).

Inductive Completion (A : Type) : Type :=
| Return (a : A)
| Throw (e : Exn).
Arguments Return {A} a.
Arguments Throw {A} e.

Definition bind {A B} (m : Completion A) (k : A -> Completion B) : Completion B :=
  match m with
  | Return a => k a
  | Throw e => Throw e
  end.

Definition try_catch {A} (body : Completion A) (handler : Exn -> Completion A)
  : Completion A :=
  match body with
  | Return a => Return a
  | Throw e => handler e
  end.

(** A value together with the equation that names it, for definitions
    whose termination depends on the outcome of a test. *)
Definition inspect {A} (a : A) : {b : A | a = b} := exist _ a eq_refl.

Definition message (e : Exn) : string :=
  match e with
  | TypeError m | SyntaxError m | Error m | HttpError _ _ m => m
  end.

(** Numbers: the integers among the doubles, and NaN.  Arithmetic gives
    the double nearest to the exact result, ties to even; comparisons
    with NaN are false and arithmetic on NaN is NaN, as in IEEE 754.  An
    overflow to infinity, beyond [2^1024], is not represented. *)
Inductive JSNum : Type :=
| Int (z : Z)
| NaN.

(** The integer nearest to [num / den], ties to even. *)
Definition nearestEven (num den : Z) : Z :=
  let q := (num / den)%Z in
  let r := (num mod den)%Z in
  if (2 * r <? den)%Z then q
  else if (den <? 2 * r)%Z then (q + 1)%Z
  else if Z.even q then q else (q + 1)%Z.

(** The double nearest to the integer [z]: the integers up to [2^53] in
    magnitude are doubles, a larger one is rounded to 53 significant
    bits. *)
Definition roundToDouble (z : Z) : Z :=
  let a := Z.abs z in
  if (a <? 2 ^ 53)%Z then z
  else
    let e := (Z.log2 a - 52)%Z in
    (Z.sgn z * (nearestEven a (2 ^ e) * 2 ^ e))%Z.

(** [Math.floor(a / b)] for natural numbers [a] and [b > 0]: the quotient
    is the double nearest to [a / b], with 53 significant bits of which
    the first is at [2^f], and the floor of a double is exact. *)
Definition floorDiv (a b : N) : N :=
  if (a =? 0)%N then 0%N
  else
    let a' := Z.of_N a in
    let b' := Z.of_N b in
    let t := (Z.log2 a' - Z.log2 b')%Z in
    let reaches :=
      if (0 <=? t)%Z then (b' * 2 ^ t <=? a')%Z else (b' <=? a' * 2 ^ (- t))%Z in
    let f := if reaches then t else (t - 1)%Z in
    let e := (f - 52)%Z in
    Z.to_N
      (if (0 <=? e)%Z then (nearestEven a' (b' * 2 ^ e) * 2 ^ e)%Z
       else (nearestEven (a' * 2 ^ (- e)) b' / 2 ^ (- e))%Z).

Definition num_add (a b : JSNum) : JSNum :=
  match a, b with Int x, Int y => Int (roundToDouble (x + y)) | _, _ => NaN end.
Definition num_sub (a b : JSNum) : JSNum :=
  match a, b with Int x, Int y => Int (roundToDouble (x - y)) | _, _ => NaN end.
Definition num_mul (a b : JSNum) : JSNum :=
  match a, b with Int x, Int y => Int (roundToDouble (x * y)) | _, _ => NaN end.
Definition num_ge (a b : JSNum) : bool :=
  match a, b with Int x, Int y => (y <=? x)%Z | _, _ => false end.
Definition num_lt (a b : JSNum) : bool :=
  match a, b with Int x, Int y => (x <? y)%Z | _, _ => false end.
Definition num_gt (a b : JSNum) : bool :=
  match a, b with Int x, Int y => (y <? x)%Z | _, _ => false end.

(** The result objects [{isValid: true}] and [{isValid: false, error}]. *)
Inductive Validation : Type :=
| Ok
| Rejected (error : string).

(** *** Characters *)

Definition code (c : ascii) : N := N_of_ascii c.

Definition dquote_char : ascii := "034"%char.

(** [\s], which is also what [trim] removes: TAB, LF, VT, FF, CR, SP and
    NBSP are the white space and line terminator code units below 256. *)
Definition isSpace (c : ascii) : bool :=
  let n := code c in
  ((9 <=? n) && (n <=? 13) || (n =? 32) || (n =? 160))%N.

(** Line terminators, which [.] does not match. *)
Definition isLineTerminator (c : ascii) : bool :=
  let n := code c in ((n =? 10) || (n =? 13))%N.

(** [\d] *)
Definition isDigit (c : ascii) : bool :=
  let n := code c in ((48 <=? n) && (n <=? 57))%N.

Definition lowerChar (c : ascii) : ascii :=
  let n := code c in
  if ((65 <=? n) && (n <=? 90))%N then ascii_of_N (n + 32)
  else if ((192 <=? n) && (n <=? 222) && negb (n =? 215))%N then ascii_of_N (n + 32)
  else c.

(** *** Strings *)

Fixpoint toLowerCase (s : string) : string :=
  match s with
  | "" => ""
  | String c r => String (lowerChar c) (toLowerCase r)
  end.

Fixpoint trimStart (s : string) : string :=
  match s with
  | "" => ""
  | String c r => if isSpace c then trimStart r else s
  end.

Fixpoint trimEnd (s : string) : string :=
  match s with
  | "" => ""
  | String c r =>
      match trimEnd r with
      | "" => if isSpace c then "" else String c ""
      | r' => String c r'
      end
  end.

Definition trim (s : string) : string := trimEnd (trimStart s).

(** [s.split(sep)] for a one-character separator. *)
Fixpoint split (sep : ascii) (s : string) : list string :=
  match s with
  | "" => [""]
  | String c r =>
      if Ascii.eqb c sep then "" :: split sep r
      else match split sep r with
           | h :: t => String c h :: t
           | [] => [String c ""]
           end
  end.

(** [list.includes(x)] on strings. *)
Definition includes (l : list string) (x : string) : bool :=
  existsb (String.eqb x) l.

(** [s.padStart(n, c)] for a one-character pad. *)
Fixpoint replicate (n : nat) (c : ascii) : string :=
  match n with
  | O => ""
  | S k => String c (replicate k c)
  end.

Definition padStart (n : nat) (c : ascii) (s : string) : string :=
  replicate (n - String.length s) c ++ s.

(** The decimal expansion of a natural number. *)
Definition decimal (n : N) : string :=
  DecimalString.NilZero.string_of_uint (N.to_uint n).

(** [Number(text)] gives [n] for the decimal expansion of [c]. *)
Definition readsAs (n c : N) : bool :=
  (roundToDouble (Z.of_N c) =? Z.of_N n)%Z.

(** The integer with at most [j] trailing zeros, and as many as
    possible, that is read as [n]; of two with the same number of
    zeros the one nearer to [n], the even one when they are as near. *)
Fixpoint shortestFrom (j : nat) (n : N) : N :=
  match j with
  | O => n
  | S j' =>
      let p := (10 ^ N.of_nat j)%N in
      let lo := (n / p * p)%N in
      let hi := (lo + p)%N in
      match readsAs n lo, readsAs n hi with
      | true, true =>
          if (n - lo <? hi - n)%N then lo
          else if (hi - n <? n - lo)%N then hi
          else if N.even (n / p) then lo else hi
      | true, false => lo
      | false, true => hi
      | false, false => shortestFrom j' n
      end
  end.

(** The digits that [toString] prints for [n]: every integer up to
    [2^53] keeps its own; above, the shortest that identify the
    double. *)
Definition shortest (n : N) : N :=
  if (n <? 2 ^ 53)%N then n else shortestFrom (String.length (decimal n)) n.

(** Trailing zeros removed. *)
Fixpoint stripZeros (s : string) : string :=
  match s with
  | "" => ""
  | String c r =>
      match stripZeros r with
      | "" => if Ascii.eqb c "0" then "" else String c ""
      | r' => String c r'
      end
  end.

(** The exponent form: the first digit, the other significant digits
    behind a point, and the exponent. *)
Definition exponentForm (v : N) : string :=
  match decimal v with
  | "" => ""
  | String d rest =>
      String d
        ((match stripZeros rest with "" => "" | r => String "." r end)
         ++ "e+" ++ decimal (N.of_nat (String.length rest)))
  end.

(** [n.toString()] for a natural number: the digits in full below
    [10^21], the exponent form from there on. *)
Definition toString (n : N) : string :=
  let v := shortest n in
  if (v <? 10 ^ 21)%N then decimal v else exponentForm v.

(** [Number(s)] on the texts that occur below: white space is trimmed, the
    empty string is 0, an optionally signed run of decimal digits is the
    double nearest to that integer, and a text that is no numeric literal
    gives NaN.  The values
    of literals with a fraction, an exponent or a radix prefix and of
    [Infinity] are not in [JSNum]; no caller below produces such a text,
    and the function maps them to NaN as well. *)
Definition digitsValue (s : string) : JSNum :=
  match s with
  | "" => NaN
  | _ => match DecimalString.NilEmpty.uint_of_string s with
         | Some d => Int (roundToDouble (Z.of_N (N.of_uint d)))
         | None => NaN
         end
  end.

Definition ToNumber (s : string) : JSNum :=
  match trim s with
  | "" => Int 0
  | String "+" r => digitsValue r
  | String "-" r => num_sub (Int 0) (digitsValue r)
  | t => digitsValue t
  end.

End JS.

(** ** [src/utils/validators.js] *)

Module Validators.
Import JS.

Definition dquote : ascii := dquote_char.

(** *** Time conversions *)

(** [const [hours, minutes] = timeStr.split(':').map(Number)]: a missing
    second field is [undefined], and [undefined] in a sum gives NaN. *)
Definition timeToMinutes (timeStr : string) : JSNum :=
  match map ToNumber (split ":" timeStr) with
  | hours :: minutes :: _ => num_add (num_mul hours (Int 60)) minutes
  | _ => NaN
  end.

(** [Math.floor(minutes / 60)] divides in doubles; the remainder of two
    doubles is exact. *)
Definition minutesToTime (minutes : N) : string :=
  let hours := floorDiv minutes 60 in
  let mins := (minutes mod 60)%N in
  padStart 2 "0" (toString hours) ++ ":" ++ padStart 2 "0" (toString mins).

(** [/^([01]?[0-9]|2[0-3]):[0-5][0-9]$/.test(timeStr)], after the guard
    that rejects the empty string. *)
Definition isMinuteTens (c : ascii) : bool :=
  let n := code c in ((48 <=? n) && (n <=? 53))%N.

Definition isValidTime (timeStr : string) : bool :=
  match timeStr with
  | String h (String ":" (String m1 (String m2 ""))) =>
      isDigit h && isMinuteTens m1 && isDigit m2
  | String h1 (String h2 (String ":" (String m1 (String m2 "")))) =>
      ((Ascii.eqb h1 "0" || Ascii.eqb h1 "1") && isDigit h2
       || Ascii.eqb h1 "2" && ((48 <=? code h2) && (code h2 <=? 51))%N)
      && isMinuteTens m1 && isDigit m2
  | _ => false
  end.

(** *** Tasks *)

Record Task : Type := mkTask {
  id : string;
  description : string;
  priority : string;
  type : string;
  preferred_time : option string  (* [null] is [None] *)
}.

(** What [generateTaskId] reads from its environment at one call:
    [Date.now()] and the text of [Math.random().toString(36)]. *)
Record Entropy : Type := mkEntropy {
  now : N;
  random36 : string
}.

(** [`task_${Date.now()}_${Math.random().toString(36).substr(2, 9)}`] *)
Definition generateTaskId (e : Entropy) : string :=
  "task_" ++ toString (now e) ++ "_" ++ substring 2 9 (random36 e).

(** The tail [\s*\(([^)]+)\)$] of the task pattern; the result is the
    second group. *)
Fixpoint closeBody (u : string) : option string :=
  match u with
  | "" => None
  | String c r =>
      if Ascii.eqb c ")" then
        match r with "" => Some "" | _ => None end
      else option_map (String c) (closeBody r)
  end.

Definition paramTail (s : string) : option string :=
  match trimStart s with
  | String "(" u =>
      match closeBody u with
      | Some (String c b) => Some (String c b)
      | _ => None
      end
  | _ => None
  end.

(** [taskText.match(/^(.+?)\s*\(([^)]+)\)$/)]: the lazy first group takes
    the fewest characters (at least one, none a line terminator) after
    which the tail matches.  The result is groups 1 and 2. *)
Fixpoint taskMatch (s : string) : option (string * string) :=
  match s with
  | "" => None
  | String c r =>
      if isLineTerminator c then None
      else match paramTail r with
           | Some params => Some (String c "", params)
           | None =>
               match taskMatch r with
               | Some (d, params) => Some (String c d, params)
               | None => None
               end
           end
  end.

Definition validPriorities : list string := ["high"; "medium"; "low"].
Definition validTypes : list string := ["general"; "meeting"; "learning"].

(** The body of [params.forEach(param => ...)] as a state transformer on
    [(priority, type, preferred_time)]. *)
Definition applyParam (st : string * string * option string) (param : string)
  : string * string * option string :=
  let '(priority, type, preferred_time) := st in
  if includes validPriorities param then (param, type, preferred_time)
  else if includes validTypes param then (priority, param, preferred_time)
  else if isValidTime param then (priority, type, Some param)
  else st.

(** [parseTask]: for a string argument nothing in the body throws, so
    the [catch] branch that returns [null] is never taken. *)
Definition parseTask (e : Entropy) (taskText : string) : option Task :=
  match taskMatch taskText with
  | None =>
      Some (mkTask (generateTaskId e) (trim taskText) "medium" "general" None)
  | Some (g1, g2) =>
      let description := trim g1 in
      let params := map (fun p => toLowerCase (trim p)) (split "," g2) in
      let '(priority, type, preferred_time) :=
        fold_left applyParam params ("medium", "general", None) in
      Some (mkTask (generateTaskId e) description priority type preferred_time)
  end.

(** *** Command tokens *)

(** The longest prefix without a double quote, and what follows it. *)
Fixpoint takeRun (s : string) : string :=
  match s with
  | "" => ""
  | String c r => if Ascii.eqb c dquote then "" else String c (takeRun r)
  end.

Fixpoint dropRun (s : string) : string :=
  match s with
  | "" => ""
  | String c r => if Ascii.eqb c dquote then s else dropRun r
  end.

(** The global match of [text] against the pattern with two alternatives,
    a run of characters other than the double quote, or a double-quoted
    segment: successive matches, left to right.  At a character other
    than a quote the first alternative takes the whole run; at a quote
    the second alternative needs a closing quote, and without one no
    match starts there and the search moves on by one character.
    [null] is the empty list. *)
Equations? matchParts (s : string) : list string by wf (String.length s) lt :=
  matchParts "" := [];
  matchParts (String c r) with Ascii.eqb c dquote := {
    | false := String c (takeRun r) :: matchParts (dropRun r);
    | true with inspect (dropRun r) := {
        | exist _ (String q rest) Hdrop :=
            String dquote (takeRun r ++ String dquote "") :: matchParts rest;
        | exist _ EmptyString Hdrop := matchParts r } }.
Proof.
  all: assert (Hlen : forall t, String.length (dropRun t) <= String.length t)
    by (induction t as [|a t IH]; simpl; [lia|];
        destruct (Ascii.eqb a dquote); simpl; lia).
  all: try (pose proof (Hlen r) as H; try rewrite Hdrop in H; simpl in *; lia).
Qed.

Definition startsWith (c : ascii) (s : string) : bool :=
  match s with
  | String a _ => Ascii.eqb a c
  | "" => false
  end.

Fixpoint endsWith (c : ascii) (s : string) : bool :=
  match s with
  | "" => false
  | String a "" => Ascii.eqb a c
  | String _ r => endsWith c r
  end.

(** [s.slice(1, -1)] *)
Fixpoint dropLast (s : string) : string :=
  match s with
  | "" => ""
  | String _ "" => ""
  | String a r => String a (dropLast r)
  end.

Definition slice_1_m1 (s : string) : string :=
  match s with
  | "" => ""
  | String _ r => dropLast r
  end.

Record ParsedCommand : Type := mkParsed {
  timeframe : option string;   (* [null] is [None] *)
  tasks : list Task
}.

(** [arr.map(f)] where the k-th call of [f] draws the k-th entropy of the
    world [w], starting at index [k]. *)
Fixpoint mapTasks (w : nat -> Entropy) (k : nat) (l : list string)
  : list (option Task) :=
  match l with
  | [] => []
  | x :: r => parseTask (w k) (slice_1_m1 x) :: mapTasks w (S k) r
  end.

(** [.filter(task => task !== null)] *)
Fixpoint notNull {A} (l : list (option A)) : list A :=
  match l with
  | [] => []
  | Some a :: r => a :: notNull r
  | None :: r => notNull r
  end.

(** [parseScheduleCommand]; [w] supplies what each [generateTaskId] call
    reads.  No operation of the body throws on a string. *)
Definition parseScheduleCommand (w : nat -> Entropy) (text : string)
  : ParsedCommand :=
  if String.eqb text "" || String.eqb (trim text) "" then mkParsed None []
  else
    match matchParts text with
    | [] => mkParsed None []
    | part0 :: rest =>
        let timeframe := trim part0 in
        let quoted :=
          filter (fun part => startsWith dquote part && endsWith dquote part) rest in
        mkParsed (Some timeframe) (notNull (mapTasks w 0 quoted))
    end.

(** *** Timeframes *)

Record Normalized : Type := mkNormalized {
  startTime : JSNum;
  endTime : JSNum;
  formatted : string
}.

(** Pieces of the three timeframe patterns.  Each consumes a prefix and
    returns the captured text with the rest. *)
Definition isAmPmFirst (c : ascii) : bool :=
  Ascii.eqb c "a" || Ascii.eqb c "A" || Ascii.eqb c "p" || Ascii.eqb c "P".
Definition isM (c : ascii) : bool := Ascii.eqb c "m" || Ascii.eqb c "M".

(** [(\d{1,2})], greedy. *)
Definition digits12 (s : string) : option (string * string) :=
  match s with
  | String a (String b r) =>
      if isDigit a then
        if isDigit b then Some (String a (String b ""), r)
        else Some (String a "", String b r)
      else None
  | String a "" => if isDigit a then Some (String a "", "") else None
  | "" => None
  end.

(** [(\d{2})] *)
Definition digits2 (s : string) : option (string * string) :=
  match s with
  | String a (String b r) =>
      if isDigit a && isDigit b then Some (String a (String b ""), r) else None
  | _ => None
  end.

(** [(am|pm)] under the [i] flag. *)
Definition ampm (s : string) : option (string * string) :=
  match s with
  | String a (String b r) =>
      if isAmPmFirst a && isM b then Some (String a (String b ""), r) else None
  | _ => None
  end.

(** One literal character. *)
Definition lit (c : ascii) (s : string) : option string :=
  match s with
  | String a r => if Ascii.eqb a c then Some r else None
  | "" => None
  end.

(** [\s*-\s*] *)
Definition dash (s : string) : option string :=
  option_map trimStart (lit "-" (trimStart s)).

(** [$] *)
Definition atEnd {A} (groups : A) (s : string) : option A :=
  match s with "" => Some groups | _ => None end.

Notation "'let?' p ':=' e 'in' k" :=
  (match e with Some p => k | None => None end)
  (at level 10, p pattern, e at level 200, k at level 200).

(** [/^(\d{1,2})(am|pm)\s*-\s*(\d{1,2})(am|pm)$/i]; the result is the match
    array, the whole match first. *)
Definition format12 (s : string) : option (list string) :=
  let? (h1, s1) := digits12 s in
  let? (m1, s2) := ampm s1 in
  let? s3 := dash s2 in
  let? (h2, s4) := digits12 s3 in
  let? (m2, s5) := ampm s4 in
  atEnd [s; h1; m1; h2; m2] s5.

(** [/^(\d{1,2}):(\d{2})\s*-\s*(\d{1,2}):(\d{2})$/] *)
Definition format24 (s : string) : option (list string) :=
  let? (h1, s1) := digits12 s in
  let? s2 := lit ":" s1 in
  let? (n1, s3) := digits2 s2 in
  let? s4 := dash s3 in
  let? (h2, s5) := digits12 s4 in
  let? s6 := lit ":" s5 in
  let? (n2, s7) := digits2 s6 in
  atEnd [s; h1; n1; h2; n2] s7.

(** [/^(\d{1,2}):(\d{2})\s*(am|pm)\s*-\s*(\d{1,2}):(\d{2})\s*(am|pm)$/i] *)
Definition formatMixed (s : string) : option (list string) :=
  let? (h1, s1) := digits12 s in
  let? s2 := lit ":" s1 in
  let? (n1, s3) := digits2 s2 in
  let? (m1, s4) := ampm (trimStart s3) in
  let? s5 := dash s4 in
  let? (h2, s6) := digits12 s5 in
  let? s7 := lit ":" s6 in
  let? (n2, s8) := digits2 s7 in
  let? (m2, s9) := ampm (trimStart s8) in
  atEnd [s; h1; n1; m1; h2; n2; m2] s9.

Definition formats : list (string -> option (list string)) :=
  [format12; format24; formatMixed].

(** [parseTimeMatch]: the body is [return null]. *)
Definition parseTimeMatch (m : list string) : option Normalized := None.

(** The object literal [presets], and the properties that a lookup on it
    finds on [Object.prototype] instead. *)
Definition presets : list (string * (string * string)) :=
  [ ("morning", ("09:00", "12:00"));
    ("afternoon", ("13:00", "17:00"));
    ("evening", ("18:00", "21:00"));
    ("workday", ("09:00", "17:00"));
    ("business hours", ("09:00", "17:00")) ].

Definition objectPrototypeKeys : list string :=
  [ "constructor"; "__defineGetter__"; "__defineSetter__"; "hasOwnProperty";
    "__lookupGetter__"; "__lookupSetter__"; "isPrototypeOf";
    "propertyIsEnumerable"; "toString"; "valueOf"; "__proto__";
    "toLocaleString" ].

Inductive Property (A : Type) : Type :=
| Own (a : A)        (* a property of the literal itself *)
| Inherited          (* a function or object of the prototype, truthy *)
| Undefined.
Arguments Own {A} a.
Arguments Inherited {A}.
Arguments Undefined {A}.

Fixpoint assoc {A} (key : string) (l : list (string * A)) : option A :=
  match l with
  | [] => None
  | (k, v) :: r => if String.eqb k key then Some v else assoc key r
  end.

Definition getPreset (key : string) : Property (string * string) :=
  match assoc key presets with
  | Some p => Own p
  | None => if includes objectPrototypeKeys key then Inherited else Undefined
  end.

(** The [for (const format of formats)] loop: the first format that
    matches returns from [normalizeTimeframe]. *)
Fixpoint firstMatch (fs : list (string -> option (list string))) (s : string)
  : option (list string) :=
  match fs with
  | [] => None
  | f :: r => match f s with Some m => Some m | None => firstMatch r s end
  end.

(** [normalizeTimeframe].  An inherited property has no [start], and
    [timeToMinutes(undefined)] throws on [undefined.split]. *)
Definition normalizeTimeframe (timeframe : string)
  : Completion (option Normalized) :=
  match firstMatch formats timeframe with
  | Some m => Return (parseTimeMatch m)
  | None =>
      match getPreset (toLowerCase timeframe) with
      | Own (start, end_) =>
          Return (Some (mkNormalized (timeToMinutes start) (timeToMinutes end_)
                                     (start ++ " - " ++ end_)))
      | Inherited =>
          Throw (TypeError "Cannot read properties of undefined (reading 'split')")
      | Undefined => Return None
      end
  end.

(** The result objects [{isValid: false, error}] and
    [{isValid: true, normalized, duration}]. *)
Inductive TimeframeResult : Type :=
| Invalid (error : string)
| Valid (normalized : Normalized) (duration : JSNum).

Definition msgFormatHelp : string :=
  "Invalid timeframe format. Use formats like " ++ String dquote "9AM-5PM"
  ++ String dquote ", " ++ String dquote "09:00-17:00" ++ String dquote ", or "
  ++ String dquote "morning" ++ String dquote "".

(** The checks of [validateTimeframe] that follow a successful
    normalisation (from the comparison of the two offsets to the final
    [return]). *)
Definition checkNormalized (normalized : Normalized) : TimeframeResult :=
  if num_ge (startTime normalized) (endTime normalized) then
    Invalid "End time must be after start time"
  else
    let duration := num_sub (endTime normalized) (startTime normalized) in
    if num_lt duration (Int 60) then
      Invalid "Schedule duration must be at least 1 hour"
    else if num_gt duration (Int 960) then
      Invalid "Schedule duration cannot exceed 16 hours"
    else Valid normalized duration.

Definition validateTimeframe (timeframe : string) : Completion TimeframeResult :=
  try_catch
    (if String.eqb timeframe "" then Return (Invalid "Timeframe is required")
     else
       bind (normalizeTimeframe (trim timeframe)) (fun normalized =>
         match normalized with
         | None => Return (Invalid msgFormatHelp)
         | Some n => Return (checkNormalized n)
         end))
    (fun _ => Return (Invalid "Invalid timeframe format")).

(** *** Task lists *)

(** A field that is [undefined], [null] or the empty string is falsy. *)
Definition truthy (s : string) : bool := negb (String.eqb s "").

Definition validateTask (task : Task) : Validation :=
  if negb (truthy (description task)) || String.eqb (trim (description task)) "" then
    Rejected "Task description is required"
  else if (200 <? String.length (description task))%nat then
    Rejected "Task description cannot exceed 200 characters"
  else if truthy (priority task) && negb (includes validPriorities (priority task)) then
    Rejected "Priority must be one of: high, medium, low"
  else if truthy (type task) && negb (includes validTypes (type task)) then
    Rejected "Type must be one of: general, meeting, learning"
  else
    match preferred_time task with
    | Some t =>
        if truthy t && negb (isValidTime t) then
          Rejected "Invalid preferred time format"
        else Ok
    | None => Ok
    end.

(** The [for] loop of [validateTasks], from index [i] (zero-based); the
    message counts from one. *)
Fixpoint validateEach (i : nat) (tasks : list Task) : Validation :=
  match tasks with
  | [] => Ok
  | t :: r =>
      match validateTask t with
      | Rejected error =>
          Rejected ("Task " ++ toString (N.of_nat (i + 1)) ++ ": " ++ error)
      | Ok => validateEach (S i) r
      end
  end.

Definition validateTasks (tasks : list Task) : Validation :=
  if Nat.eqb (List.length tasks) 0 then Rejected "At least one task is required"
  else if (20 <? List.length tasks)%nat then Rejected "Maximum 20 tasks allowed per schedule"
  else validateEach 0 tasks.

End Validators.

(** ** JSON values and [JSON.parse] *)

Module Json.
Import JS.

(** A string inside a parsed value is a sequence of code units, since an
    escape can denote any of them. *)
Definition units (s : string) : list N :=
  map N_of_ascii (list_ascii_of_string s).

(** A number is kept as the decimal [m * 10^e] that was read. *)
Inductive JSON : Type :=
| JNull
| JBool (b : bool)
| JNumber (m : Z) (e : Z)
| JString (s : list N)
| JArray (items : list JSON)
| JObject (fields : list (list N * JSON)).

(** The double nearest to [m * 10^e] is zero when [m] is, or when the
    magnitude is at most half the least positive double, [2^-1075]. *)
Definition numberIsZero (m e : Z) : bool :=
  ((m =? 0) || (e <? 0) && (Z.abs m * 2 ^ 1075 <=? 10 ^ (- e)))%Z.

(** [!!v] for a property value; [None] is [undefined]. *)
Definition truthy (v : option JSON) : bool :=
  match v with
  | None | Some JNull => false
  | Some (JBool b) => b
  | Some (JNumber m e) => negb (numberIsZero m e)
  | Some (JString s) => match s with [] => false | _ => true end
  | Some (JArray _) | Some (JObject _) => true
  end.

Definition eqUnits (a b : list N) : bool :=
  if list_eq_dec N.eq_dec a b then true else false.

(** The own property [key] of an object; of two equal keys in the text
    the later one has overwritten the earlier. *)
Fixpoint getOwn (key : list N) (fields : list (list N * JSON)) : option JSON :=
  match fields with
  | [] => None
  | (k, v) :: r =>
      match getOwn key r with
      | Some v' => Some v'
      | None => if eqUnits k key then Some v else None
      end
  end.

(** [v.key] for one of the keys read below ([schedule], [task],
    [start_time], [end_time]), none of which any prototype defines:
    reading from [null] throws, any other value without the own
    property gives [undefined]. *)
Definition get (v : JSON) (key : string) : Completion (option JSON) :=
  match v with
  | JNull => Throw (TypeError ("Cannot read properties of null (reading '" ++ key ++ "')"))
  | JObject fields => Return (getOwn (units key) fields)
  | _ => Return None
  end.

Definition isArray (v : option JSON) : bool :=
  match v with Some (JArray _) => true | _ => false end.

(** *** Tokens *)

Inductive Token : Type :=
| TLBrace | TRBrace | TLBrack | TRBrack | TColon | TComma
| TScalar (v : JSON).

Definition isJsonSpace (c : ascii) : bool :=
  let n := code c in ((n =? 32) || (n =? 9) || (n =? 10) || (n =? 13))%N.

Definition digitValue (c : ascii) : Z := Z.of_N (code c) - 48.

(** A run of digits read after the value [acc]: the value, the number of
    digits and the rest. *)
Fixpoint scanDigits (acc : Z) (s : string) : Z * nat * string :=
  match s with
  | String c r =>
      if isDigit c then
        let '(v, n, rest) := scanDigits (10 * acc + digitValue c) r in (v, S n, rest)
      else (acc, O, s)
  | "" => (acc, O, "")
  end.

(** [int]: a single zero, or a run of digits that starts with a digit
    other than zero. *)
Definition scanInt (s : string) : option (Z * nat * string) :=
  match s with
  | String "0" r => Some (0%Z, 1%nat, r)
  | String c r =>
      if isDigit c then
        let '(v, n, rest) := scanDigits (digitValue c) r in Some (v, S n, rest)
      else None
  | "" => None
  end.

(** [frac]: a point and at least one digit, else nothing is taken.  The
    digits extend the mantissa [m]. *)
Definition scanFrac (m : Z) (s : string) : Z * nat * string :=
  match s with
  | String "." r =>
      match scanDigits m r with
      | (_, O, _) => (m, O, s)
      | (v, n, rest) => (v, n, rest)
      end
  | _ => (m, O, s)
  end.

(** [exp]: [e] or [E], an optional sign and at least one digit, else
    nothing is taken.  The result is the exponent and the length. *)
Definition scanExp (s : string) : Z * nat * string :=
  match s with
  | String c r =>
      if Ascii.eqb c "e" || Ascii.eqb c "E" then
        match r with
        | String "+" r' =>
            match scanDigits 0 r' with
            | (_, O, _) => (0%Z, O, s)
            | (v, n, rest) => (v, S (S n), rest)
            end
        | String "-" r' =>
            match scanDigits 0 r' with
            | (_, O, _) => (0%Z, O, s)
            | (v, n, rest) => ((- v)%Z, S (S n), rest)
            end
        | _ =>
            match scanDigits 0 r with
            | (_, O, _) => (0%Z, O, s)
            | (v, n, rest) => (v, S n, rest)
            end
        end
      else (0%Z, O, s)
  | "" => (0%Z, O, s)
  end.

(** A number without its sign: the value and the length. *)
Definition scanUnsigned (s : string) : option (JSON * nat) :=
  match scanInt s with
  | None => None
  | Some (i, n1, s1) =>
      let '(m, n2, s2) := scanFrac i s1 in
      let '(x, n3, _) := scanExp s2 in
      Some (JNumber m (x - Z.of_nat n2),
            (n1 + (match n2 with O => O | _ => S n2 end) + n3)%nat)
  end.

Definition scanNumber (s : string) : option (JSON * nat) :=
  match s with
  | String "-" r =>
      match scanUnsigned r with
      | Some (JNumber m e, n) => Some (JNumber (- m) e, S n)
      | _ => None
      end
  | _ => scanUnsigned s
  end.

Definition hexValue (c : ascii) : option N :=
  let n := code c in
  if ((48 <=? n) && (n <=? 57))%N then Some (n - 48)%N
  else if ((65 <=? n) && (n <=? 70))%N then Some (n - 55)%N
  else if ((97 <=? n) && (n <=? 102))%N then Some (n - 87)%N
  else None.

Definition escapeValue (c : ascii) : option N :=
  if Ascii.eqb c dquote_char then Some 34%N
  else if Ascii.eqb c "\" then Some 92%N
  else if Ascii.eqb c "/" then Some 47%N
  else if Ascii.eqb c "b" then Some 8%N
  else if Ascii.eqb c "f" then Some 12%N
  else if Ascii.eqb c "n" then Some 10%N
  else if Ascii.eqb c "r" then Some 13%N
  else if Ascii.eqb c "t" then Some 9%N
  else None.

(** The characters of a string after its opening quote: the code units
    and the length up to and including the closing quote. *)
Fixpoint scanString (s : string) : option (list N * nat) :=
  match s with
  | "" => None
  | String c r =>
      if Ascii.eqb c dquote_char then Some ([], 1%nat)
      else if Ascii.eqb c "\" then
        match r with
        | String "u" (String h1 (String h2 (String h3 (String h4 r')))) =>
            match hexValue h1, hexValue h2, hexValue h3, hexValue h4 with
            | Some a, Some b, Some c', Some d =>
                match scanString r' with
                | Some (u, n) => Some ((((a * 16 + b) * 16 + c') * 16 + d)%N :: u, (6 + n)%nat)
                | None => None
                end
            | _, _, _, _ => None
            end
        | String e r' =>
            match escapeValue e with
            | Some x =>
                match scanString r' with
                | Some (u, n) => Some (x :: u, (2 + n)%nat)
                | None => None
                end
            | None => None
            end
        | "" => None
        end
      else if (code c <? 32)%N then None
      else
        match scanString r with
        | Some (u, n) => Some (code c :: u, S n)
        | None => None
        end
  end.

(** The token that starts at the head of [s], which is not white space,
    and its length. *)
Definition tokenAt (s : string) : option (Token * nat) :=
  match s with
  | String "{" _ => Some (TLBrace, 1%nat)
  | String "}" _ => Some (TRBrace, 1%nat)
  | String "[" _ => Some (TLBrack, 1%nat)
  | String "]" _ => Some (TRBrack, 1%nat)
  | String ":" _ => Some (TColon, 1%nat)
  | String "," _ => Some (TComma, 1%nat)
  | String c r =>
      if Ascii.eqb c dquote_char then
        match scanString r with
        | Some (u, n) => Some (TScalar (JString u), S n)
        | None => None
        end
      else if prefix "true" s then Some (TScalar (JBool true), 4%nat)
      else if prefix "false" s then Some (TScalar (JBool false), 5%nat)
      else if prefix "null" s then Some (TScalar JNull, 4%nat)
      else
        match scanNumber s with
        | Some (v, n) => Some (TScalar v, n)
        | None => None
        end
  | "" => None
  end.

(** The tokens of a text.  [skip] counts the characters still to pass
    over, those of the token found last. *)
Fixpoint lex (skip : nat) (s : string) : option (list Token) :=
  match s with
  | "" => Some []
  | String c r =>
      match skip with
      | S k => lex k r
      | O =>
          if isJsonSpace c then lex 0 r
          else
            match tokenAt s with
            | Some (t, S k) =>
                match lex k r with
                | Some ts => Some (t :: ts)
                | None => None
                end
            | _ => None
            end
      end
  end.

(** *** The grammar, as a pushdown automaton over the tokens *)

(** A container that is being read, below the value in progress. *)
Inductive Frame : Type :=
| FArr (items : list JSON)                          (* read so far, last first *)
| FObj (fields : list (list N * JSON)) (key : list N). (* and the key in progress *)

Inductive State : Type :=
| SValue (stack : list Frame)       (* a value is due *)
| SArrStart (stack : list Frame)    (* after [: a value or ] *)
| SArrNext (items : list JSON) (stack : list Frame)   (* after an item: , or ] *)
| SObjStart (stack : list Frame)    (* after {: a key or } *)
| SKey (fields : list (list N * JSON)) (stack : list Frame)  (* after , : a key *)
| SColon (fields : list (list N * JSON)) (key : list N) (stack : list Frame)
| SObjNext (fields : list (list N * JSON)) (stack : list Frame) (* , or } *)
| SDone (v : JSON).

(** A value is complete: it goes into the container on top. *)
Definition complete (v : JSON) (stack : list Frame) : State :=
  match stack with
  | [] => SDone v
  | FArr items :: stack' => SArrNext (v :: items) stack'
  | FObj fields key :: stack' => SObjNext ((key, v) :: fields) stack'
  end.

Definition startValue (t : Token) (stack : list Frame) : option State :=
  match t with
  | TScalar v => Some (complete v stack)
  | TLBrack => Some (SArrStart stack)
  | TLBrace => Some (SObjStart stack)
  | _ => None
  end.

Definition step (st : State) (t : Token) : option State :=
  match st, t with
  | SValue stack, _ => startValue t stack
  | SArrStart stack, TRBrack => Some (complete (JArray []) stack)
  | SArrStart stack, _ => startValue t (FArr [] :: stack)
  | SArrNext items stack, TComma => Some (SValue (FArr items :: stack))
  | SArrNext items stack, TRBrack => Some (complete (JArray (List.rev items)) stack)
  | SObjStart stack, TRBrace => Some (complete (JObject []) stack)
  | SObjStart stack, TScalar (JString k) => Some (SColon [] k stack)
  | SKey fields stack, TScalar (JString k) => Some (SColon fields k stack)
  | SColon fields k stack, TColon => Some (SValue (FObj fields k :: stack))
  | SObjNext fields stack, TComma => Some (SKey fields stack)
  | SObjNext fields stack, TRBrace => Some (complete (JObject (List.rev fields)) stack)
  | _, _ => None
  end.

Fixpoint run (st : State) (ts : list Token) : option State :=
  match ts with
  | [] => Some st
  | t :: r => match step st t with Some st' => run st' r | None => None end
  end.

(** [JSON.parse(text)] without a reviver. *)
Definition parse (text : string) : Completion JSON :=
  match lex 0 text with
  | Some ts =>
      match run (SValue []) ts with
      | Some (SDone v) => Return v
      | _ => Throw (SyntaxError "Unexpected token in JSON")
      end
  | None => Throw (SyntaxError "Unexpected token in JSON")
  end.

End Json.

(** ** [src/utils.js] *)

Module Utils.
Import JS.

(** What [parseScheduleCommand] of this file hands to [validateInput]:
    [{error}] or [{timeframe, tasks}]; an absent field is [None]. *)
Record Input (T : Type) : Type := mkInput {
  error : option string;
  timeframe : option string;
  tasks : option (list T)
}.
Arguments mkInput {T} _ _ _.
Arguments error {T} _.
Arguments timeframe {T} _.
Arguments tasks {T} _.

Definition truthy (f : option string) : bool :=
  match f with
  | Some s => negb (String.eqb s "")
  | None => false
  end.

Definition text (f : option string) : string :=
  match f with Some s => s | None => "" end.

Definition count {T} (l : option (list T)) : nat :=
  match l with Some x => List.length x | None => 0 end.

Definition validateInput {T} (input : Input T) : Validation :=
  if truthy (error input) then Rejected (text (error input))
  else if negb (truthy (timeframe input)) then Rejected "Timeframe is required"
  else if match tasks input with None => true | Some _ => false end
          || Nat.eqb (count (tasks input)) 0 then
    Rejected "At least one task is required"
  else if (15 <? count (tasks input))%nat then
    Rejected "Maximum 15 tasks allowed per schedule"
  else Ok.

(** *** Command parsing *)

(** A task as [parseTask] of this file builds it. *)
Record Task : Type := mkTask {
  id : string;
  description : string;
  priority : string;
  type : string
}.

Definition validPriorities : list string := ["high"; "medium"; "low"].
Definition validTypes : list string := ["general"; "meeting"; "learning"].

(** The body of [params.forEach(param => ...)] as a state transformer on
    [(priority, type)]. *)
Definition applyParam (st : string * string) (param : string) : string * string :=
  let '(priority, type) := st in
  if includes validPriorities param then (param, type)
  else if includes validTypes param then (priority, param)
  else st.

(** [parseTask(taskStr, taskNum)]; the pattern is the one that
    [src/utils/validators.js] uses.  For a string argument nothing in the
    body throws, so the [catch] branch that returns [null] is never
    taken. *)
Definition parseTask (taskStr : string) (taskNum : N) : option Task :=
  match Validators.taskMatch taskStr with
  | None =>
      Some (mkTask ("task_" ++ toString taskNum) (trim taskStr) "medium" "general")
  | Some (g1, g2) =>
      let description := trim g1 in
      let params := map (fun p => toLowerCase (trim p)) (split "," g2) in
      let '(priority, type) := fold_left applyParam params ("medium", "general") in
      Some (mkTask ("task_" ++ toString taskNum) description priority type)
  end.

Definition presets : list string :=
  ["morning"; "afternoon"; "evening"; "workday"; "business hours"].

(** [pattern.test(tf)] for the three patterns of [timeRangePatterns]:
    they are the patterns of [formats] in [src/utils/validators.js]
    without the groups around the digits, so each matches the same
    texts. *)
Definition timeRangePatterns : list (string -> bool) :=
  map (fun format tf => match format tf with Some _ => true | None => false end)
      Validators.formats.

(** [validateTimeframe]: the error message, or [null] for a timeframe
    that is accepted. *)
Definition validateTimeframe (timeframe : string) : option string :=
  if String.eqb timeframe "" || String.eqb (trim timeframe) "" then
    Some "Timeframe is required"
  else
    let tf := trim (toLowerCase timeframe) in
    if includes presets tf then None
    else
      let isValidFormat := existsb (fun pattern => pattern tf) timeRangePatterns in
      if negb isValidFormat then
        Some ("Invalid timeframe format. Use formats like "
              ++ String dquote_char "9AM-5PM" ++ String dquote_char ", "
              ++ String dquote_char "09:00-17:00" ++ String dquote_char ", or "
              ++ String dquote_char "morning" ++ String dquote_char "")%string
      else None.

(** [taskStrings.map((taskStr, index) => parseTask(taskStr, index + 1))],
    from index [index]. *)
Fixpoint mapTasks (index : nat) (taskStrings : list string) : list (option Task) :=
  match taskStrings with
  | [] => []
  | taskStr :: r => parseTask taskStr (N.of_nat (index + 1)) :: mapTasks (S index) r
  end.

Definition failed (message : string) : Input Task := mkInput (Some message) None None.

(** [parseScheduleCommand]: the pattern of the global match is the one
    that [src/utils/validators.js] uses.  No operation of the body throws
    on a string. *)
Definition parseScheduleCommand (text : string) : Input Task :=
  if String.eqb text "" || String.eqb (trim text) "" then
    failed "Please provide a timeframe and tasks. Try `/schedule-help` for examples."
  else
    match Validators.matchParts text with
    | [] =>
        failed ("Invalid format. Use: `/schedule [timeframe] "
                ++ String dquote_char "task 1 (priority, type)" ++ String dquote_char " "
                ++ String dquote_char "task 2 (priority, type)" ++ String dquote_char "`")
    | part0 :: rest =>
        let timeframe := trim part0 in
        let taskStrings :=
          map Validators.slice_1_m1
            (filter (fun part => Validators.startsWith dquote_char part
                                 && Validators.endsWith dquote_char part) rest) in
        if Nat.eqb (List.length taskStrings) 0 then
          failed ("Please provide at least one task in quotes. Example: `"
                  ++ String dquote_char "Review code (high, general)"
                  ++ String dquote_char "`")
        else
          let tasks := Validators.notNull (mapTasks 0 taskStrings) in
          if Nat.eqb (List.length tasks) 0 then
            failed ("No valid tasks found. Use format: `"
                    ++ String dquote_char "Description (priority, type)"
                    ++ String dquote_char "`")
          else
            let timeframeError := validateTimeframe timeframe in
            if truthy timeframeError then mkInput timeframeError None None
            else mkInput None (Some timeframe) (Some tasks)
    end.


End Utils.

(** ** The backend, as both inference clients see it *)

Module Net.
Import JS.

(** The outcome of one [post]: the text at
    [response.data.choices[0].message.content] of the response, or the
    error with which the call failed. *)
Inductive Reply : Type :=
| Fulfilled (content : string)
| Failed (error : Exn).

Inductive Event : Type :=
| Post                (* one call of the backend *)
| Delay (ms : Z).     (* one [await delay(ms)] *)

(** The number of calls made so far and the events in order. *)
Record Net : Type := mkNet {
  calls : nat;
  events : list Event
}.

Definition start : Net := mkNet 0 [].
Definition posted (net : Net) : Net :=
  mkNet (S (calls net)) (events net ++ [Post]).
Definition delayed (ms : Z) (net : Net) : Net :=
  mkNet (calls net) (events net ++ [Delay ms]).

Definition codeIs (c : option string) (name : string) : bool :=
  match c with Some x => String.eqb x name | None => false end.

End Net.

(** ** [src/nim-service.js] *)

Module NimService.
Import JS Json Net.

Definition isRetryableError (error : Exn) : bool :=
  match error with
  | HttpError code status _ =>
      if codeIs code "ECONNABORTED" then true
      else if match status with Some st => (500 <=? st)%Z | None => false end then true
      else if match status with Some st => (st =? 429)%Z | None => false end then true
      else false
  | _ => false
  end.

Section Client.
(** [config.nim.maxRetries], and the reply of the backend to its k-th
    call (counting from zero). *)
Variable maxRetries : Z.
Variable backend : nat -> Reply.

(** [callNIM(prompt, attempt)]; the prompt only reaches [backend]. *)
Equations? callNIM (attempt : Z) (net : Net) : Completion string * Net
  by wf (Z.to_nat (maxRetries + 1 - attempt)) lt :=
  callNIM attempt net with backend (calls net) := {
    | Fulfilled content := (Return content, posted net);
    | Failed error
        with inspect ((attempt <=? maxRetries)%Z && isRetryableError error) := {
        | exist _ true Hretry :=
            callNIM (attempt + 1) (delayed (1000 * attempt) (posted net));
        | exist _ false _ := (Throw error, posted net) } }.
Proof.
  apply andb_prop in Hretry. destruct Hretry as [Hle _].
  apply Z.leb_le in Hle. lia.
Qed.
End Client.

(** *** Reply validation *)

Definition str (s : string) : JSON := JString (units s).
Definition num (z : Z) : JSON := JNumber z 0.

Definition createFallbackSchedule (originalResponse : string) : JSON :=
  JObject
    [ (units "schedule",
        JArray
          [ JObject
              [ (units "task_id", num 1);
                (units "start_time", str "09:00");
                (units "end_time", str "17:00");
                (units "duration", num 480);
                (units "task", str "Review and organize your tasks");
                (units "priority", str "medium");
                (units "type", str "general");
                (units "reasoning",
                  str "AI response could not be parsed - please try again") ] ]);
      (units "summary",
        JObject
          [ (units "total_tasks", num 1);
            (units "total_duration", num 480);
            (units "productivity_score", num 5) ]);
      (units "recommendations",
        JArray
          [ str "Try rephrasing your tasks or timeframe";
            str "Ensure tasks follow the format: 'Description (priority, type)'" ]);
      (units "error",
        str "Could not parse AI response - showing fallback schedule") ].

(** The length of the match of the fence pattern at the head of [s]:
    three backquotes and [json] with an optional line feed, or else an
    optional line feed and three backquotes; zero when neither
    alternative matches there. *)
Definition fenceLength (s : string) : nat :=
  if prefix "```json" s then
    match substring 7 1 s with
    | String "010" "" => 8%nat
    | _ => 7%nat
    end
  else if prefix (String "010" "```") s then 4%nat
  else if prefix "```" s then 3%nat
  else 0%nat.

(** [response.replace(pattern, '')] with the global flag: matches are
    removed left to right; [skip] counts what is left of the match in
    progress. *)
Fixpoint stripFences (skip : nat) (s : string) : string :=
  match s with
  | "" => ""
  | String c r =>
      match skip with
      | S k => stripFences k r
      | O =>
          match fenceLength s with
          | S k => stripFences k r
          | O => String c (stripFences 0 r)
          end
      end
  end.

(** The body of the [forEach] callback; [||] reads the next property
    only when the ones before it are truthy. *)
Definition checkItem (index : nat) (item : JSON) : Completion unit :=
  let missing : Completion unit :=
    Throw (Error ("Invalid task at index " ++ toString (N.of_nat index)
                  ++ " - missing required fields")) in
  bind (get item "task") (fun task =>
  if negb (truthy task) then missing else
  bind (get item "start_time") (fun start_time =>
  if negb (truthy start_time) then missing else
  bind (get item "end_time") (fun end_time =>
  if negb (truthy end_time) then missing else Return tt))).

Fixpoint forEachItem (index : nat) (items : list JSON) : Completion unit :=
  match items with
  | [] => Return tt
  | item :: r => bind (checkItem index item) (fun _ => forEachItem (S index) r)
  end.

Definition itemsOf (v : option JSON) : list JSON :=
  match v with Some (JArray items) => items | _ => [] end.

Definition parseScheduleResponse (response : string) : Completion JSON :=
  try_catch
    (let cleanResponse := trim (stripFences 0 response) in
     bind (parse cleanResponse) (fun schedule =>
     bind (get schedule "schedule") (fun sched =>
     if negb (truthy sched) || negb (isArray sched) then
       Throw (Error "Invalid schedule format - missing schedule array")
     else
       bind (forEachItem 0 (itemsOf sched)) (fun _ => Return schedule))))
    (fun error => Return (createFallbackSchedule response)).

Section Pipeline.
Variable maxRetries : Z.
Variable backend : nat -> Reply.

Context {T : Type}.

(** [generateSchedule(timeframe, tasks)]: the two arguments only build
    the prompt, and the prompt only reaches the backend; [backend]
    stands for the replies of the backend to that prompt. *)
Definition generateSchedule (timeframe : string) (tasks : list T) (net : Net)
  : Completion JSON * Net :=
  let '(response, net') := callNIM maxRetries backend 1 net in
  (try_catch
     (bind response parseScheduleResponse)
     (fun error =>
        Throw (Error ("Failed to generate schedule: " ++ message error))),
   net').
End Pipeline.

End NimService.

(** ** [src/services/nim-service.js] *)

Module Services.
Import JS Json Net.

Definition retryableStatus : list Z := [408; 429; 500; 502; 503; 504]%Z.

Definition isRetryableError (error : Exn) : bool :=
  match error with
  | HttpError code status _ =>
      match status with
      | Some st => existsb (Z.eqb st) retryableStatus
      | None => false
      end
      || codeIs code "ECONNRESET"
  | _ => false
  end.

Section Client.
Variable maxRetries : Z.
Variable backend : nat -> Reply.

(** [makeRequest(endpoint, data, retryCount)]; the request only
    reaches [backend]. *)
Equations? makeRequest (retryCount : Z) (net : Net) : Completion string * Net
  by wf (Z.to_nat (maxRetries - retryCount)) lt :=
  makeRequest retryCount net with backend (calls net) := {
    | Fulfilled response := (Return response, posted net);
    | Failed error
        with inspect ((retryCount <? maxRetries)%Z && isRetryableError error) := {
        | exist _ true Hretry :=
            makeRequest (retryCount + 1)
              (delayed (2 ^ retryCount * 1000) (posted net));
        | exist _ false _ := (Throw error, posted net) } }.
Proof.
  apply andb_prop in Hretry. destruct Hretry as [Hlt _].
  apply Z.ltb_lt in Hlt. lia.
Qed.
End Client.

Definition validateScheduleResponse (scheduleData : JSON) : Completion JSON :=
  bind (get scheduleData "schedule") (fun sched =>
  if negb (truthy sched) || negb (isArray sched) then
    Throw (Error "Invalid schedule format received from NIM")
  else Return scheduleData).

Section Pipeline.
Variable maxRetries : Z.
Variable backend : nat -> Reply.

Context {T : Type}.

(** [generateSchedule(timeframe, tasks)]: the two arguments only build
    the prompt, and the prompt only reaches the backend; [backend]
    stands for the replies of the backend to that prompt. *)
Definition generateSchedule (timeframe : string) (tasks : list T) (net : Net)
  : Completion JSON * Net :=
  let '(response, net') := makeRequest maxRetries backend 0 net in
  (try_catch
     (bind response (fun content =>
      bind (parse content) validateScheduleResponse))
     (fun error =>
        Throw (Error ("Schedule generation failed: " ++ message error))),
   net').
End Pipeline.

(** *** Duration estimates *)

(** [v[index]] for an index 0, 1, ...: reading from [undefined] or from
    [null] throws; an array gives its element, a string its code unit as
    a string of one unit, an object its own property of that decimal
    name; out of range, and on a number or a boolean, the result is
    [undefined]. *)
Definition getIndex (v : option JSON) (index : nat) : Completion (option JSON) :=
  match v with
  | None =>
      Throw (TypeError ("Cannot read properties of undefined (reading '"
                        ++ toString (N.of_nat index) ++ "')"))
  | Some JNull =>
      Throw (TypeError ("Cannot read properties of null (reading '"
                        ++ toString (N.of_nat index) ++ "')"))
  | Some (JArray items) => Return (nth_error items index)
  | Some (JString s) => Return (option_map (fun u => JString [u]) (nth_error s index))
  | Some (JObject fields) => Return (getOwn (units (toString (N.of_nat index))) fields)
  | Some (JBool _) | Some (JNumber _ _) => Return None
  end.

(** [v?.key] for the keys [estimated_duration] and [confidence], which
    no prototype defines. *)
Definition optionalGet (v : option JSON) (key : string) : Completion (option JSON) :=
  match v with
  | None | Some JNull => Return None
  | Some x => get x key
  end.

(** [a || b] *)
Definition orElse (a : option JSON) (b : JSON) : JSON :=
  match a with
  | Some x => if truthy a then x else b
  | None => b
  end.

(** [obj[key] = v] on the list of the own properties of [obj] in their
    order: a property that the object has keeps its place and takes the
    value, a new property goes to the end. *)
Fixpoint setProp (key : list N) (v : JSON) (fields : list (list N * JSON))
  : list (list N * JSON) :=
  match fields with
  | [] => [(key, v)]
  | (k, w) :: r =>
      if eqUnits k key then (k, v) :: r else (k, w) :: setProp key v r
  end.

(** [{...task}]: the own properties of the task are written to a new
    object one after the other. *)
Definition spread (task : list (list N * JSON)) : list (list N * JSON) :=
  fold_left (fun obj kv => setProp (fst kv) (snd kv) obj) task [].

(** The callback of [tasks.map] in [mergeTaskEstimations].  A task is
    the list of its own properties in their order; the object literal
    copies them and then writes the two estimates, each over a property
    of its name if the task has one. *)
Definition mergeOne (estimations : JSON) (index : nat) (task : list (list N * JSON))
  : Completion JSON :=
  bind (get estimations "estimations") (fun es =>
  bind (getIndex es index) (fun estimation =>
  bind (optionalGet estimation "estimated_duration") (fun estimated_duration =>
  bind (get estimations "estimations") (fun es' =>
  bind (getIndex es' index) (fun estimation' =>
  bind (optionalGet estimation' "confidence") (fun confidence =>
  Return
    (JObject
       (setProp (units "estimation_confidence")
          (orElse confidence (JString (units "medium")))
          (setProp (units "estimated_duration")
             (orElse estimated_duration (JNumber 60 0))
             (spread task)))))))))).

Fixpoint mapMerge (estimations : JSON) (index : nat) (tasks : list (list (list N * JSON)))
  : Completion (list JSON) :=
  match tasks with
  | [] => Return []
  | task :: r =>
      bind (mergeOne estimations index task) (fun merged =>
      bind (mapMerge estimations (S index) r) (fun rest =>
      Return (merged :: rest)))
  end.

Definition mergeTaskEstimations (tasks : list (list (list N * JSON))) (estimations : JSON)
  : Completion (list JSON) :=
  mapMerge estimations 0 tasks.

Section Estimates.
Variable maxRetries : Z.
Variable backend : nat -> Reply.

(** [estimateTaskDurations(tasks)]: the prompt that the tasks build only
    reaches the backend; [backend] stands for the replies of the backend
    to that prompt. *)
Definition estimateTaskDurations (tasks : list (list (list N * JSON))) (net : Net)
  : Completion (list JSON) * Net :=
  let '(response, net') := makeRequest maxRetries backend 0 net in
  (try_catch
     (bind response (fun content =>
      bind (parse content) (fun estimations =>
      mergeTaskEstimations tasks estimations)))
     (fun error =>
        Throw (Error ("Duration estimation failed: " ++ message error))),
   net').
End Estimates.

End Services.

(** ** The handlers of the [/schedule] command *)

(** The handler of the layered variant ([handleScheduleCommand]), up to
    the point where it has either answered with an error message or
    decided to generate a schedule. *)
Module Handlers.
Import JS.

Inductive Outcome : Type :=
(* [sendErrorMessage(command.channel_id, message)], then [return] *)
| ErrorMessage (message : string)
(* the checks have passed: the handler goes on to
   [nimService.generateSchedule(timeframe, tasks)] *)
| Generate (timeframe : string) (tasks : list Validators.Task).

Definition msgNoTimeframe : string :=
  "Please provide a timeframe. Example: `/schedule 9AM-5PM "
  ++ String dquote_char "Review code (high, general)" ++ String dquote_char "`".

Definition msgNoTask : string :=
  "Please provide at least one task. Example: `"
  ++ String dquote_char "Review code (high, general)" ++ String dquote_char "`".

(** [w] supplies what each [generateTaskId] call reads.  An exception in
    the body reaches the outer [catch], which answers with a fixed
    message. *)
Definition handleScheduleCommand (w : nat -> Validators.Entropy) (text : string)
  : Outcome :=
  let parsedInput := Validators.parseScheduleCommand w text in
  match Validators.timeframe parsedInput with
  | None => ErrorMessage msgNoTimeframe
  | Some timeframe =>
      if String.eqb timeframe "" then ErrorMessage msgNoTimeframe
      else if Nat.eqb (List.length (Validators.tasks parsedInput)) 0 then
        ErrorMessage msgNoTask
      else
        match Validators.validateTimeframe timeframe with
        | Throw _ =>
            ErrorMessage
              "An unexpected error occurred. Please try again or contact support."
        | Return (Validators.Invalid error) =>
            ErrorMessage ("Invalid timeframe: " ++ error)
        | Return (Validators.Valid _ _) =>
            match Validators.validateTasks (Validators.tasks parsedInput) with
            | Rejected error => ErrorMessage ("Invalid task format: " ++ error)
            | Ok => Generate timeframe (Validators.tasks parsedInput)
            end
        end
  end.

End Handlers.

(** The handler of the compact variant (the callback of
    [app.command('/schedule', ...)]), up to the same point. *)
Module App.
Import JS.

Inductive Reaction : Type :=
| SayError (error : string)   (* [say(slackService.createErrorMessage(error))] *)
| SayHelp                     (* [say(slackService.createHelpMessage())] *)
(* the handler goes on to [nimService.generateSchedule(timeframe, tasks)] *)
| Generate (timeframe : string) (tasks : list Utils.Task).

(** Reading [tasks.length] of a result without tasks throws, and the
    outer [catch] answers with a fixed message. *)
Definition scheduleCommand (text : string) : Reaction :=
  let input := Utils.parseScheduleCommand text in
  if Utils.truthy (Utils.error input) then SayError (Utils.text (Utils.error input))
  else
    match Utils.timeframe input with
    | None => SayHelp
    | Some timeframe =>
        if String.eqb timeframe "" then SayHelp
        else
          match Utils.tasks input with
          | None => SayError "An unexpected error occurred. Please try again."
          | Some tasks =>
              if Nat.eqb (List.length tasks) 0 then SayHelp
              else Generate timeframe tasks
          end
    end.

End App.

(** * Vocabulary of the statements *)

Import JS Net Json.

(** Every character of [s] satisfies [P]. *)
Fixpoint allChars (P : ascii -> bool) (s : string) : bool :=
  match s with
  | "" => true
  | String c r => P c && allChars P r
  end.

Fixpoint contains (c : ascii) (s : string) : bool :=
  match s with
  | "" => false
  | String a r => Ascii.eqb a c || contains c r
  end.

(** ** Command texts *)

Definition notQuote (c : ascii) : bool := negb (Ascii.eqb c Validators.dquote).
Definition noQuote (s : string) : bool := allChars notQuote s.

(** A task string between its two double quotes. *)
Definition quoted (body : string) : string :=
  String Validators.dquote (body ++ String Validators.dquote "").

(** A command text read as a sequence of unquoted runs and quoted task
    strings. *)
Inductive Segment : Type :=
| Run (s : string)
| Quoted (body : string).

Definition wellFormed (g : Segment) : Prop :=
  match g with
  | Run s => s <> "" /\ noQuote s = true
  | Quoted body => noQuote body = true
  end.

Fixpoint render (segs : list Segment) : string :=
  match segs with
  | [] => ""
  | Run s :: r => s ++ render r
  | Quoted body :: r => quoted body ++ render r
  end.

(** The quoted task strings of a text, in order. *)
Fixpoint bodies (segs : list Segment) : list string :=
  match segs with
  | [] => []
  | Run _ :: r => bodies r
  | Quoted body :: r => body :: bodies r
  end.

(** Each task string parsed on its own, the k-th with the k-th entropy. *)
Fixpoint parseAll (w : nat -> Validators.Entropy) (k : nat) (l : list string)
  : list (option Validators.Task) :=
  match l with
  | [] => []
  | body :: r => Validators.parseTask (w k) body :: parseAll w (S k) r
  end.

(** A task string can only carry a parameter group when it has an opening
    parenthesis and ends with a closing one. *)
Definition hasParenGroup (s : string) : bool :=
  contains "(" s && Validators.endsWith ")" s.

Definition isQuotedPart (part : string) : bool :=
  Validators.startsWith Validators.dquote part
  && Validators.endsWith Validators.dquote part.

(** ** Timeframes *)

Definition presetNames : list string := map fst Validators.presets.

(** The two results by which [validateTimeframe] reports a format
    failure. *)
Definition formatFailure (r : Completion Validators.TimeframeResult) : Prop :=
  r = Return (Validators.Invalid Validators.msgFormatHelp) \/
  r = Return (Validators.Invalid "Invalid timeframe format").

(** ** Replies *)

(** [v.key] as a total function: [undefined] also where the read throws. *)
Definition field (v : JSON) (key : string) : option JSON :=
  match v with
  | JObject fields => getOwn (units key) fields
  | _ => None
  end.

Definition hasScheduleArray (v : JSON) : bool := isArray (field v "schedule").

(** An item with a task label, a start time and an end time. *)
Definition itemComplete (item : JSON) : bool :=
  truthy (field item "task") && truthy (field item "start_time")
  && truthy (field item "end_time").

Definition wellShaped (v : JSON) : bool :=
  hasScheduleArray v && forallb itemComplete (NimService.itemsOf (field v "schedule")).

(** The reply text as it reaches [JSON.parse]. *)
Definition clean (response : string) : string :=
  trim (NimService.stripFences 0 response).

Definition isThrow {A} (c : Completion A) : Prop :=
  match c with
  | Throw _ => True
  | Return _ => False
  end.

(** The text is not JSON, or its value has no schedule array. *)
Definition lacksSchedule (c : Completion JSON) : Prop :=
  match c with
  | Throw _ => True
  | Return v => hasScheduleArray v = false
  end.

(** ** Retries *)

(** The events of [n] retries, the first of them the [k]-th: before each
    call the delay that [delayOf] gives to its index. *)
Fixpoint retries (delayOf : Z -> Z) (k : Z) (n : nat) : list Event :=
  match n with
  | O => []
  | S m => Delay (delayOf k) :: Post :: retries delayOf (k + 1) m
  end.

(** One call and [n] retries. *)
Definition schedule (delayOf : Z -> Z) (n : nat) : list Event :=
  Post :: retries delayOf 1 n.

Definition exponential (k : Z) : Z := (1000 * 2 ^ (k - 1))%Z.
Definition progressive (k : Z) : Z := (1000 * k)%Z.

(** The [k]-th call fails with an error that [retryable] accepts. *)
Definition failsRetryably (retryable : Exn -> bool) (backend : nat -> Reply) (k : nat)
  : Prop :=
  exists e, backend k = Failed e /\ retryable e = true.

(** ** Times of day *)

(** The value of a decimal digit. *)
Definition digitOf (c : ascii) : Z := Z.of_N (code c) - 48.

(** The hour test of the five-character alternative of [isValidTime]:
    a tens digit 0 or 1 with any units digit, or 2 with a units digit up
    to 3. *)
Definition hourOk (h1 h2 : ascii) : bool :=
  (Ascii.eqb h1 "0" || Ascii.eqb h1 "1") && isDigit h2
  || Ascii.eqb h1 "2" && ((48 <=? code h2) && (code h2 <=? 51))%N.

(** ** Tasks *)

(** The three fields that the parameters of a task text set, as
    [parseTask] can leave them. *)
Definition paramsOk (st : string * string * option string) : Prop :=
  let '(priority, type, preferred_time) := st in
  In priority Validators.validPriorities /\
  In type Validators.validTypes /\
  match preferred_time with
  | Some t => Validators.isValidTime t = true
  | None => True
  end.

(** ** Parts of a command text *)

(** The text without its double quotes. *)
Fixpoint unquote (s : string) : string :=
  match s with
  | "" => ""
  | String c r =>
      if Ascii.eqb c Validators.dquote then unquote r else String c (unquote r)
  end.

(** What one match of the pattern of [parseScheduleCommand] can be: a
    non-empty run without a double quote, or a quoted segment. *)
Definition isPart (part : string) : Prop :=
  (part <> "" /\ noQuote part = true) \/
  (exists body, part = quoted body /\ noQuote body = true).

(** Where a run ends: at the end of the text or before a double quote. *)
Definition runEnds (rest : string) : Prop :=
  rest = "" \/ exists u, rest = String Validators.dquote u.

(** A text read from the left as the pattern of [parseScheduleCommand]
    reads it: a run goes as far as there is no double quote; a quote with a
    later quote opens a quoted segment that closes at the next quote; a
    quote that no quote follows is passed over. *)
Inductive partsOf : string -> list string -> Prop :=
| parts_end : partsOf "" []
| parts_run run rest ps :
    run <> "" -> noQuote run = true -> runEnds rest -> partsOf rest ps ->
    partsOf (run ++ rest) (run :: ps)
| parts_quoted body rest ps :
    noQuote body = true -> partsOf rest ps ->
    partsOf (quoted body ++ rest) (quoted body :: ps)
| parts_skip rest ps :
    noQuote rest = true -> partsOf rest ps ->
    partsOf (String Validators.dquote rest) ps.

(** ** The two variants side by side *)

(** What the two task records have in common. *)
Definition layeredFields (t : Validators.Task) : string * string * string :=
  (Validators.description t, Validators.priority t, Validators.type t).

Definition compactFields (t : Utils.Task) : string * string * string :=
  (Utils.description t, Utils.priority t, Utils.type t).

(** The ids [task_first], ..., one per task. *)
Definition taskIds (first count : nat) : list string :=
  map (fun k => ("task_" ++ toString (N.of_nat k))%string) (seq first count).

(** ** Outcomes of a client *)

(** What a client returns after the call that got [reply]. *)
Definition outcome (reply : Reply) : Completion string :=
  match reply with
  | Fulfilled content => Return content
  | Failed error => Throw error
  end.

(** Why a client with the classifier [retryable] and [budget] retries
    stops after [n] retries at [reply]: a failure ends the calls only
    when it is not retryable or the budget is used up. *)
Definition stopsAt (retryable : Exn -> bool) (budget : Z) (n : nat) (reply : Reply)
  : Prop :=
  match reply with
  | Fulfilled _ => True
  | Failed error => retryable error = false \/ (budget <= Z.of_nat n)%Z
  end.

(** ** Fenced replies *)

(** A reply text inside a [json] code fence, each fence on a line of its
    own. *)
Definition fenced (s : string) : string :=
  ("```json" ++ String "010" (s ++ String "010" "```"))%string.

(** The text does not begin with a backquote. *)
Definition noFenceAhead (t : string) : bool :=
  match t with
  | String c _ => negb (Ascii.eqb c "`")
  | "" => true
  end.

(** ** Estimates *)

(** [x[index]] and [x[index]?.key] as total functions, for a value [x]
    other than [null]: [undefined] is [None]. *)
Definition element (x : JSON) (index : nat) : option JSON :=
  match x with
  | JArray items => nth_error items index
  | JString s => option_map (fun u => JString [u]) (nth_error s index)
  | JObject fields => getOwn (units (toString (N.of_nat index))) fields
  | _ => None
  end.

Definition estimateOf (x : JSON) (index : nat) (key : string) : option JSON :=
  match element x index with
  | Some item => field item key
  | None => None
  end.

(** The two estimates for the task at [index], read from [x], or their
    defaults. *)
Definition durationOf (x : JSON) (index : nat) : JSON :=
  Services.orElse (estimateOf x index "estimated_duration") (JNumber 60 0).

Definition confidenceOf (x : JSON) (index : nat) : JSON :=
  Services.orElse (estimateOf x index "confidence") (JString (units "medium")).

Definition estimates (x : JSON) (index : nat) : list (list N * JSON) :=
  [ (units "estimated_duration", durationOf x index);
    (units "estimation_confidence", confidenceOf x index) ].

(** Whether the fields have one of the name [key]. *)
Definition hasKey (key : list N) (fields : list (list N * JSON)) : bool :=
  existsb (fun kv => eqUnits (fst kv) key) fields.

(** The own properties that a list of writes leaves: each name once, at
    the place of its first write, with the value of its last. *)
Fixpoint ownProperties (writes : list (list N * JSON)) : list (list N * JSON) :=
  match writes with
  | [] => []
  | (k, v) :: r =>
      (k, match getOwn k r with Some v' => v' | None => v end)
      :: filter (fun kv => negb (eqUnits k (fst kv))) (ownProperties r)
  end.

(** The task at [index] with the two estimates: what writing the
    properties of the task and then the estimates leaves. *)
Definition mergedFields (x : JSON) (index : nat) (task : list (list N * JSON))
  : list (list N * JSON) :=
  ownProperties (task ++ estimates x index).

Definition mergedTask (x : JSON) (index : nat) (task : list (list N * JSON)) : JSON :=
  JObject (mergedFields x index task).

Fixpoint mergedFrom (x : JSON) (index : nat) (tasks : list (list (list N * JSON)))
  : list JSON :=
  match tasks with
  | [] => []
  | task :: r => mergedTask x index task :: mergedFrom x (S index) r
  end.

(** Both estimates of a merged task are present and truthy. *)
Definition estimated (merged : JSON) : Prop :=
  truthy (field merged "estimated_duration") = true /\
  truthy (field merged "estimation_confidence") = true.

(** ** Parsed tasks *)

(** The task is what [parseTask] builds from some text. *)
Definition fromParseTask (t : Validators.Task) : Prop :=
  exists e taskText, Validators.parseTask e taskText = Some t.

(** The description is not empty and has at most 200 characters. *)
Definition describable (t : Validators.Task) : Prop :=
  Validators.description t <> "" /\
  (String.length (Validators.description t) <= 200)%nat.

(** ** Sample inputs *)

Definition serverError : Exn := HttpError None (Some 500%Z) "Internal Server Error".
Definition unauthorized : Exn := HttpError None (Some 401%Z) "Unauthorized".

(** A backend that fails [n] times with status 500 and then replies. *)
Definition failing (n : nat) (k : nat) : Reply :=
  if (k <? n)%nat then Failed serverError else Fulfilled "{}".

Definition plainTask (d : string) : Validators.Task :=
  Validators.mkTask "task_1" d "medium" "general" None.

Definition reviewCode : Validators.Task :=
  Validators.mkTask "task_1" "Review code" "high" "general" None.

Definition sampleWorld (k : nat) : Validators.Entropy :=
  Validators.mkEntropy (1700000000000 + N.of_nat k) "0.k3j4h5g6f7a".

Definition scenarioA : list Segment :=
  [ Quoted "Review code (high, general)"; Run " ";
    Quoted "Team meeting (medium, meeting)" ].

Definition noTimeframe : list Segment :=
  [ Quoted "Task A"; Run " "; Quoted "Task B" ].

(** A reply with one complete item, and the same reply inside a fence. *)
Definition sampleReply : string :=
  "{" ++ quoted "schedule" ++ ": [{" ++ quoted "task" ++ ": " ++ quoted "Test task"
  ++ ", " ++ quoted "start_time" ++ ": " ++ quoted "09:00"
  ++ ", " ++ quoted "end_time" ++ ": " ++ quoted "10:00"
  ++ ", " ++ quoted "duration" ++ ": 60}], "
  ++ quoted "summary" ++ ": {" ++ quoted "total_tasks" ++ ": 1}}".

Definition fencedReply : string :=
  "```json" ++ String "010" sampleReply ++ String "010" "```".

Definition sampleSchedule : JSON :=
  JObject
    [ (units "schedule",
        JArray
          [ JObject
              [ (units "task", NimService.str "Test task");
                (units "start_time", NimService.str "09:00");
                (units "end_time", NimService.str "10:00");
                (units "duration", NimService.num 60) ] ]);
      (units "summary", JObject [ (units "total_tasks", NimService.num 1) ]) ].

(** A backend that fails twice with status 500 and then sends
    [sampleReply]. *)
Definition recovering (k : nat) : Reply :=
  if (k <? 2)%nat then Failed serverError else Fulfilled sampleReply.

(** * Properties *)

Local Open Scope string_scope.

(** Splits a hypothesis that a conjunction of two tests holds. *)
Tactic Notation "andb_split" hyp(H) "as" simple_intropattern(A) simple_intropattern(B) :=
  apply andb_prop in H; destruct H as [A B].

(** Turns a failed test for the double quote into its boolean equation. *)
Ltac not_quote H := unfold notQuote in H; apply negb_true_iff in H.

(** ** Doubles *)

Section Doubles.
Import JS.
Local Open Scope Z_scope.

Lemma nearestEven_bounds num den :
  num / den <= nearestEven num den <= num / den + 1.
Proof.
  unfold nearestEven.
  destruct (2 * (num mod den) <? den); [lia|].
  destruct (den <? 2 * (num mod den)); [lia|].
  destruct (Z.even (num / den)); lia.
Qed.

Lemma nearestEven_up num den :
  nearestEven num den <> num / den -> den <= 2 * (num mod den).
Proof.
  unfold nearestEven.
  destruct (2 * (num mod den) <? den) eqn:E; [congruence|].
  apply Z.ltb_ge in E. auto.
Qed.

Lemma roundToDouble_small z : Z.abs z <= 2 ^ 53 -> roundToDouble z = z.
Proof.
  intros H. unfold roundToDouble.
  destruct (Z.abs z <? 2 ^ 53) eqn:E; [reflexivity|].
  apply Z.ltb_ge in E. assert (Ha : Z.abs z = 2 ^ 53) by lia.
  destruct (Z.abs_eq_or_opp z) as [Hz | Hz]; rewrite Hz in Ha.
  - subst z. reflexivity.
  - assert (z = - 2 ^ 53) by lia. subst z. reflexivity.
Qed.

Lemma roundToDouble_large z : 2 ^ 53 <= z -> 2 ^ 53 <= roundToDouble z.
Proof.
  intros H. unfold roundToDouble.
  assert (Hpos : 0 < z) by (pose proof (Z.pow_pos_nonneg 2 53); lia).
  rewrite (Z.abs_eq z) by lia.
  destruct (z <? 2 ^ 53) eqn:E; [apply Z.ltb_lt in E; lia|].
  rewrite (Z.sgn_pos z Hpos), Z.mul_1_l.
  assert (Hlog : 53 <= Z.log2 z) by (apply Z.log2_le_pow2; lia).
  set (e := Z.log2 z - 52).
  assert (He : 1 <= e) by (unfold e; lia).
  pose proof (Z.log2_spec z Hpos) as [Hlo _].
  assert (Hsplit : 2 ^ Z.log2 z = 2 ^ 52 * 2 ^ e).
  { unfold e. rewrite <- Z.pow_add_r by lia. f_equal. lia. }
  assert (Hp : 0 < 2 ^ e) by (apply Z.pow_pos_nonneg; lia).
  assert (Hq : 2 ^ 52 <= z / 2 ^ e).
  { apply Z.div_le_lower_bound; [exact Hp|]. lia. }
  pose proof (nearestEven_bounds z (2 ^ e)) as [Hn _].
  assert (H2 : 2 <= 2 ^ e).
  { change 2 with (2 ^ 1) at 1. apply Z.pow_le_mono_r; lia. }
  change (2 ^ 53) with (2 ^ 52 * 2). nia.
Qed.

Lemma roundToDouble_below z bound :
  0 <= z -> bound <= 2 ^ 53 -> roundToDouble z < bound -> roundToDouble z = z.
Proof.
  intros H0 Hb Hr. destruct (Z_lt_le_dec z (2 ^ 53)) as [Hs | Hl].
  - apply roundToDouble_small. lia.
  - pose proof (roundToDouble_large z Hl). lia.
Qed.

Lemma floorDiv_exact (a : N) :
  (a < 2 ^ 53)%N -> floorDiv a 60 = (a / 60)%N.
Proof.
  intros Ha. unfold floorDiv.
  destruct (a =? 0)%N eqn:E0.
  { apply N.eqb_eq in E0. subst a. reflexivity. }
  apply N.eqb_neq in E0. cbv zeta.
  set (a' := Z.of_N a). change (Z.of_N 60) with 60.
  assert (Hpos : 0 < a') by (unfold a'; lia).
  assert (Hlt : a' < 2 ^ 53) by (unfold a'; change (2 ^ 53) with (Z.of_N (2 ^ 53)); lia).
  assert (Hlog : Z.log2 a' < 53) by (apply Z.log2_lt_pow2; lia).
  change (Z.log2 60) with 5.
  set (t := Z.log2 a' - 5).
  set (reaches := if 0 <=? t then 60 * 2 ^ t <=? a' else 60 <=? a' * 2 ^ (- t)).
  set (f := if reaches then t else t - 1).
  assert (Hf : f <= 47) by (unfold f, t; destruct reaches; lia).
  set (e := f - 52).
  assert (He : e <= -5) by (unfold e; lia).
  destruct (0 <=? e) eqn:Ee; [apply Z.leb_le in Ee; lia|].
  set (s := - e). assert (Hs : 5 <= s) by (unfold s; lia).
  set (P := 2 ^ s).
  assert (HP : 32 <= P).
  { unfold P. change 32 with (2 ^ 5). apply Z.pow_le_mono_r; lia. }
  pose proof (nearestEven_bounds (a' * P) 60) as [Hn1 Hn2].
  pose proof (nearestEven_up (a' * P) 60) as Hup.
  set (n := nearestEven (a' * P) 60) in *.
  pose proof (Z.div_mod (a' * P) 60 ltac:(lia)) as Hdm.
  pose proof (Z.mod_pos_bound (a' * P) 60 ltac:(lia)) as Hr.
  pose proof (Z.div_mod a' 60 ltac:(lia)) as Hdm'.
  pose proof (Z.mod_pos_bound a' 60 ltac:(lia)) as Hr'.
  set (k := a' / 60) in *. set (j := a' mod 60) in *.
  set (q := a' * P / 60) in *. set (r := (a' * P) mod 60) in *.
  assert (Hk : n / P = k).
  { symmetry. apply Z.div_unique with (n - k * P); [|lia].
    left. assert (Hq1 : k * P <= q) by (apply Z.div_le_lower_bound; nia).
    assert (Hq2 : 60 * q <= 60 * (k * P) + 59 * P) by nia.
    split; [nia|].
    destruct (Z.eq_dec n q) as [En | En]; [nia|].
    specialize (Hup En). nia. }
  rewrite Hk. unfold k, a'. rewrite <- (Z2N.id 60) at 1 by lia.
  rewrite <- N2Z.inj_div. now rewrite N2Z.id.
Qed.

Lemma floorDiv_large (a : N) :
  (2 ^ 53 <= a)%N -> (2 ^ 47 <= floorDiv a 60)%N.
Proof.
  intros Ha. unfold floorDiv.
  destruct (a =? 0)%N eqn:E0.
  { apply N.eqb_eq in E0. subst a. change (2 ^ 53)%N with 9007199254740992%N in Ha. lia. }
  cbv zeta.
  set (a' := Z.of_N a). change (Z.of_N 60) with 60.
  assert (Hge : 2 ^ 53 <= a') by (unfold a'; change (2 ^ 53) with (Z.of_N (2 ^ 53)); lia).
  assert (Hpos : 0 < a') by (pose proof (Z.pow_pos_nonneg 2 53); lia).
  assert (Hlog : 53 <= Z.log2 a') by (apply Z.log2_le_pow2; lia).
  pose proof (Z.log2_spec a' Hpos) as [Hlo Hhi].
  change (Z.log2 60) with 5.
  set (t := Z.log2 a' - 5) in *.
  set (reaches := if 0 <=? t then 60 * 2 ^ t <=? a' else 60 <=? a' * 2 ^ (- t)).
  set (f := if reaches then t else t - 1).
  assert (Hf : t - 1 <= f <= t) by (unfold f; destruct reaches; lia).
  set (e := f - 52).
  assert (Hres : 2 ^ 47 <=
                 (if 0 <=? e then nearestEven a' (60 * 2 ^ e) * 2 ^ e
                  else nearestEven (a' * 2 ^ (- e)) 60 / 2 ^ (- e))).
  { destruct (0 <=? e) eqn:Ee.
    - apply Z.leb_le in Ee.
      assert (HP : 1 <= 2 ^ e) by (change 1 with (2 ^ 0); apply Z.pow_le_mono_r; lia).
      pose proof (nearestEven_bounds a' (60 * 2 ^ e)) as [Hn _].
      assert (Hsplit : 2 ^ Z.log2 a' = 2 ^ (Z.log2 a' - e) * 2 ^ e).
      { rewrite <- Z.pow_add_r by (unfold e, t in *; lia). f_equal. lia. }
      assert (H57 : 2 ^ 56 <= 2 ^ (Z.log2 a' - e)).
      { apply Z.pow_le_mono_r; [lia|]. unfold e, t in *. lia. }
      assert (Hq : 2 ^ 47 <= a' / (60 * 2 ^ e)).
      { apply Z.div_le_lower_bound; [lia|].
        change (2 ^ 56) with (2 ^ 47 * 512) in H57. nia. }
      nia.
    - apply Z.leb_gt in Ee.
      set (P := 2 ^ (- e)).
      assert (HP : 0 < P) by (apply Z.pow_pos_nonneg; lia).
      pose proof (nearestEven_bounds (a' * P) 60) as [Hn _].
      assert (Hq : a' / 60 <= nearestEven (a' * P) 60 / P).
      { apply Z.div_le_lower_bound; [lia|].
        assert (a' / 60 * P <= a' * P / 60).
        { apply Z.div_le_lower_bound; [lia|].
          pose proof (Z.mul_div_le a' 60 ltac:(lia)). nia. }
        lia. }
      assert (2 ^ 47 <= a' / 60).
      { apply Z.div_le_lower_bound; [lia|].
        change (2 ^ 53) with (60 * 2 ^ 47 + 4 * 2 ^ 47) in Hge. lia. }
      lia. }
  apply N2Z.inj_le. rewrite Z2N.id by (pose proof (Z.pow_pos_nonneg 2 47); lia).
  exact Hres.
Qed.

Lemma roundToDouble_exact z : 0 <= z <= 9007199254740992 -> roundToDouble z = z.
Proof. intros H. apply roundToDouble_small. change (2 ^ 53) with 9007199254740992. lia. Qed.

Lemma floorDiv_day (m : N) : (floorDiv m 60 < 24)%N -> (m < 1440)%N.
Proof.
  intros H. destruct (N.lt_ge_cases m (2 ^ 53)) as [Hs | Hl].
  - rewrite (floorDiv_exact m Hs) in H.
    pose proof (N.div_mod m 60 ltac:(lia)).
    pose proof (N.mod_lt m 60 ltac:(lia)). lia.
  - pose proof (floorDiv_large m Hl) as Hb.
    change (2 ^ 47)%N with 140737488355328%N in Hb. lia.
Qed.

End Doubles.

(** ** Strings and decimal numerals *)

Lemma append_nil_r s : s ++ "" = s.
Proof. induction s; simpl; congruence. Qed.

Lemma append_assoc a b c : (a ++ b) ++ c = a ++ (b ++ c).
Proof. induction a; simpl; congruence. Qed.

Lemma uint_string_digits (d : Decimal.uint) :
  allChars JS.isDigit (DecimalString.NilEmpty.string_of_uint d) = true.
Proof. induction d; simpl; auto. Qed.

Lemma decimal_nonempty_digits (n : N) :
  JS.decimal n <> "" /\ allChars JS.isDigit (JS.decimal n) = true.
Proof.
  unfold JS.decimal, DecimalString.NilZero.string_of_uint.
  destruct (N.to_uint n) eqn:E; try (split; [discriminate | exact (uint_string_digits _)]).
  split; [discriminate | reflexivity].
Qed.

Lemma toString_small (n : N) : (n < 2 ^ 53)%N -> JS.toString n = JS.decimal n.
Proof.
  intros H. unfold JS.toString, JS.shortest.
  apply N.ltb_lt in H as Hb. rewrite Hb.
  assert (Hlt : (n <? 10 ^ 21)%N = true).
  { apply N.ltb_lt. change (2 ^ 53)%N with 9007199254740992%N in H.
    change (10 ^ 21)%N with 1000000000000000000000%N. lia. }
  now rewrite Hlt.
Qed.

Lemma toString_nonempty_digits (n : N) :
  (n < 2 ^ 53)%N ->
  JS.toString n <> "" /\ allChars JS.isDigit (JS.toString n) = true.
Proof. intros H. rewrite (toString_small n H). apply decimal_nonempty_digits. Qed.

Lemma allChars_app P a b :
  allChars P (a ++ b) = allChars P a && allChars P b.
Proof. induction a; simpl; [reflexivity | rewrite IHa; apply andb_assoc]. Qed.

Lemma replicate_digits n : allChars JS.isDigit (JS.replicate n "0") = true.
Proof. induction n; simpl; auto. Qed.

Lemma digit_not_space c : JS.isDigit c = true -> JS.isSpace c = false.
Proof.
  unfold JS.isDigit, JS.isSpace. intros H.
  andb_split H as H1 H2.
  apply N.leb_le in H1. apply N.leb_le in H2.
  repeat (apply orb_false_intro); try apply andb_false_intro2;
    try (apply N.leb_gt; lia); try (apply N.eqb_neq; lia).
Qed.

Lemma trimEnd_digits s :
  allChars JS.isDigit s = true -> JS.trimEnd s = s.
Proof.
  induction s as [|c r IH]; simpl; [reflexivity|].
  intros H. andb_split H as Hc Hr.
  rewrite (IH Hr). destruct r; [| reflexivity].
  now rewrite (digit_not_space c Hc).
Qed.

Lemma trim_digits s :
  allChars JS.isDigit s = true -> JS.trim s = s.
Proof.
  intros H. unfold JS.trim.
  destruct s as [|c r]; [reflexivity|].
  simpl in H. andb_split H as Hc Hr.
  simpl. rewrite (digit_not_space c Hc).
  apply trimEnd_digits. simpl. now rewrite Hc, Hr.
Qed.

Lemma digit_cases c :
  JS.isDigit c = true ->
  c <> "+"%char /\ c <> "-"%char /\ c <> ":"%char.
Proof.
  intros H. repeat split; intros ->; discriminate H.
Qed.

Lemma ToNumber_digits s :
  s <> "" -> allChars JS.isDigit s = true -> JS.ToNumber s = JS.digitsValue s.
Proof.
  intros Hne H. unfold JS.ToNumber. rewrite (trim_digits s H).
  destruct s as [|c r]; [congruence|].
  simpl in H. andb_split H as Hc _.
  destruct (digit_cases c Hc) as (Hp & Hm & _).
  destruct c as [[] [] [] [] [] [] [] []]; try reflexivity; congruence.
Qed.

Lemma split_no_sep sep s :
  allChars (fun c => negb (Ascii.eqb c sep)) s = true -> JS.split sep s = [s].
Proof.
  induction s as [|c r IH]; simpl; [reflexivity|].
  intros H. andb_split H as Hc Hr.
  apply negb_true_iff in Hc. rewrite Hc, (IH Hr). reflexivity.
Qed.

Lemma split_app sep a b :
  allChars (fun c => negb (Ascii.eqb c sep)) a = true ->
  JS.split sep (a ++ String sep b) = a :: JS.split sep b.
Proof.
  induction a as [|c r IH]; simpl.
  - intros _. now rewrite Ascii.eqb_refl.
  - intros H. andb_split H as Hc Hr.
    apply negb_true_iff in Hc. rewrite Hc, (IH Hr). reflexivity.
Qed.

Lemma allChars_impl (P Q : ascii -> bool) s :
  (forall c, P c = true -> Q c = true) ->
  allChars P s = true -> allChars Q s = true.
Proof.
  intros HPQ. induction s as [|c r IH]; simpl; [reflexivity|].
  intros H. andb_split H as Hc Hr.
  now rewrite (HPQ c Hc), (IH Hr).
Qed.

Lemma digits_no_colon s :
  allChars JS.isDigit s = true ->
  allChars (fun c => negb (Ascii.eqb c ":")) s = true.
Proof.
  apply allChars_impl. intros c Hc.
  destruct (digit_cases c Hc) as (_ & _ & Hn).
  apply negb_true_iff. now apply Ascii.eqb_neq.
Qed.

Lemma padStart_digits n s :
  allChars JS.isDigit s = true -> allChars JS.isDigit (JS.padStart n "0" s) = true.
Proof.
  intros H. unfold JS.padStart. now rewrite allChars_app, replicate_digits, H.
Qed.

Lemma padStart_nonempty n c s : s <> "" -> JS.padStart n c s <> "".
Proof.
  unfold JS.padStart. destruct (n - String.length s)%nat; simpl; [auto | discriminate].
Qed.

Lemma uint_of_string_zeros k s :
  DecimalString.NilEmpty.uint_of_string (JS.replicate k "0" ++ s) =
  option_map (Nat.iter k Decimal.D0) (DecimalString.NilEmpty.uint_of_string s).
Proof.
  induction k as [|k IH]; simpl.
  - now destruct (DecimalString.NilEmpty.uint_of_string s).
  - rewrite IH. now destruct (DecimalString.NilEmpty.uint_of_string s).
Qed.

Lemma of_uint_zeros k d : N.of_uint (Nat.iter k Decimal.D0 d) = N.of_uint d.
Proof. induction k as [|k IH]; simpl; [reflexivity | exact IH]. Qed.

Lemma digitsValue_decimal k n :
  JS.digitsValue (JS.padStart k "0" (JS.decimal n))
  = JS.Int (JS.roundToDouble (Z.of_N n)).
Proof.
  destruct (decimal_nonempty_digits n) as [Hne _].
  assert (Hp : JS.padStart k "0" (JS.decimal n) <> "") by now apply padStart_nonempty.
  unfold JS.digitsValue.
  destruct (JS.padStart k "0" (JS.decimal n)) eqn:E; [congruence|].
  rewrite <- E. unfold JS.padStart. rewrite uint_of_string_zeros.
  unfold JS.decimal, DecimalString.NilZero.string_of_uint.
  assert (Hs : DecimalString.NilEmpty.uint_of_string
                 match N.to_uint n with
                 | Decimal.Nil => "0"
                 | _ => DecimalString.NilEmpty.string_of_uint (N.to_uint n)
                 end = Some (match N.to_uint n with Decimal.Nil => Decimal.D0 Decimal.Nil | d => d end)).
  { destruct (N.to_uint n) eqn:En; try (rewrite <- En; apply DecimalString.NilEmpty.usu); try reflexivity.
    all: apply DecimalString.NilEmpty.usu. }
  rewrite Hs. cbn [option_map]. rewrite of_uint_zeros.
  destruct (N.to_uint n) eqn:En; rewrite <- ?En;
    try (now rewrite DecimalN.Unsigned.of_to).
  pose proof (DecimalN.Unsigned.of_to n) as H. rewrite En in H. simpl in H. now subst.
Qed.

Lemma digitsValue_padStart k n :
  (n < 2 ^ 53)%N ->
  JS.digitsValue (JS.padStart k "0" (JS.toString n)) = JS.Int (Z.of_N n).
Proof.
  intros H. rewrite (toString_small n H), digitsValue_decimal.
  rewrite roundToDouble_exact; [reflexivity|].
  change (2 ^ 53)%N with 9007199254740992%N in H. lia.
Qed.

(** The text of two fields that [toString] printed and [padStart]
    filled is read back field by field. *)
Lemma timeToMinutes_padded (h mi : N) :
  (h < 2 ^ 53)%N -> (mi < 2 ^ 53)%N ->
  Validators.timeToMinutes
    (JS.padStart 2 "0" (JS.toString h) ++ ":" ++ JS.padStart 2 "0" (JS.toString mi))
  = JS.num_add (JS.num_mul (JS.Int (Z.of_N h)) (JS.Int 60)) (JS.Int (Z.of_N mi)).
Proof.
  intros Hh Hmi. unfold Validators.timeToMinutes.
  destruct (toString_nonempty_digits h Hh) as [Hh1 Hh2].
  destruct (toString_nonempty_digits mi Hmi) as [Hm1 Hm2].
  change (":" ++ JS.padStart 2 "0" (JS.toString mi))
    with (String ":" (JS.padStart 2 "0" (JS.toString mi))).
  rewrite split_app by (apply digits_no_colon, padStart_digits, Hh2).
  rewrite split_no_sep by (apply digits_no_colon, padStart_digits, Hm2).
  cbn [map].
  rewrite !ToNumber_digits by
    (try (apply padStart_nonempty; assumption); apply padStart_digits; assumption).
  now rewrite !digitsValue_padStart.
Qed.

Lemma recombined (h mi : N) :
  (h * 60 + mi < 2 ^ 53)%N ->
  JS.num_add (JS.num_mul (JS.Int (Z.of_N h)) (JS.Int 60)) (JS.Int (Z.of_N mi))
  = JS.Int (Z.of_N h * 60 + Z.of_N mi).
Proof.
  intros H. change (2 ^ 53)%N with 9007199254740992%N in H.
  unfold JS.num_add, JS.num_mul.
  rewrite (roundToDouble_exact (Z.of_N h * 60)) by lia.
  now rewrite roundToDouble_exact by lia.
Qed.

Lemma minutesToTime_safe (m : N) :
  (m < 2 ^ 53)%N ->
  Validators.minutesToTime m
  = JS.padStart 2 "0" (JS.toString (m / 60)) ++ ":"
    ++ JS.padStart 2 "0" (JS.toString (m mod 60)).
Proof. intros H. unfold Validators.minutesToTime. now rewrite (floorDiv_exact m H). Qed.

(** C10.  [timeToMinutes] undoes [minutesToTime] on the safe integers:
    for every natural number of minutes [m] below [2^53],
    [minutesToTime] prints the hours [m / 60] and the minutes
    [m mod 60], each filled to two digits, around a colon;
    [timeToMinutes] recombines two such fields as hours times 60 plus
    minutes; and reading the text of [m] back gives [m]. *)
Theorem timeToMinutes_minutesToTime (m : N) (Hsafe : (m < 2 ^ 53)%N) :
  Validators.minutesToTime m
  = JS.padStart 2 "0" (JS.toString (m / 60)) ++ ":"
    ++ JS.padStart 2 "0" (JS.toString (m mod 60)) /\
  (forall h mi : N,
     (h * 60 + mi < 2 ^ 53)%N ->
     Validators.timeToMinutes
       (JS.padStart 2 "0" (JS.toString h) ++ ":" ++ JS.padStart 2 "0" (JS.toString mi))
     = JS.Int (Z.of_N h * 60 + Z.of_N mi)) /\
  Validators.timeToMinutes (Validators.minutesToTime m) = JS.Int (Z.of_N m).
Proof.
  assert (Hfields : forall h mi : N,
            (h * 60 + mi < 2 ^ 53)%N ->
            Validators.timeToMinutes
              (JS.padStart 2 "0" (JS.toString h) ++ ":"
               ++ JS.padStart 2 "0" (JS.toString mi))
            = JS.Int (Z.of_N h * 60 + Z.of_N mi)).
  { intros h mi H. rewrite timeToMinutes_padded.
    - now apply recombined.
    - change (2 ^ 53)%N with 9007199254740992%N in *. lia.
    - change (2 ^ 53)%N with 9007199254740992%N in *. lia. }
  split; [now apply minutesToTime_safe|]. split; [exact Hfields|].
  rewrite (minutesToTime_safe m Hsafe).
  pose proof (N.div_mod m 60 ltac:(lia)) as Hdm.
  rewrite Hfields by (rewrite N.mul_comm, <- Hdm; exact Hsafe).
  f_equal. lia.
Qed.

Lemma timeToMinutes_minutesToTime_witness :
  Validators.minutesToTime 1439 = "23:59" /\
  Validators.timeToMinutes "09:30" = JS.Int 570 /\
  Validators.timeToMinutes (Validators.minutesToTime 1439) = JS.Int 1439.
Proof.
  pose proof (timeToMinutes_minutesToTime 1439 eq_refl) as H.
  exact (conj (proj1 H) (conj (proj1 (proj2 H) 9%N 30%N eq_refl) (proj2 (proj2 H)))).
Defined.

(** At 67553994410557496, which is a double, the quotient by 60 is
    rounded up to the next integer, and the product and the sum that
    read the text back are rounded again. *)
Lemma round_trip_beyond_safe_integers :
  JS.roundToDouble 67553994410557496 = 67553994410557496%Z /\
  (67553994410557496 / 60 = 1125899906842624)%N /\
  Validators.minutesToTime 67553994410557496 = "1125899906842625:56" /\
  Validators.timeToMinutes (Validators.minutesToTime 67553994410557496)
  = JS.Int 67553994410557560 /\
  Validators.timeToMinutes (Validators.minutesToTime 67553994410557496)
  <> JS.Int 67553994410557496.
Proof.
  assert (E : Validators.timeToMinutes (Validators.minutesToTime 67553994410557496)
              = JS.Int 67553994410557560) by (vm_compute; reflexivity).
  repeat split; try (vm_compute; reflexivity).
  rewrite E. discriminate.
Qed.

(** ** Timeframes *)

Section Timeframes.
Import Validators.

Lemma normalizeTimeframe_matched tf m :
  firstMatch formats tf = Some m -> normalizeTimeframe tf = Return None.
Proof. intros H. unfold normalizeTimeframe. now rewrite H. Qed.

(** C2.  The specification has [9AM-5PM] normalised by the 12-hour format to
    the offsets 540 and 1020, and every text that a format matches
    normalised to its offsets.  In the code the 12-hour format does match
    [9AM-5PM] (as the other two formats match their samples), but
    [parseTimeMatch] is a placeholder that returns [null]: normalisation
    gives no offsets and validation reports a format error. *)
Theorem nine_to_five_is_not_normalized :
  format12 "9AM-5PM" = Some ["9AM-5PM"; "9"; "AM"; "5"; "PM"] /\
  normalizeTimeframe "9AM-5PM" = Return None /\
  validateTimeframe "9AM-5PM" = Return (Invalid msgFormatHelp) /\
  format24 "09:00-17:00" = Some ["09:00-17:00"; "09"; "00"; "17"; "00"] /\
  normalizeTimeframe "09:00-17:00" = Return None /\
  formatMixed "9:00 AM - 5:00 PM"
    = Some ["9:00 AM - 5:00 PM"; "9"; "00"; "AM"; "5"; "00"; "PM"] /\
  normalizeTimeframe "9:00 AM - 5:00 PM" = Return None.
Proof. repeat split; reflexivity. Qed.

Lemma assoc_In {A} key (v : A) l :
  assoc key l = Some v -> In (key, v) l.
Proof.
  induction l as [|[k x] r IH]; simpl; [discriminate|].
  destruct (String.eqb k key) eqn:E.
  - apply String.eqb_eq in E. intros [= ->]. subst. now left.
  - intros H. right. now apply IH.
Qed.


Lemma validateTimeframe_after_normalize tf n :
  normalizeTimeframe (trim tf) = Return (Some n) ->
  validateTimeframe tf = Return (checkNormalized n).
Proof.
  intros H. unfold validateTimeframe.
  destruct (String.eqb tf "") eqn:E.
  - apply String.eqb_eq in E. subst. discriminate H.
  - now rewrite H.
Qed.

Lemma normalizeTimeframe_some tf n :
  normalizeTimeframe tf = Return (Some n) ->
  exists start end_,
    In (toLowerCase tf, (start, end_)) presets /\
    n = mkNormalized (timeToMinutes start) (timeToMinutes end_) (start ++ " - " ++ end_).
Proof.
  unfold normalizeTimeframe.
  destruct (firstMatch formats tf); [discriminate|].
  unfold getPreset.
  destruct (assoc (toLowerCase tf) presets) as [[s e]|] eqn:E.
  - intros [= <-]. exists s, e. split; [now apply assoc_In | reflexivity].
  - destruct (includes objectPrototypeKeys (toLowerCase tf)); discriminate.
Qed.

Lemma validateTimeframe_valid tf n d :
  validateTimeframe tf = Return (Valid n d) ->
  normalizeTimeframe (trim tf) = Return (Some n) /\ checkNormalized n = Valid n d.
Proof.
  unfold validateTimeframe.
  destruct (String.eqb tf ""); [discriminate|].
  destruct (normalizeTimeframe (trim tf)) as [[n'|]|e]; simpl; try discriminate.
  intros [= H]. split.
  - f_equal. f_equal. unfold checkNormalized in H.
    repeat match type of H with (if ?c then _ else _) = _ => destruct c; try discriminate end.
    now injection H.
  - assert (n' = n).
    { unfold checkNormalized in H.
      repeat match type of H with (if ?c then _ else _) = _ => destruct c; try discriminate end.
      now injection H. }
    now subst.
Qed.



Lemma assoc_not_In {A} key (l : list (string * A)) :
  ~ In key (map fst l) -> assoc key l = None.
Proof.
  induction l as [|[k x] r IH]; simpl; [reflexivity|].
  intros H. destruct (String.eqb k key) eqn:E.
  - apply String.eqb_eq in E. tauto.
  - apply IH. tauto.
Qed.

Lemma includes_In l x : includes l x = true <-> In x l.
Proof.
  unfold includes. rewrite existsb_exists. split.
  - intros (y & Hy & E). apply String.eqb_eq in E. now subst.
  - intros H. exists x. split; [exact H | apply String.eqb_refl].
Qed.

Lemma lowerChar_idem c : lowerChar (lowerChar c) = lowerChar c.
Proof. destruct c as [[] [] [] [] [] [] [] []]; reflexivity. Qed.

Lemma toLowerCase_idem s : toLowerCase (toLowerCase s) = toLowerCase s.
Proof. induction s as [|c r IH]; simpl; [reflexivity|]. now rewrite lowerChar_idem, IH. Qed.

(** The only names of [Object.prototype] that a lower-cased text can be. *)
Lemma inherited_lower_case s :
  includes objectPrototypeKeys (toLowerCase s) = true ->
  toLowerCase s = "constructor" \/ toLowerCase s = "__proto__".
Proof.
  intros H. apply includes_In in H.
  pose proof (toLowerCase_idem s) as Hid.
  simpl in H.
  repeat (destruct H as [H|H];
          [first [ left; now symmetry | right; now symmetry
                 | rewrite <- H in Hid; discriminate Hid ]|]).
  contradiction.
Qed.

(** The presets: a timeframe that matches no format and whose lower-case
    form is a preset name normalises to the offsets of that preset. *)
Lemma normalizeTimeframe_presets (tf : string)
  (Hno : firstMatch formats tf = None) :
  (toLowerCase tf = "morning" ->
     normalizeTimeframe tf = Return (Some (mkNormalized (Int 540) (Int 720) "09:00 - 12:00"))) /\
  (toLowerCase tf = "afternoon" ->
     normalizeTimeframe tf = Return (Some (mkNormalized (Int 780) (Int 1020) "13:00 - 17:00"))) /\
  (toLowerCase tf = "evening" ->
     normalizeTimeframe tf = Return (Some (mkNormalized (Int 1080) (Int 1260) "18:00 - 21:00"))) /\
  (toLowerCase tf = "workday" \/ toLowerCase tf = "business hours" ->
     normalizeTimeframe tf = Return (Some (mkNormalized (Int 540) (Int 1020) "09:00 - 17:00"))).
Proof.
  unfold normalizeTimeframe. rewrite Hno.
  repeat split.
  1-3: intros ->; reflexivity.
  intros [-> | ->]; reflexivity.
Qed.

(** A timeframe that matches no format, is no preset and is not the name
    of an inherited property normalises to [null]. *)
Lemma normalizeTimeframe_null (tf : string) :
  firstMatch formats tf = None ->
  ~ In (toLowerCase tf) presetNames ->
  toLowerCase tf <> "constructor" ->
  toLowerCase tf <> "__proto__" ->
  normalizeTimeframe tf = Return None.
Proof.
  intros Hno Hp Hc Hpr. unfold normalizeTimeframe, getPreset.
  rewrite Hno, (assoc_not_In _ _ Hp).
  destruct (includes objectPrototypeKeys (toLowerCase tf)) eqn:E; [|reflexivity].
  apply inherited_lower_case in E. tauto.
Qed.

(** C7.  The presets normalise to their offsets (morning 540 to 720,
    afternoon 780 to 1020, evening 1080 to 1260, workday and business
    hours 540 to 1020), but a text that matches neither a format nor a
    preset does not always yield a format failure.  [constructor] and
    [__proto__] match no format and are no preset names, yet
    [presets[...]] finds the property that every object inherits, which is
    truthy and has no [start]: [normalizeTimeframe] throws a [TypeError]
    out of [timeToMinutes] where its documentation promises [null].  Only
    the [catch] of [validateTimeframe] turns the exception into the
    message of its handler.  Every other text that matches neither a
    format nor a preset normalises to [null], and validation then answers
    with the format help. *)
Theorem normalizeTimeframe_inherited_name_throws :
  (firstMatch formats "constructor" = None /\
   ~ In (toLowerCase "constructor") presetNames /\
   normalizeTimeframe "constructor"
   = Throw (TypeError "Cannot read properties of undefined (reading 'split')")) /\
  (firstMatch formats "__proto__" = None /\
   ~ In (toLowerCase "__proto__") presetNames /\
   normalizeTimeframe "__proto__"
   = Throw (TypeError "Cannot read properties of undefined (reading 'split')")) /\
  (forall tf, firstMatch formats tf = None ->
     toLowerCase tf = "constructor" \/ toLowerCase tf = "__proto__" ->
     normalizeTimeframe tf
     = Throw (TypeError "Cannot read properties of undefined (reading 'split')")) /\
  validateTimeframe "constructor" = Return (Invalid "Invalid timeframe format") /\
  validateTimeframe "__proto__" = Return (Invalid "Invalid timeframe format") /\
  (forall tf, firstMatch formats tf = None ->
     ~ In (toLowerCase tf) presetNames ->
     toLowerCase tf <> "constructor" ->
     toLowerCase tf <> "__proto__" ->
     normalizeTimeframe tf = Return None /\
     forall t, t <> "" -> trim t = tf ->
       validateTimeframe t = Return (Invalid msgFormatHelp)) /\
  (forall tf, firstMatch formats tf = None ->
     (toLowerCase tf = "morning" ->
        normalizeTimeframe tf
        = Return (Some (mkNormalized (Int 540) (Int 720) "09:00 - 12:00"))) /\
     (toLowerCase tf = "afternoon" ->
        normalizeTimeframe tf
        = Return (Some (mkNormalized (Int 780) (Int 1020) "13:00 - 17:00"))) /\
     (toLowerCase tf = "evening" ->
        normalizeTimeframe tf
        = Return (Some (mkNormalized (Int 1080) (Int 1260) "18:00 - 21:00"))) /\
     (toLowerCase tf = "workday" \/ toLowerCase tf = "business hours" ->
        normalizeTimeframe tf
        = Return (Some (mkNormalized (Int 540) (Int 1020) "09:00 - 17:00")))).
Proof.
  split; [repeat split; cbv; intuition discriminate|].
  split; [repeat split; cbv; intuition discriminate|].
  split.
  { intros tf Hno H. unfold normalizeTimeframe. rewrite Hno.
    destruct H as [-> | ->]; reflexivity. }
  split; [reflexivity|]. split; [reflexivity|].
  split; [|exact normalizeTimeframe_presets].
  intros tf Hno Hp Hc Hpr.
  pose proof (normalizeTimeframe_null tf Hno Hp Hc Hpr) as Hnull.
  split; [exact Hnull|].
  intros t Ht <-. unfold validateTimeframe.
  destruct (String.eqb t "") eqn:E; [apply String.eqb_eq in E; contradiction|].
  now rewrite Hnull.
Qed.

End Timeframes.

(** ** Task lists *)

Lemma validateEach_Ok i tasks :
  Validators.validateEach i tasks = Ok <->
  Forall (fun t => Validators.validateTask t = Ok) tasks.
Proof.
  revert i. induction tasks as [|t r IH]; intros i; simpl.
  - split; auto.
  - destruct (Validators.validateTask t) eqn:E.
    + rewrite IH. split; [intros H; now constructor | intros H; now inversion H].
    + split; [discriminate | intros H; inversion H; congruence].
Qed.

Lemma validateTasks_Ok tasks :
  Validators.validateTasks tasks = Ok <->
  (1 <= List.length tasks <= 20)%nat /\
  Forall (fun t => Validators.validateTask t = Ok) tasks.
Proof.
  unfold Validators.validateTasks.
  destruct (Nat.eqb (List.length tasks) 0) eqn:E0.
  - apply Nat.eqb_eq in E0. split; [discriminate | lia].
  - apply Nat.eqb_neq in E0.
    destruct (20 <? List.length tasks)%nat eqn:E20.
    + apply Nat.ltb_lt in E20. split; [discriminate | lia].
    + apply Nat.ltb_ge in E20. rewrite validateEach_Ok.
      split; [intros H; split; [lia | exact H] | tauto].
Qed.

Lemma validateInput_Ok {T} (input : Utils.Input T) :
  Utils.validateInput input = Ok <->
  Utils.truthy (Utils.error input) = false /\
  Utils.truthy (Utils.timeframe input) = true /\
  exists l, Utils.tasks input = Some l /\ (1 <= List.length l <= 15)%nat.
Proof.
  unfold Utils.validateInput.
  destruct (Utils.truthy (Utils.error input)); [split; [discriminate | intros [H _]; discriminate]|].
  destruct (Utils.truthy (Utils.timeframe input)); simpl;
    [|split; [discriminate | intros (_ & H & _); discriminate]].
  destruct (Utils.tasks input) as [l|]; simpl.
  - destruct (Nat.eqb (List.length l) 0) eqn:E0.
    + apply Nat.eqb_eq in E0. split; [discriminate|].
      intros (_ & _ & l' & [= <-] & H). lia.
    + apply Nat.eqb_neq in E0.
      destruct (15 <? List.length l)%nat eqn:E15.
      * apply Nat.ltb_lt in E15. split; [discriminate|].
        intros (_ & _ & l' & [= <-] & H). lia.
      * apply Nat.ltb_ge in E15. split; [|reflexivity].
        intros _. repeat split; auto. exists l. split; [reflexivity | lia].
  - split; [discriminate|]. intros (_ & _ & l' & H & _). discriminate.
Qed.

(** C9.  [validateTasks] accepts a task list exactly when it has from 1 to
    20 tasks and each of them is valid; the empty list is rejected with the
    at-least-one-task error and a list of more than 20 with the
    maximum-exceeded error.  [validateInput] of the compact variant accepts
    from 1 to 15 tasks and does not look at the tasks themselves; so a
    validated request carries from 1 to 20 tasks in both variants. *)
Theorem task_count_bounds :
  (forall tasks,
     Validators.validateTasks tasks = Ok <->
     (1 <= List.length tasks <= 20)%nat /\
     Forall (fun t => Validators.validateTask t = Ok) tasks) /\
  Validators.validateTasks [] = Rejected "At least one task is required" /\
  (forall tasks, (20 < List.length tasks)%nat ->
     Validators.validateTasks tasks = Rejected "Maximum 20 tasks allowed per schedule") /\
  (forall (T : Type) (input : Utils.Input T),
     Utils.validateInput input = Ok <->
     Utils.truthy (Utils.error input) = false /\
     Utils.truthy (Utils.timeframe input) = true /\
     exists l, Utils.tasks input = Some l /\ (1 <= List.length l <= 15)%nat) /\
  (forall (T : Type) (tf : string) (l : list T),
     Utils.truthy (Some tf) = true ->
     Utils.validateInput (Utils.mkInput None (Some tf) (Some l)) =
     if Nat.eqb (List.length l) 0 then Rejected "At least one task is required"
     else if (15 <? List.length l)%nat then Rejected "Maximum 15 tasks allowed per schedule"
     else Ok).
Proof.
  split; [exact validateTasks_Ok|].
  split; [reflexivity|].
  split.
  { intros tasks H. unfold Validators.validateTasks.
    destruct (Nat.eqb (List.length tasks) 0) eqn:E0.
    - apply Nat.eqb_eq in E0. lia.
    - apply Nat.ltb_lt in H. now rewrite H. }
  split; [intros T; exact validateInput_Ok|].
  intros T tf l Htf. unfold Utils.validateInput. simpl Utils.error. simpl Utils.timeframe.
  simpl Utils.tasks. rewrite Htf. simpl. reflexivity.
Qed.

Lemma task_count_bounds_witness :
  Validators.validateTasks (List.repeat (plainTask "Write report") 21)
    = Rejected "Maximum 20 tasks allowed per schedule" /\
  Utils.validateInput
    (Utils.mkInput None (Some "morning") (Some (List.repeat (plainTask "Write report") 16)))
    = Rejected "Maximum 15 tasks allowed per schedule".
Proof.
  destruct task_count_bounds as (_ & _ & H20 & _ & H15).
  split.
  - apply H20. simpl. lia.
  - exact (H15 _ "morning" (List.repeat (plainTask "Write report") 16) eq_refl).
Defined.

Lemma sixteen_tasks_rejected :
  Validators.validateTasks (List.repeat (plainTask "Write report") 16) = Ok /\
  (1 <= List.length (List.repeat (plainTask "Write report") 16) <= 20)%nat /\
  Utils.validateInput
    (Utils.mkInput None (Some "morning") (Some (List.repeat (plainTask "Write report") 16)))
    = Rejected "Maximum 15 tasks allowed per schedule".
Proof. repeat split; try reflexivity; simpl; lia. Qed.

(** ** The retrying clients *)

Lemma callNIM_unfold maxRetries backend attempt net :
  NimService.callNIM maxRetries backend attempt net =
  match backend (calls net) with
  | Fulfilled content => (Return content, posted net)
  | Failed error =>
      if (attempt <=? maxRetries)%Z && NimService.isRetryableError error then
        NimService.callNIM maxRetries backend (attempt + 1)
          (delayed (1000 * attempt) (posted net))
      else (Throw error, posted net)
  end.
Proof.
  rewrite NimService.callNIM_equation_1.
  destruct (backend (calls net)) as [content|error]; simpl; [reflexivity|].
  destruct ((attempt <=? maxRetries)%Z && NimService.isRetryableError error); reflexivity.
Qed.

Lemma makeRequest_unfold maxRetries backend retryCount net :
  Services.makeRequest maxRetries backend retryCount net =
  match backend (calls net) with
  | Fulfilled response => (Return response, posted net)
  | Failed error =>
      if (retryCount <? maxRetries)%Z && Services.isRetryableError error then
        Services.makeRequest maxRetries backend (retryCount + 1)
          (delayed (2 ^ retryCount * 1000) (posted net))
      else (Throw error, posted net)
  end.
Proof.
  rewrite Services.makeRequest_equation_1.
  destruct (backend (calls net)) as [content|error]; simpl; [reflexivity|].
  destruct ((retryCount <? maxRetries)%Z && Services.isRetryableError error); reflexivity.
Qed.

Lemma makeRequest_retries maxRetries backend content n :
  forall retryCount net,
    (0 <= retryCount)%Z ->
    (retryCount + Z.of_nat n <= maxRetries)%Z ->
    (forall k, (k < n)%nat ->
       failsRetryably Services.isRetryableError backend (calls net + k)) ->
    backend (calls net + n)%nat = Fulfilled content ->
    Services.makeRequest maxRetries backend retryCount net =
    (Return content,
     mkNet (calls net + S n)
           (events net ++ Post :: retries exponential (retryCount + 1) n)%list).
Proof.
  induction n as [|n IH]; intros retryCount net H0 Hmax Hfail Hok.
  - rewrite makeRequest_unfold. rewrite Nat.add_0_r in Hok. rewrite Hok.
    unfold posted. simpl. now rewrite Nat.add_1_r.
  - rewrite makeRequest_unfold.
    destruct (Hfail 0%nat ltac:(lia)) as (e & He & Hr).
    rewrite Nat.add_0_r in He. rewrite He, Hr.
    replace (retryCount <? maxRetries)%Z with true by (symmetry; apply Z.ltb_lt; lia).
    simpl andb. cbv iota.
    rewrite (IH (retryCount + 1)%Z (delayed (2 ^ retryCount * 1000) (posted net))).
    + simpl. f_equal. f_equal; [lia|].
      rewrite <- !app_assoc. simpl. unfold exponential.
      replace (retryCount + 1 - 1)%Z with retryCount by lia.
      now rewrite Z.mul_comm.
    + lia.
    + lia.
    + intros k Hk. simpl. replace (S (calls net + k)) with (calls net + S k)%nat by lia.
      apply Hfail. lia.
    + simpl. now replace (S (calls net + n)) with (calls net + S n)%nat by lia.
Qed.

Lemma callNIM_retries maxRetries backend content n :
  forall attempt net,
    (attempt + Z.of_nat n <= maxRetries + 1)%Z ->
    (forall k, (k < n)%nat ->
       failsRetryably NimService.isRetryableError backend (calls net + k)) ->
    backend (calls net + n)%nat = Fulfilled content ->
    NimService.callNIM maxRetries backend attempt net =
    (Return content,
     mkNet (calls net + S n)
           (events net ++ Post :: retries progressive attempt n)%list).
Proof.
  induction n as [|n IH]; intros attempt net Hmax Hfail Hok.
  - rewrite callNIM_unfold. rewrite Nat.add_0_r in Hok. rewrite Hok.
    unfold posted. simpl. now rewrite Nat.add_1_r.
  - rewrite callNIM_unfold.
    destruct (Hfail 0%nat ltac:(lia)) as (e & He & Hr).
    rewrite Nat.add_0_r in He. rewrite He, Hr.
    replace (attempt <=? maxRetries)%Z with true by (symmetry; apply Z.leb_le; lia).
    simpl andb. cbv iota.
    rewrite (IH (attempt + 1)%Z (delayed (1000 * attempt) (posted net))).
    + simpl. f_equal. f_equal; [lia|].
      rewrite <- !app_assoc. reflexivity.
    + lia.
    + intros k Hk. simpl. replace (S (calls net + k)) with (calls net + S k)%nat by lia.
      apply Hfail. lia.
    + simpl. now replace (S (calls net + n)) with (calls net + S n)%nat by lia.
Qed.

(** C3.  When the first [n] calls fail with retryable errors, [n] is within the
    retry budget and the next call succeeds, the client makes [n + 1]
    calls.  In [makeRequest] the delay before the k-th retry is
    [1000 * 2^(k-1)]; in [callNIM] it is [1000 * k].  After two failures
    both make three calls, the second after 1000 ms and the third after
    2000 ms. *)
Theorem retry_delays (maxRetries : Z) (backend : nat -> Reply) (content : string) (n : nat)
  (Hbudget : (Z.of_nat n <= maxRetries)%Z)
  (Hok : backend n = Fulfilled content) :
  ((forall k, (k < n)%nat -> failsRetryably Services.isRetryableError backend k) ->
   Services.makeRequest maxRetries backend 0 start =
   (Return content, mkNet (S n) (schedule exponential n))) /\
  ((forall k, (k < n)%nat -> failsRetryably NimService.isRetryableError backend k) ->
   NimService.callNIM maxRetries backend 1 start =
   (Return content, mkNet (S n) (schedule progressive n))) /\
  schedule exponential 2 = [Post; Delay 1000; Post; Delay 2000; Post] /\
  schedule progressive 2 = [Post; Delay 1000; Post; Delay 2000; Post].
Proof.
  split; [|split; [|split; reflexivity]].
  - intros Hfail.
    rewrite (makeRequest_retries maxRetries backend content n 0%Z start); auto; lia.
  - intros Hfail.
    rewrite (callNIM_retries maxRetries backend content n 1%Z start); auto; lia.
Qed.

Lemma retry_delays_witness :
  Services.makeRequest 2 (failing 2) 0 start =
    (Return "{}", mkNet 3 [Post; Delay 1000; Post; Delay 2000; Post]) /\
  NimService.callNIM 2 (failing 2) 1 start =
    (Return "{}", mkNet 3 [Post; Delay 1000; Post; Delay 2000; Post]).
Proof.
  destruct (retry_delays 2 (failing 2) "{}" 2 ltac:(lia) eq_refl) as (H1 & H2 & _).
  split.
  - apply H1. intros k Hk. exists serverError.
    destruct k as [|[|k]]; [split; reflexivity | split; reflexivity | lia].
  - apply H2. intros k Hk. exists serverError.
    destruct k as [|[|k]]; [split; reflexivity | split; reflexivity | lia].
Defined.

Lemma third_retry_is_not_exponential :
  NimService.callNIM 3 (failing 3) 1 start =
    (Return "{}", mkNet 4 [Post; Delay 1000; Post; Delay 2000; Post; Delay 3000; Post]) /\
  schedule exponential 3 =
    [Post; Delay 1000; Post; Delay 2000; Post; Delay 4000; Post] /\
  events (snd (NimService.callNIM 3 (failing 3) 1 start)) <> schedule exponential 3.
Proof.
  assert (H : NimService.callNIM 3 (failing 3) 1 start =
    (Return "{}", mkNet 4 [Post; Delay 1000; Post; Delay 2000; Post; Delay 3000; Post])).
  { rewrite (callNIM_retries 3 (failing 3) "{}" 3 1%Z start); try reflexivity; try lia.
    intros k Hk. exists serverError.
    destruct k as [|[|[|k]]]; try (split; reflexivity). lia. }
  split; [exact H|]. split; [reflexivity|].
  rewrite H. discriminate.
Qed.

Lemma simple_retryable_iff e :
  NimService.isRetryableError e = true <->
  exists code status msg,
    e = HttpError code status msg /\
    (code = Some "ECONNABORTED" \/
     exists st, status = Some st /\ (500 <= st \/ st = 429)%Z).
Proof.
  destruct e as [m|m|m|code status m]; simpl;
    try (split; [discriminate | intros (c & s & x & H & _); discriminate]).
  split.
  - intros H. exists code, status, m. split; [reflexivity|].
    destruct code as [c|]; simpl in H.
    + destruct (String.eqb c "ECONNABORTED") eqn:E.
      * apply String.eqb_eq in E. subst. now left.
      * right. destruct status as [st|]; [|discriminate].
        exists st. split; [reflexivity|].
        destruct (500 <=? st)%Z eqn:E5; [left; now apply Z.leb_le|].
        destruct (st =? 429)%Z eqn:E4; [right; now apply Z.eqb_eq | discriminate].
    + right. destruct status as [st|]; [|discriminate].
      exists st. split; [reflexivity|].
      destruct (500 <=? st)%Z eqn:E5; [left; now apply Z.leb_le|].
      destruct (st =? 429)%Z eqn:E4; [right; now apply Z.eqb_eq | discriminate].
  - intros (c & s & x & [= -> -> ->] & [-> | (st & -> & H)]); [reflexivity|].
    destruct (codeIs c "ECONNABORTED"); [reflexivity|].
    destruct H as [H | ->].
    + apply Z.leb_le in H. now rewrite H.
    + reflexivity.
Qed.

Lemma services_retryable_iff e :
  Services.isRetryableError e = true <->
  exists code status msg,
    e = HttpError code status msg /\
    ((exists st, status = Some st /\ In st [408; 429; 500; 502; 503; 504]%Z) \/
     code = Some "ECONNRESET").
Proof.
  destruct e as [m|m|m|code status m]; unfold Services.isRetryableError;
    try (split; [discriminate | intros (c & s & x & H & _); discriminate]).
  split.
  - intros H. exists code, status, m. split; [reflexivity|].
    apply orb_prop in H. destruct H as [H|H].
    + left. destruct status as [st|]; [|discriminate].
      exists st. split; [reflexivity|].
      apply existsb_exists in H. destruct H as (x & Hin & Hx).
      apply Z.eqb_eq in Hx. now subst.
    + right. destruct code as [c|]; [|discriminate].
      unfold codeIs in H. apply String.eqb_eq in H. now subst.
  - intros (c & s & x & [= -> -> ->] & [(st & -> & H) | ->]).
    + apply orb_true_intro. left. apply existsb_exists. exists st.
      split; [exact H | apply Z.eqb_refl].
    + apply orb_true_intro. right. reflexivity.
Qed.

(** C4.  [isRetryableError] of the compact client accepts exactly a timeout
    ([ECONNABORTED]), a status of 500 or more, and status 429; that of the
    layered client accepts exactly the statuses 408, 429, 500, 502, 503,
    504 and a connection reset ([ECONNRESET]).  In both clients any other
    error ends the call at once: the error is thrown after that one call,
    with no delay and no further attempt. *)
Theorem retryable_classification :
  (forall e,
     NimService.isRetryableError e = true <->
     exists code status msg,
       e = HttpError code status msg /\
       (code = Some "ECONNABORTED" \/
        exists st, status = Some st /\ (500 <= st \/ st = 429)%Z)) /\
  (forall e,
     Services.isRetryableError e = true <->
     exists code status msg,
       e = HttpError code status msg /\
       ((exists st, status = Some st /\ In st [408; 429; 500; 502; 503; 504]%Z) \/
        code = Some "ECONNRESET")) /\
  (forall maxRetries backend attempt net e,
     backend (calls net) = Failed e ->
     NimService.isRetryableError e = false ->
     NimService.callNIM maxRetries backend attempt net = (Throw e, posted net)) /\
  (forall maxRetries backend retryCount net e,
     backend (calls net) = Failed e ->
     Services.isRetryableError e = false ->
     Services.makeRequest maxRetries backend retryCount net = (Throw e, posted net)).
Proof.
  split; [exact simple_retryable_iff|].
  split; [exact services_retryable_iff|].
  split.
  - intros mr b a net e He Hr. rewrite callNIM_unfold, He, Hr.
    now rewrite andb_false_r.
  - intros mr b a net e He Hr. rewrite makeRequest_unfold, He, Hr.
    now rewrite andb_false_r.
Qed.

Lemma retryable_classification_witness :
  NimService.callNIM 2 (fun _ => Failed unauthorized) 1 start
    = (Throw unauthorized, mkNet 1 [Post]) /\
  Services.makeRequest 3 (fun _ => Failed unauthorized) 0 start
    = (Throw unauthorized, mkNet 1 [Post]).
Proof.
  destruct retryable_classification as (_ & _ & H1 & H2).
  split.
  - exact (H1 2%Z (fun _ => Failed unauthorized) 1%Z start unauthorized eq_refl eq_refl).
  - exact (H2 3%Z (fun _ => Failed unauthorized) 0%Z start unauthorized eq_refl eq_refl).
Defined.

Lemma classification_differs :
  NimService.isRetryableError (HttpError None (Some 408%Z) "Request Timeout") = false /\
  NimService.isRetryableError (HttpError (Some "ECONNRESET") None "socket hang up") = false /\
  NimService.isRetryableError (HttpError None (Some 600%Z) "") = true /\
  Services.isRetryableError (HttpError None (Some 501%Z) "Not Implemented") = false /\
  Services.isRetryableError (HttpError (Some "ECONNABORTED") None "timeout of 30000ms exceeded") = false.
Proof. repeat split. Qed.

(** ** Reply validation *)

Lemma get_field v key :
  v <> JNull -> get v key = Return (field v key).
Proof. destruct v; simpl; congruence. Qed.

Lemma field_null key : field JNull key = None.
Proof. reflexivity. Qed.

Lemma checkItem_complete index item :
  itemComplete item = true -> NimService.checkItem index item = Return tt.
Proof.
  unfold itemComplete, NimService.checkItem. intros H.
  andb_split H as H H3.
  andb_split H as H1 H2.
  assert (Hn : item <> JNull) by (intros ->; discriminate H1).
  rewrite !(get_field item _ Hn). simpl. rewrite H1. simpl. rewrite H2. simpl.
  now rewrite H3.
Qed.

Lemma checkItem_incomplete index item :
  itemComplete item = false -> isThrow (NimService.checkItem index item).
Proof.
  unfold itemComplete, NimService.checkItem. intros H.
  destruct item; try exact I; simpl in *;
    try (destruct (truthy (getOwn (units "task") fields)); simpl; [|exact I];
         destruct (truthy (getOwn (units "start_time") fields)); simpl; [|exact I];
         destruct (truthy (getOwn (units "end_time") fields)); simpl; [discriminate | exact I]).
Qed.

Lemma forEachItem_complete items :
  forall index, forallb itemComplete items = true ->
  NimService.forEachItem index items = Return tt.
Proof.
  induction items as [|item r IH]; intros index H; simpl; [reflexivity|].
  simpl in H. andb_split H as H1 H2.
  rewrite (checkItem_complete index item H1). simpl. now apply IH.
Qed.

Lemma forEachItem_incomplete items :
  forall index, forallb itemComplete items = false ->
  isThrow (NimService.forEachItem index items).
Proof.
  induction items as [|item r IH]; intros index H; simpl in *; [discriminate|].
  destruct (itemComplete item) eqn:E.
  - rewrite (checkItem_complete index item E). simpl. now apply IH.
  - pose proof (checkItem_incomplete index item E) as Ht.
    destruct (NimService.checkItem index item); [contradiction | exact I].
Qed.

Lemma parseScheduleResponse_spec response :
  NimService.parseScheduleResponse response =
  match parse (clean response) with
  | Return v =>
      Return (if wellShaped v then v else NimService.createFallbackSchedule response)
  | Throw _ => Return (NimService.createFallbackSchedule response)
  end.
Proof.
  unfold NimService.parseScheduleResponse. fold (clean response).
  destruct (parse (clean response)) as [v|e]; simpl; [|reflexivity].
  unfold wellShaped, hasScheduleArray.
  destruct v; try reflexivity. simpl.
  destruct (getOwn (units "schedule") fields) as [[|b|m e|s|items|fields']|] eqn:E;
    simpl; rewrite ?orb_true_r; try reflexivity.
  destruct (forallb itemComplete items) eqn:F.
  - now rewrite (forEachItem_complete items 0 F).
  - pose proof (forEachItem_incomplete items 0 F) as Ht.
    destruct (NimService.forEachItem 0 items); [contradiction | reflexivity].
Qed.

Lemma validateScheduleResponse_spec v :
  (hasScheduleArray v = true -> Services.validateScheduleResponse v = Return v) /\
  (hasScheduleArray v = false -> isThrow (Services.validateScheduleResponse v)) /\
  (hasScheduleArray v = false -> v <> JNull ->
   Services.validateScheduleResponse v =
   Throw (Error "Invalid schedule format received from NIM")).
Proof.
  unfold hasScheduleArray, Services.validateScheduleResponse.
  destruct v; simpl; try (repeat split; intros; try discriminate; try exact I; congruence).
  destruct (getOwn (units "schedule") fields) as [[|b|m e|s|items|fields']|];
    simpl; rewrite ?orb_true_r; repeat split; intros; try discriminate; try exact I;
    reflexivity.
Qed.

Lemma parseScheduleResponse_fallback response :
  lacksSchedule (parse (clean response)) ->
  NimService.parseScheduleResponse response =
  Return (NimService.createFallbackSchedule response).
Proof.
  intros H. rewrite parseScheduleResponse_spec.
  destruct (parse (clean response)) as [v|e]; [|reflexivity].
  simpl in H. unfold wellShaped. now rewrite H.
Qed.

(** C1.  When the cleaned reply is not JSON, or its value has no schedule
    array, the result is the fallback schedule: its summary counts one
    task, it has exactly one item, and its diagnostic text is not empty.
    The item always runs from 09:00 to 17:00 (offsets 540 and 1020, 480
    minutes), whatever window was requested. *)
Theorem fallback_schedule (response : string)
  (Hbad : lacksSchedule (parse (clean response))) :
  NimService.parseScheduleResponse response
    = Return (NimService.createFallbackSchedule response) /\
  (forall maxRetries backend (T : Type) timeframe (tasks : list T),
     backend 0%nat = Fulfilled response ->
     NimService.generateSchedule maxRetries backend timeframe tasks start
       = (Return (NimService.createFallbackSchedule response), mkNet 1 [Post])) /\
  (exists summary,
     field (NimService.createFallbackSchedule response) "summary" = Some summary /\
     field summary "total_tasks" = Some (NimService.num 1) /\
     field summary "total_duration" = Some (NimService.num 480)) /\
  (exists item,
     field (NimService.createFallbackSchedule response) "schedule" = Some (JArray [item]) /\
     field item "start_time" = Some (NimService.str "09:00") /\
     field item "end_time" = Some (NimService.str "17:00") /\
     field item "duration" = Some (NimService.num 480)) /\
  Validators.timeToMinutes "09:00" = Int 540 /\
  Validators.timeToMinutes "17:00" = Int 1020 /\
  (exists s,
     field (NimService.createFallbackSchedule response) "error" = Some (JString s) /\
     s <> []).
Proof.
  split; [now apply parseScheduleResponse_fallback|].
  split.
  { intros maxRetries backend T timeframe tasks Hb.
    unfold NimService.generateSchedule. rewrite callNIM_unfold.
    change (calls start) with 0%nat. rewrite Hb. simpl bind.
    rewrite (parseScheduleResponse_fallback response Hbad). reflexivity. }
  split; [eexists; repeat split; reflexivity|].
  split; [eexists; repeat split; reflexivity|].
  split; [reflexivity|]. split; [reflexivity|].
  eexists. split; [reflexivity | discriminate].
Qed.

Lemma fallback_schedule_witness :
  NimService.parseScheduleResponse "not json"
    = Return (NimService.createFallbackSchedule "not json") /\
  NimService.generateSchedule 2 (fun _ => Fulfilled "not json") "evening" [reviewCode] start
    = (Return (NimService.createFallbackSchedule "not json"), mkNet 1 [Post]).
Proof.
  destruct (fallback_schedule "not json" I) as (H1 & H2 & _).
  split; [exact H1|].
  exact (H2 2%Z (fun _ => Fulfilled "not json") _ "evening" [reviewCode] eq_refl).
Defined.

Lemma fallback_ignores_window :
  Validators.validateTimeframe "morning"
    = Return (Validators.Valid
                (Validators.mkNormalized (Int 540) (Int 720) "09:00 - 12:00") (Int 180)) /\
  lacksSchedule (parse (clean "not json")) /\
  NimService.generateSchedule 2 (fun _ => Fulfilled "not json") "morning" [reviewCode] start
    = (Return (NimService.createFallbackSchedule "not json"), mkNet 1 [Post]) /\
  (exists item,
     field (NimService.createFallbackSchedule "not json") "schedule" = Some (JArray [item]) /\
     field item "start_time" = Some (NimService.str "09:00") /\
     field item "end_time" = Some (NimService.str "17:00")) /\
  Validators.timeToMinutes "17:00"
    <> Validators.endTime (Validators.mkNormalized (Int 540) (Int 720) "09:00 - 12:00").
Proof.
  split; [reflexivity|]. split; [exact I|]. split; [reflexivity|].
  split; [eexists; repeat split; reflexivity|]. discriminate.
Qed.

(** C5.  [parseScheduleResponse] never throws: when the cleaned reply is not
    JSON, has no schedule array, or has an item without a task label, a
    start time or an end time, it returns the fallback schedule, and
    otherwise the parsed value.  [validateScheduleResponse] of the layered
    variant returns a value with a schedule array unchanged, without
    looking at the items, and throws for any other value;
    [generateSchedule] there passes that failure, and a reply that is not
    JSON, on to its caller. *)
Theorem response_validation :
  (forall response, exists v, NimService.parseScheduleResponse response = Return v) /\
  (forall response,
     NimService.parseScheduleResponse response =
     match parse (clean response) with
     | Return v =>
         Return (if wellShaped v then v else NimService.createFallbackSchedule response)
     | Throw _ => Return (NimService.createFallbackSchedule response)
     end) /\
  (forall v, hasScheduleArray v = true -> Services.validateScheduleResponse v = Return v) /\
  (forall v, hasScheduleArray v = false -> isThrow (Services.validateScheduleResponse v)) /\
  (forall maxRetries backend (T : Type) timeframe (tasks : list T) content,
     backend 0%nat = Fulfilled content ->
     lacksSchedule (parse content) ->
     exists msg,
       Services.generateSchedule maxRetries backend timeframe tasks start
       = (Throw (Error ("Schedule generation failed: " ++ msg)), mkNet 1 [Post])).
Proof.
  split.
  { intros response. rewrite parseScheduleResponse_spec.
    destruct (parse (clean response)); eauto. }
  split; [exact parseScheduleResponse_spec|].
  split; [intros v; exact (proj1 (validateScheduleResponse_spec v))|].
  split; [intros v; exact (proj1 (proj2 (validateScheduleResponse_spec v)))|].
  intros maxRetries backend T timeframe tasks content Hb Hbad.
  unfold Services.generateSchedule. rewrite makeRequest_unfold.
  change (calls start) with 0%nat. rewrite Hb. simpl bind.
  destruct (parse content) as [v|e]; simpl in *.
  - pose proof (proj1 (proj2 (validateScheduleResponse_spec v)) Hbad) as Ht.
    destruct (Services.validateScheduleResponse v) as [x|e]; [contradiction|].
    simpl. eauto.
  - eauto.
Qed.

Lemma response_validation_witness :
  isThrow (Services.validateScheduleResponse (JObject [])) /\
  exists msg,
    Services.generateSchedule 3 (fun _ => Fulfilled "not json") "morning" [reviewCode] start
    = (Throw (Error ("Schedule generation failed: " ++ msg)), mkNet 1 [Post]).
Proof.
  destruct response_validation as (_ & _ & _ & H4 & H5).
  split.
  - apply H4. reflexivity.
  - apply (H5 3%Z (fun _ => Fulfilled "not json") _ "morning" [reviewCode] "not json");
      [reflexivity | exact I].
Defined.

Lemma layered_validator_raises :
  parse "{}" = Return (JObject []) /\
  Services.validateScheduleResponse (JObject [])
    = Throw (Error "Invalid schedule format received from NIM") /\
  Services.generateSchedule 3 (fun _ => Fulfilled "{}") "morning" [reviewCode] start
    = (Throw (Error "Schedule generation failed: Invalid schedule format received from NIM"),
       mkNet 1 [Post]).
Proof. repeat split. Qed.

(** ** Command parsing *)

Section Commands.
Import Validators.

Lemma matchParts_cons c r :
  matchParts (String c r) =
  if Ascii.eqb c dquote then
    match dropRun r with
    | String _ rest => String dquote (takeRun r ++ String dquote "") :: matchParts rest
    | "" => matchParts r
    end
  else String c (takeRun r) :: matchParts (dropRun r).
Proof.
  rewrite matchParts_equation_2.
  destruct (Ascii.eqb c dquote); simpl; [|reflexivity].
  unfold inspect. destruct (dropRun r); reflexivity.
Qed.

Lemma takeRun_noQuote a t :
  noQuote a = true ->
  (t = "" \/ exists u, t = String dquote u) ->
  takeRun (a ++ t) = a /\ dropRun (a ++ t) = t.
Proof.
  intros Ha Ht. induction a as [|c r IH]; simpl.
  - destruct Ht as [-> | (u & ->)]; simpl; auto.
  - simpl in Ha. andb_split Ha as Hc Hr.
    not_quote Hc. rewrite Hc.
    destruct (IH Hr) as [-> ->]. auto.
Qed.

Lemma endsWith_app c a : endsWith c (a ++ String c "") = true.
Proof.
  induction a as [|x r IH]; simpl; [apply Ascii.eqb_refl|].
  destruct (r ++ String c "") eqn:E; [destruct r; discriminate | exact IH].
Qed.

Lemma isQuotedPart_quoted b : isQuotedPart (quoted b) = true.
Proof.
  unfold isQuotedPart, quoted. simpl.
  destruct (b ++ String dquote "") eqn:E; [destruct b; discriminate|].
  rewrite <- E. apply endsWith_app.
Qed.

Lemma isQuotedPart_run c r :
  Ascii.eqb c dquote = false -> isQuotedPart (String c r) = false.
Proof. intros H. unfold isQuotedPart. simpl. now rewrite H. Qed.

Lemma boundary_render_quoted b segs :
  exists u, quoted b ++ render segs = String dquote u.
Proof. eexists. reflexivity. Qed.

(** The quoted parts of a well-formed text are its quoted segments. *)
Lemma quoted_parts segs :
  Forall wellFormed segs ->
  forall pre, noQuote pre = true ->
  filter isQuotedPart (matchParts (pre ++ render segs)) = map quoted (bodies segs).
Proof.
  induction 1 as [|g segs Hg Hwf IH]; intros pre Hpre.
  - simpl. rewrite append_nil_r. destruct pre as [|c r]; [reflexivity|].
    rewrite matchParts_cons.
    simpl in Hpre. andb_split Hpre as Hc Hr.
    not_quote Hc. rewrite Hc.
    destruct (takeRun_noQuote r "" Hr (or_introl eq_refl)) as [H1 H2].
    rewrite append_nil_r in H1, H2. rewrite H1, H2.
    simpl. unfold isQuotedPart. simpl. now rewrite Hc.
  - destruct g as [s|b].
    + simpl in Hg |- *.
      destruct Hg as [_ Hs]. rewrite <- append_assoc. apply IH.
      unfold noQuote in *. rewrite allChars_app. now rewrite Hpre, Hs.
    + cbn [wellFormed] in Hg.
      change (render (Quoted b :: segs)) with (quoted b ++ render segs).
      cbn [bodies map].
      assert (Hhead :
        filter isQuotedPart (matchParts (quoted b ++ render segs))
        = quoted b :: map quoted (bodies segs)).
      { unfold quoted at 1. simpl. rewrite matchParts_cons. simpl.
        rewrite append_assoc. simpl.
        destruct (takeRun_noQuote b (String dquote (render segs)) Hg
                    (or_intror (ex_intro _ _ eq_refl))) as [H1 H2].
        rewrite H1, H2. simpl.
        fold (quoted b). rewrite isQuotedPart_quoted.
        f_equal. exact (IH "" eq_refl). }
      destruct pre as [|c r]; [exact Hhead|].
      simpl in Hpre. andb_split Hpre as Hc Hr.
      not_quote Hc.
      pose proof (takeRun_noQuote r (quoted b ++ render segs) Hr
                    (or_intror (boundary_render_quoted b segs))) as [H1 H2].
      set (rest := quoted b ++ render segs) in *.
      change (String c r ++ rest) with (String c (r ++ rest)).
      rewrite matchParts_cons, Hc, H1, H2.
      cbn [filter]. rewrite (isQuotedPart_run c r Hc). exact Hhead.
Qed.

Lemma dropLast_app b c : dropLast (b ++ String c "") = b.
Proof.
  induction b as [|x r IH]; simpl; [reflexivity|].
  destruct (r ++ String c "") eqn:E; [destruct r; discriminate|].
  now rewrite IH.
Qed.

Lemma slice_quoted b : slice_1_m1 (quoted b) = b.
Proof. unfold quoted. simpl. apply dropLast_app. Qed.

Lemma mapTasks_quoted w bs : forall k,
  mapTasks w k (map quoted bs) = parseAll w k bs.
Proof.
  induction bs as [|b r IH]; intros k; cbn [map mapTasks parseAll]; [reflexivity|].
  now rewrite slice_quoted, IH.
Qed.

Lemma parseTask_total e s : exists t, parseTask e s = Some t.
Proof.
  unfold parseTask. destruct (taskMatch s) as [[g1 g2]|]; [|eauto].
  destruct (fold_left applyParam _ _) as [[p t] pt]. eauto.
Qed.

Lemma notNull_parseAll w bs : forall k,
  map Some (notNull (parseAll w k bs)) = parseAll w k bs.
Proof.
  induction bs as [|b r IH]; intros k; simpl; [reflexivity|].
  destruct (parseTask_total (w k) b) as [t ->]. simpl. now rewrite IH.
Qed.

Lemma parseAll_length w bs : forall k, List.length (parseAll w k bs) = List.length bs.
Proof. induction bs; intros k; simpl; auto. Qed.

Lemma trimEnd_nonspace c r : isSpace c = false -> trimEnd (String c r) <> "".
Proof. intros H. simpl. destruct (trimEnd r); [rewrite H|]; discriminate. Qed.

Lemma trim_empty_spaces s : trim s = "" -> allChars isSpace s = true.
Proof.
  unfold trim. induction s as [|c r IH]; simpl; [reflexivity|].
  destruct (isSpace c) eqn:E; [exact IH|].
  intros H. exfalso. revert H. now apply trimEnd_nonspace.
Qed.

Lemma spaces_no_bodies segs :
  allChars isSpace (render segs) = true -> bodies segs = [].
Proof.
  induction segs as [|[s|b] r IH]; simpl; [reflexivity | |discriminate].
  rewrite allChars_app. intros H. apply andb_prop in H. now apply IH.
Qed.

Lemma parseScheduleCommand_quoted w tf segs :
  tf <> "" -> noQuote tf = true -> Forall wellFormed segs ->
  map Some (tasks (parseScheduleCommand w (tf ++ render segs)))
  = parseAll w 0 (bodies segs).
Proof.
  intros Hne Htf Hwf. unfold parseScheduleCommand.
  destruct tf as [|c r]; [congruence|].
  change (String c r ++ render segs) with (String c (r ++ render segs)).
  cbn [String.eqb orb].
  destruct (String.eqb (trim (String c (r ++ render segs))) "") eqn:E.
  - apply String.eqb_eq, trim_empty_spaces in E.
    change (String c (r ++ render segs)) with (String c r ++ render segs) in E.
    rewrite allChars_app in E. andb_split E as _ E.
    now rewrite (spaces_no_bodies segs E).
  - pose proof (quoted_parts segs Hwf (String c r) Htf) as Hq.
    change (String c r ++ render segs) with (String c (r ++ render segs)) in Hq.
    simpl in Htf. andb_split Htf as Hc _.
    not_quote Hc.
    rewrite matchParts_cons, Hc in Hq |- *.
    cbn [filter] in Hq. rewrite (isQuotedPart_run c _ Hc) in Hq.
    cbn [tasks]. fold isQuotedPart.
    change (fun part : string => startsWith dquote part && endsWith dquote part)
      with isQuotedPart.
    rewrite Hq, mapTasks_quoted. apply notNull_parseAll.
Qed.

(** The task pattern. *)

Lemma closeBody_sound u b : closeBody u = Some b -> u = b ++ ")".
Proof.
  revert b. induction u as [|c r IH]; intros b; simpl; [discriminate|].
  destruct (Ascii.eqb c ")") eqn:E.
  - apply Ascii.eqb_eq in E. subst. destruct r; [|discriminate].
    now intros [= <-].
  - destruct (closeBody r) as [b'|]; [|discriminate].
    simpl. intros [= <-]. simpl. f_equal. now apply IH.
Qed.

Lemma trimStart_suffix s : exists ws, s = ws ++ trimStart s.
Proof.
  induction s as [|c r [ws IH]]; simpl; [now exists ""|].
  destruct (isSpace c); [|now exists ""].
  exists (String c ws). simpl. now f_equal.
Qed.

Lemma paramTail_sound s p :
  paramTail s = Some p -> exists ws, s = ws ++ "(" ++ p ++ ")".
Proof.
  unfold paramTail. destruct (trimStart_suffix s) as [ws Hws].
  destruct (trimStart s) as [|c u] eqn:E; [discriminate|].
  destruct c as [[] [] [] [] [] [] [] []]; try discriminate.
  destruct (closeBody u) as [[|x b]|] eqn:Eb; try discriminate.
  intros [= <-]. exists ws. rewrite Hws at 1.
  apply closeBody_sound in Eb. now rewrite Eb.
Qed.

Lemma taskMatch_sound s d p :
  taskMatch s = Some (d, p) -> exists ws, s = d ++ ws ++ "(" ++ p ++ ")".
Proof.
  revert d. induction s as [|c r IH]; intros d; simpl; [discriminate|].
  destruct (isLineTerminator c); [discriminate|].
  destruct (paramTail r) as [p'|] eqn:E.
  - intros [= <- <-]. destruct (paramTail_sound r p' E) as [ws ->].
    exists ws. reflexivity.
  - destruct (taskMatch r) as [[d' p']|]; [|discriminate].
    intros [= <- <-]. destruct (IH d' eq_refl) as [ws ->].
    exists ws. reflexivity.
Qed.

Lemma contains_app c a b : contains c (a ++ b) = contains c a || contains c b.
Proof. induction a; simpl; [reflexivity | rewrite IHa; apply orb_assoc]. Qed.

Lemma taskMatch_none s : hasParenGroup s = false -> taskMatch s = None.
Proof.
  intros H. destruct (taskMatch s) as [[d p]|] eqn:E; [|reflexivity].
  destruct (taskMatch_sound s d p E) as [ws ->].
  unfold hasParenGroup in H.
  rewrite !contains_app in H. simpl in H. rewrite !orb_true_r in H. simpl in H.
  replace (d ++ ws ++ String "(" (p ++ ")")) with ((d ++ ws ++ String "(" p) ++ ")") in H
    by (rewrite !append_assoc; reflexivity).
  rewrite (endsWith_app ")") in H. discriminate.
Qed.

Lemma parseTask_defaults e s :
  hasParenGroup s = false ->
  parseTask e s = Some (mkTask (generateTaskId e) (trim s) "medium" "general" None).
Proof. intros H. unfold parseTask. now rewrite (taskMatch_none s H). Qed.

Lemma trimEnd_snoc a c : isSpace c = false -> trimEnd (a ++ String c "") = a ++ String c "".
Proof.
  intros Hc. induction a as [|x r IH]; simpl; [now rewrite Hc|].
  rewrite IH. destruct (r ++ String c "") eqn:E; [destruct r; discriminate | reflexivity].
Qed.

Lemma trim_quoted b : trim (quoted b) = quoted b.
Proof.
  unfold trim, quoted. cbn [trimStart]. change (isSpace dquote) with false. cbv iota.
  change (String dquote (b ++ String dquote ""))
    with (String dquote b ++ String dquote "").
  now apply trimEnd_snoc.
Qed.

(** A text that begins with a quoted string: the string is taken for the
    timeframe, the tasks are those of the text behind it. *)
Lemma parseScheduleCommand_leading_quoted w b segs :
  noQuote b = true -> Forall wellFormed segs ->
  timeframe (parseScheduleCommand w (render (Quoted b :: segs))) = Some (quoted b) /\
  map Some (tasks (parseScheduleCommand w (render (Quoted b :: segs))))
  = parseAll w 0 (bodies segs).
Proof.
  intros Hb Hwf.
  change (render (Quoted b :: segs)) with (quoted b ++ render segs).
  unfold parseScheduleCommand.
  assert (Htrim : String.eqb (trim (quoted b ++ render segs)) "" = false).
  { apply String.eqb_neq. intros E. apply trim_empty_spaces in E.
    unfold quoted in E. simpl in E. discriminate. }
  rewrite Htrim.
  assert (Hparts : matchParts (quoted b ++ render segs)
                   = quoted b :: matchParts (render segs)).
  { unfold quoted. simpl. rewrite matchParts_cons. simpl.
    rewrite append_assoc. simpl.
    destruct (takeRun_noQuote b (String dquote (render segs)) Hb
                (or_intror (ex_intro _ _ eq_refl))) as [H1 H2].
    now rewrite H1, H2. }
  rewrite Hparts.
  unfold quoted at 1. cbn [append String.eqb orb]. fold (quoted b).
  cbn [timeframe tasks]. rewrite trim_quoted. split; [reflexivity|].
  change (fun part : string => startsWith dquote part && endsWith dquote part)
    with isQuotedPart.
  rewrite (quoted_parts segs Hwf "" eq_refl : filter isQuotedPart (matchParts (render segs)) = _).
  rewrite mapTasks_quoted. apply notNull_parseAll.
Qed.

(** C8.  Parsing does not yield one task for each well-formed quoted
    string of the text.  The first part of the text is taken for the
    timeframe, whatever it is, although the comments of the function
    expect it to be unquoted: in the text of the two quoted strings
    [Task A] and [Task B] the first string becomes the timeframe and one
    task is parsed, and so for every text that begins with a quoted
    string, which loses that string as a task.  Where the text begins with
    an unquoted run, there is one task for each quoted string, in the
    order of the text, each the parse of its string.  A task string that
    has no parenthesised group at its end becomes a task whose description
    is the trimmed string, with priority medium and type general. *)
Theorem leading_quoted_task_is_dropped :
  (Forall wellFormed noTimeframe /\
   bodies noTimeframe = ["Task A"; "Task B"] /\
   matchParts (render noTimeframe) = [quoted "Task A"; " "; quoted "Task B"] /\
   timeframe (parseScheduleCommand sampleWorld (render noTimeframe))
     = Some (quoted "Task A") /\
   map description (tasks (parseScheduleCommand sampleWorld (render noTimeframe)))
     = ["Task B"] /\
   List.length (tasks (parseScheduleCommand sampleWorld (render noTimeframe)))
     <> List.length (bodies noTimeframe)) /\
  (forall w b segs,
     noQuote b = true -> Forall wellFormed segs ->
     timeframe (parseScheduleCommand w (render (Quoted b :: segs))) = Some (quoted b) /\
     map Some (tasks (parseScheduleCommand w (render (Quoted b :: segs))))
       = parseAll w 0 (bodies segs) /\
     S (List.length (tasks (parseScheduleCommand w (render (Quoted b :: segs)))))
       = List.length (bodies (Quoted b :: segs))) /\
  (forall w tf segs,
     tf <> "" -> noQuote tf = true -> Forall wellFormed segs ->
     map Some (tasks (parseScheduleCommand w (tf ++ render segs)))
       = parseAll w 0 (bodies segs) /\
     List.length (tasks (parseScheduleCommand w (tf ++ render segs)))
       = List.length (bodies segs)) /\
  (forall e s,
     hasParenGroup s = false ->
     parseTask e s = Some (mkTask (generateTaskId e) (trim s) "medium" "general" None)).
Proof.
  split.
  { split; [repeat constructor; discriminate|].
    repeat split; try reflexivity. discriminate. }
  split.
  { intros w b segs Hb Hwf.
    destruct (parseScheduleCommand_leading_quoted w b segs Hb Hwf) as [Ht Hm].
    split; [exact Ht|]. split; [exact Hm|].
    cbn [bodies List.length]. f_equal.
    rewrite <- (length_map Some), Hm. apply parseAll_length. }
  split; [|exact parseTask_defaults].
  intros w tf segs Hne Hq Hwf.
  pose proof (parseScheduleCommand_quoted w tf segs Hne Hq Hwf) as H.
  split; [exact H|].
  rewrite <- (length_map Some), H. apply parseAll_length.
Qed.

End Commands.

(** ** The scenarios of the specification, evaluated *)

Example scenario_A_tasks :
  Validators.timeframe
    (Validators.parseScheduleCommand sampleWorld ("9AM-5PM " ++ render scenarioA))
    = Some "9AM-5PM" /\
  map (fun t => (Validators.description t, Validators.priority t, Validators.type t))
    (Validators.tasks
       (Validators.parseScheduleCommand sampleWorld ("9AM-5PM " ++ render scenarioA)))
    = [ ("Review code", "high", "general"); ("Team meeting", "medium", "meeting") ].
Proof. split; reflexivity. Qed.

Example scenario_B_empty_input :
  Validators.parseScheduleCommand sampleWorld "" = Validators.mkParsed None [].
Proof. reflexivity. Qed.

Example scenario_C_morning :
  Validators.timeframe
    (Validators.parseScheduleCommand sampleWorld
       ("morning " ++ quoted "Focus work (high, general)"))
    = Some "morning" /\
  Validators.validateTimeframe "morning"
    = Return (Validators.Valid
                (Validators.mkNormalized (Int 540) (Int 720) "09:00 - 12:00") (Int 180)).
Proof. split; reflexivity. Qed.

Example scenario_D_fenced_reply :
  parse sampleReply = Return sampleSchedule /\
  clean fencedReply = sampleReply /\
  NimService.parseScheduleResponse fencedReply = Return sampleSchedule.
Proof. repeat split; reflexivity. Qed.

Example scenario_E_not_json :
  NimService.parseScheduleResponse "not json"
    = Return (NimService.createFallbackSchedule "not json").
Proof. reflexivity. Qed.

Example scenario_F_two_failures :
  NimService.generateSchedule 2 recovering "9AM-5PM" [reviewCode] start
    = (Return sampleSchedule, mkNet 3 [Post; Delay 1000; Post; Delay 2000; Post]) /\
  Services.generateSchedule 3 recovering "9AM-5PM" [reviewCode] start
    = (Return sampleSchedule, mkNet 3 [Post; Delay 1000; Post; Delay 2000; Post]).
Proof. split; reflexivity. Qed.

(** A fence that follows a line feed is matched by the second alternative
    of the pattern, which leaves the word [json] in the text. *)
Example fence_after_line_feed :
  NimService.stripFences 0 (String "010" "```json{}") = "json{}" /\
  NimService.stripFences 0 "```json{}" = "{}".
Proof. split; reflexivity. Qed.

Example parseTask_preferred_time :
  Validators.parseTask (sampleWorld 0) "Meeting task (high, meeting, 14:00)"
    = Some (Validators.mkTask "task_1700000000000_k3j4h5g6f" "Meeting task"
              "high" "meeting" (Some "14:00")).
Proof. reflexivity. Qed.

(** * Further properties *)

(** ** Times of day *)

Section TimesOfDay.
Import Validators.

(** Case analysis on the bits of a character, as far as a test on it
    reads them. *)
Ltac split_bits :=
  repeat match goal with
  | |- context [match ?b with true => _ | false => _ end] =>
      is_var b; destruct b; try discriminate
  end.

Lemma isValidTime_cases (timeStr : string) :
  isValidTime timeStr = true ->
  (exists h m1 m2,
      timeStr = String h (String ":" (String m1 (String m2 "")))
      /\ isDigit h && isMinuteTens m1 && isDigit m2 = true)
  \/ (exists h1 h2 m1 m2,
      timeStr = String h1 (String h2 (String ":" (String m1 (String m2 ""))))
      /\ hourOk h1 h2 && isMinuteTens m1 && isDigit m2 = true).
Proof.
  unfold isValidTime, hourOk.
  destruct timeStr as [|h1 [|h2 [|c3 [|c4 [|c5 [|c6 r]]]]]]; try discriminate.
  all: destruct h2 as [b0 b1 b2 b3 b4 b5 b6 b7]; split_bits.
  all: try (destruct c3 as [d0 d1 d2 d3 d4 d5 d6 d7]; split_bits).
  all: intros H;
    first [ left; do 3 eexists; split; [reflexivity | exact H]
          | right; do 4 eexists; split; [reflexivity | exact H] ].
Qed.

Lemma isDigit_cases c :
  isDigit c = true ->
  In c ["0"; "1"; "2"; "3"; "4"; "5"; "6"; "7"; "8"; "9"]%char.
Proof.
  destruct c as [[] [] [] [] [] [] [] []]; intros H; try discriminate H;
    simpl; tauto.
Qed.

Lemma ToNumber_one_digit a :
  isDigit a = true -> ToNumber (String a "") = Int (digitOf a).
Proof.
  intros Ha. apply isDigit_cases in Ha. simpl in Ha.
  repeat (destruct Ha as [<- | Ha]; [reflexivity|]). contradiction.
Qed.

Lemma ToNumber_two_digits a b :
  isDigit a = true -> isDigit b = true ->
  ToNumber (String a (String b "")) = Int (10 * digitOf a + digitOf b).
Proof.
  intros Ha Hb. apply isDigit_cases in Ha. apply isDigit_cases in Hb.
  simpl in Ha, Hb.
  repeat (destruct Ha as [<- | Ha];
          [repeat (destruct Hb as [<- | Hb]; [reflexivity|]); contradiction|]).
  contradiction.
Qed.

Lemma digitOf_range c : isDigit c = true -> (0 <= digitOf c <= 9)%Z.
Proof.
  unfold isDigit, digitOf. intros H. andb_split H as H1 H2.
  apply N.leb_le in H1. apply N.leb_le in H2. lia.
Qed.

Lemma isMinuteTens_digit c :
  isMinuteTens c = true -> isDigit c = true /\ (digitOf c <= 5)%Z.
Proof.
  unfold isMinuteTens, isDigit, digitOf. intros H. andb_split H as A B.
  apply N.leb_le in A. apply N.leb_le in B. split; [|lia].
  apply andb_true_intro. split; apply N.leb_le; lia.
Qed.

Lemma hourOk_digits h1 h2 :
  hourOk h1 h2 = true ->
  isDigit h1 = true /\ isDigit h2 = true /\ (10 * digitOf h1 + digitOf h2 <= 23)%Z.
Proof.
  unfold hourOk. intros Hh. apply orb_prop in Hh. destruct Hh as [Hh | Hh].
  - andb_split Hh as Hh1 Hh2. pose proof (digitOf_range h2 Hh2).
    apply orb_prop in Hh1.
    destruct Hh1 as [Hh1 | Hh1]; apply Ascii.eqb_eq in Hh1; subst h1;
      (split; [reflexivity | split; [exact Hh2 |]]).
    + change (digitOf "0") with 0%Z. lia.
    + change (digitOf "1") with 1%Z. lia.
  - andb_split Hh as Hh1 Hh2. apply Ascii.eqb_eq in Hh1. subst h1.
    andb_split Hh2 as A B. apply N.leb_le in A. apply N.leb_le in B.
    split; [reflexivity|]. split.
    + unfold isDigit. apply andb_true_intro. split; apply N.leb_le; lia.
    + change (digitOf "2") with 2%Z. unfold digitOf. lia.
Qed.

Lemma timeToMinutes_fields h m :
  allChars isDigit h = true ->
  allChars isDigit m = true ->
  timeToMinutes (h ++ String ":" m)
  = num_add (num_mul (ToNumber h) (Int 60)) (ToNumber m).
Proof.
  intros Hh Hm. unfold timeToMinutes.
  now rewrite (split_app ":" h m (digits_no_colon h Hh)),
              (split_no_sep ":" m (digits_no_colon m Hm)).
Qed.

Lemma isValidTime_offset_bound (timeStr : string) :
  isValidTime timeStr = true ->
  exists z, timeToMinutes timeStr = Int z /\ (0 <= z < 1440)%Z.
Proof.
  intros H. apply isValidTime_cases in H.
  destruct H as [(h & m1 & m2 & -> & H) | (h1 & h2 & m1 & m2 & -> & H)];
    andb_split H as H Hm2; andb_split H as Hh Hm1;
    apply isMinuteTens_digit in Hm1; destruct Hm1 as [Hm1 Hle];
    pose proof (digitOf_range m1 Hm1); pose proof (digitOf_range m2 Hm2).
  - change (String h (String ":" (String m1 (String m2 ""))))
      with (String h "" ++ String ":" (String m1 (String m2 ""))).
    rewrite timeToMinutes_fields by (simpl; rewrite ?Hh, ?Hm1, ?Hm2; reflexivity).
    rewrite (ToNumber_one_digit h Hh), (ToNumber_two_digits m1 m2 Hm1 Hm2).
    cbn [num_add num_mul]. pose proof (digitOf_range h Hh).
    rewrite (roundToDouble_exact (digitOf h * 60)) by lia.
    rewrite roundToDouble_exact by lia.
    eexists. split; [reflexivity|]. lia.
  - apply hourOk_digits in Hh. destruct Hh as (Hh1 & Hh2 & Hle23).
    change (String h1 (String h2 (String ":" (String m1 (String m2 "")))))
      with (String h1 (String h2 "") ++ String ":" (String m1 (String m2 ""))).
    rewrite timeToMinutes_fields by (simpl; rewrite ?Hh1, ?Hh2, ?Hm1, ?Hm2; reflexivity).
    rewrite (ToNumber_two_digits h1 h2 Hh1 Hh2), (ToNumber_two_digits m1 m2 Hm1 Hm2).
    cbn [num_add num_mul].
    pose proof (digitOf_range h1 Hh1). pose proof (digitOf_range h2 Hh2).
    rewrite (roundToDouble_exact ((10 * digitOf h1 + digitOf h2) * 60)) by lia.
    rewrite roundToDouble_exact by lia.
    eexists. split; [reflexivity|]. lia.
Qed.

(** X1: a time that [isValidTime] accepts is read by [timeToMinutes] as
    an offset within the day: an integer from 0 to 1439, never NaN. *)
Theorem isValidTime_offset (timeStr : string) :
  isValidTime timeStr = true ->
  exists z, timeToMinutes timeStr = Int z /\ (0 <= z < 1440)%Z.
Proof. exact (isValidTime_offset_bound timeStr). Qed.

Lemma isValidTime_offset_witness :
  exists z, timeToMinutes "23:59" = Int z /\ (0 <= z < 1440)%Z.
Proof. apply (isValidTime_offset "23:59"). reflexivity. Defined.

Lemma string_length_app a b : String.length (a ++ b) = (String.length a + String.length b)%nat.
Proof. induction a as [|c r IH]; simpl; [reflexivity | now rewrite IH]. Qed.

Lemma padStart_length n c s :
  (String.length s <= String.length (padStart n c s))%nat /\
  (n <= String.length (padStart n c s))%nat.
Proof.
  unfold padStart. rewrite string_length_app.
  assert (Hr : forall k, String.length (replicate k c) = k)
    by (induction k as [|k IH]; simpl; [reflexivity | now rewrite IH]).
  rewrite Hr. lia.
Qed.

Lemma decimal_short (v : N) :
  (String.length (decimal v) <= 2)%nat -> (v < 100)%N.
Proof.
  intros Hlen. destruct (decimal_nonempty_digits v) as [Hne Hd].
  pose proof (digitsValue_decimal 0 v) as Hv.
  change (padStart 0 "0" (decimal v)) with (decimal v) in Hv.
  rewrite <- (ToNumber_digits _ Hne Hd) in Hv.
  assert (Hr : (roundToDouble (Z.of_N v) < 100)%Z).
  { destruct (decimal v) as [|a [|b [|c r]]]; [congruence| | |simpl in Hlen; lia].
    - simpl in Hd. rewrite andb_true_r in Hd.
      rewrite (ToNumber_one_digit a Hd) in Hv.
      assert (E : roundToDouble (Z.of_N v) = digitOf a) by congruence.
      pose proof (digitOf_range a Hd). lia.
    - simpl in Hd. rewrite andb_true_r in Hd. andb_split Hd as Ha Hb.
      rewrite (ToNumber_two_digits a b Ha Hb) in Hv.
      assert (E : roundToDouble (Z.of_N v) = (10 * digitOf a + digitOf b)%Z)
        by congruence.
      pose proof (digitOf_range a Ha). pose proof (digitOf_range b Hb). lia. }
  assert (H0 : (0 <= Z.of_N v)%Z) by lia.
  assert (Hb : (100 <= 2 ^ 53)%Z) by (change (2 ^ 53)%Z with 9007199254740992%Z; lia).
  pose proof (roundToDouble_below (Z.of_N v) 100 H0 Hb Hr). lia.
Qed.

Lemma shortestFrom_reads n : forall j,
  shortestFrom j n = n \/ readsAs n (shortestFrom j n) = true.
Proof.
  induction j as [|j IH]; [now left|].
  cbn [shortestFrom].
  destruct (readsAs n (n / 10 ^ N.of_nat (S j) * 10 ^ N.of_nat (S j))) eqn:E1;
    destruct (readsAs n (n / 10 ^ N.of_nat (S j) * 10 ^ N.of_nat (S j)
                         + 10 ^ N.of_nat (S j))) eqn:E2;
    try (right; assumption); [|exact IH].
  repeat match goal with |- context [if ?c then _ else _] => destruct c end;
    right; assumption.
Qed.

Lemma exponentForm_length v : (3 <= String.length (exponentForm v))%nat.
Proof.
  unfold exponentForm. destruct (decimal_nonempty_digits v) as [Hne _].
  destruct (decimal v) as [|d rest]; [congruence|].
  cbn [String.length]. rewrite string_length_app. simpl. lia.
Qed.

Lemma toString_short (n : N) :
  (String.length (toString n) <= 2)%nat -> (n < 2 ^ 53)%N.
Proof.
  intros Hlen. destruct (N.lt_ge_cases n (2 ^ 53)) as [Hs | Hl]; [exact Hs|].
  exfalso. unfold toString, shortest in Hlen.
  apply N.ltb_ge in Hl as Hb. rewrite Hb in Hlen. cbv zeta in Hlen.
  set (v := shortestFrom (String.length (decimal n)) n) in *.
  change (2 ^ 53)%N with 9007199254740992%N in Hl.
  destruct (v <? 10 ^ 21)%N.
  - apply decimal_short in Hlen.
    destruct (shortestFrom_reads n (String.length (decimal n))) as [E | E];
      fold v in E.
    + lia.
    + unfold readsAs in E. apply Z.eqb_eq in E.
      rewrite roundToDouble_exact in E by lia. lia.
  - pose proof (exponentForm_length v). lia.
Qed.

(** X2: the text that [minutesToTime] prints is a time that [isValidTime]
    accepts exactly for the offsets of one day, 0 to 1439; from 1440
    (printed as 24:00) on it is rejected. *)
Theorem minutesToTime_valid (m : N) :
  isValidTime (minutesToTime m) = true <-> (m < 1440)%N.
Proof.
  split.
  - intros H. apply floorDiv_day.
    assert (Hlen : (String.length (minutesToTime m) <= 5)%nat).
    { destruct (isValidTime_cases _ H) as [(h & m1 & m2 & -> & _)
                                          | (h1 & h2 & m1 & m2 & -> & _)];
        simpl; lia. }
    apply isValidTime_offset_bound in H. destruct H as (z & Hz & Hlt).
    unfold minutesToTime in Hz, Hlen.
    set (h := floorDiv m 60) in *. set (mi := (m mod 60)%N) in *.
    assert (Hmi : (mi < 60)%N) by (apply N.mod_lt; lia).
    rewrite !string_length_app in Hlen.
    destruct (padStart_length 2 "0" (toString h)) as [Hh1 _].
    destruct (padStart_length 2 "0" (toString mi)) as [_ Hm2].
    change (String.length ":") with 1%nat in Hlen.
    assert (Hh : (h < 2 ^ 53)%N) by (apply toString_short; lia).
    rewrite timeToMinutes_padded in Hz;
      [|exact Hh | change (2 ^ 53)%N with 9007199254740992%N; lia].
    cbn [num_add num_mul] in Hz. injection Hz as Hz.
    assert (E1 : roundToDouble (roundToDouble (Z.of_N h * 60) + Z.of_N mi)
                 = (roundToDouble (Z.of_N h * 60) + Z.of_N mi)%Z).
    { apply (roundToDouble_below _ 1440);
        [|change (2 ^ 53)%Z with 9007199254740992%Z; lia | lia].
      assert (0 <= roundToDouble (Z.of_N h * 60))%Z; [|lia].
      destruct (Z_lt_le_dec (Z.of_N h * 60) (2 ^ 53)) as [Hs | Hl].
      - rewrite roundToDouble_small by lia. lia.
      - pose proof (roundToDouble_large _ Hl). pose proof (Z.pow_pos_nonneg 2 53). lia. }
    assert (E2 : roundToDouble (Z.of_N h * 60) = (Z.of_N h * 60)%Z).
    { apply (roundToDouble_below _ 1440);
        [lia | change (2 ^ 53)%Z with 9007199254740992%Z; lia | lia]. }
    lia.
  - intros Hlt.
    assert (Hall : forallb (fun k => isValidTime (minutesToTime (N.of_nat k)))
                           (seq 0 1440) = true) by (vm_compute; reflexivity).
    rewrite forallb_forall in Hall. specialize (Hall (N.to_nat m)).
    rewrite N2Nat.id in Hall. apply Hall. apply in_seq. lia.
Qed.

End TimesOfDay.

(** ** Task texts *)

Section TaskTexts.
Import Validators.

Lemma trimStart_head s :
  trimStart s = "" \/ exists c r, trimStart s = String c r /\ isSpace c = false.
Proof.
  induction s as [|c r IH]; simpl; [now left|].
  destruct (isSpace c) eqn:E; [exact IH|]. right. now exists c, r.
Qed.

Lemma trimEnd_head c r :
  isSpace c = false -> exists r', trimEnd (String c r) = String c r'.
Proof.
  intros H. simpl. destruct (trimEnd r) as [|a t]; [rewrite H|]; eauto.
Qed.

Lemma trimEnd_idempotent s : trimEnd (trimEnd s) = trimEnd s.
Proof.
  induction s as [|c r IH]; simpl; [reflexivity|].
  destruct (trimEnd r) as [|a t] eqn:E.
  - destruct (isSpace c) eqn:Ec; simpl; [reflexivity | now rewrite Ec].
  - change (trimEnd (String c (String a t)))
      with (match trimEnd (String a t) with
            | "" => if isSpace c then "" else String c ""
            | r' => String c r'
            end).
    now rewrite IH.
Qed.

Lemma trim_idempotent s : trim (trim s) = trim s.
Proof.
  unfold trim. destruct (trimStart_head s) as [E | (c & r & E & Hc)]; rewrite E.
  - reflexivity.
  - destruct (trimEnd_head c r Hc) as [r' Hr]. rewrite Hr.
    simpl trimStart. rewrite Hc. rewrite <- Hr. apply trimEnd_idempotent.
Qed.

Lemma applyParam_ok st param : paramsOk st -> paramsOk (applyParam st param).
Proof.
  destruct st as [[p t] pt]. unfold applyParam, paramsOk. intros (Hp & Ht & Hpt).
  destruct (includes validPriorities param) eqn:E1.
  { apply includes_In in E1. auto. }
  destruct (includes validTypes param) eqn:E2.
  { apply includes_In in E2. auto. }
  destruct (isValidTime param) eqn:E3; auto.
Qed.

Lemma fold_applyParam_ok params : forall st,
  paramsOk st -> paramsOk (fold_left applyParam params st).
Proof.
  induction params as [|p r IH]; intros st H; simpl; [exact H|].
  apply IH, applyParam_ok, H.
Qed.

Lemma parseTask_shape e taskText :
  exists t,
    parseTask e taskText = Some t /\
    id t = generateTaskId e /\
    trim (description t) = description t /\
    paramsOk (priority t, type t, preferred_time t).
Proof.
  unfold parseTask. destruct (taskMatch taskText) as [[g1 g2]|].
  - pose proof (fold_applyParam_ok
                  (map (fun p => toLowerCase (trim p)) (split "," g2))
                  ("medium", "general", None)) as H.
    destruct (fold_left applyParam _ _) as [[p t] pt].
    eexists. split; [reflexivity|]. cbn [id description priority type preferred_time].
    split; [reflexivity|]. split; [apply trim_idempotent|].
    apply H. simpl. tauto.
  - eexists. split; [reflexivity|]. cbn [id description priority type preferred_time].
    split; [reflexivity|]. split; [apply trim_idempotent|]. simpl. tauto.
Qed.

(** X3: [parseTask] never returns [null] on a text, and the task it
    builds carries the generated id, a description without white space
    at either end, a priority and a type of the valid lists, and a
    preferred time that is absent or accepted by [isValidTime]. *)
Theorem parseTask_fields (e : Entropy) (taskText : string) :
  exists t,
    parseTask e taskText = Some t /\
    id t = generateTaskId e /\
    trim (description t) = description t /\
    In (priority t) validPriorities /\
    In (type t) validTypes /\
    match preferred_time t with
    | Some time => isValidTime time = true
    | None => True
    end.
Proof.
  destruct (parseTask_shape e taskText) as (t & H & Hid & Htrim & Hok).
  exists t. unfold paramsOk in Hok. tauto.
Qed.

Lemma validateTask_parsed e taskText t :
  parseTask e taskText = Some t ->
  validateTask t =
  if String.eqb (description t) "" then Rejected "Task description is required"
  else if (200 <? String.length (description t))%nat then
    Rejected "Task description cannot exceed 200 characters"
  else Ok.
Proof.
  intros H. destruct (parseTask_shape e taskText) as (t' & H' & _ & Htrim & Hok).
  rewrite H in H'. injection H' as <-. destruct Hok as (Hp & Hty & Hpt).
  unfold validateTask, truthy. rewrite Htrim, negb_involutive, orb_diag.
  destruct (String.eqb (description t) ""); [reflexivity|].
  destruct (200 <? String.length (description t))%nat; [reflexivity|].
  apply includes_In in Hp. apply includes_In in Hty. rewrite Hp, Hty.
  rewrite !andb_false_r.
  destruct (preferred_time t) as [time|]; [|reflexivity].
  now rewrite Hpt, andb_false_r.
Qed.

(** X4: a task that [parseTask] built passes [validateTask] exactly when
    its description is not empty and has at most 200 characters; the
    checks of priority, type and preferred time never reject it. *)
Theorem parsed_task_validation (e : Entropy) (taskText : string) (t : Task) :
  parseTask e taskText = Some t ->
  validateTask t =
  if String.eqb (description t) "" then Rejected "Task description is required"
  else if (200 <? String.length (description t))%nat then
    Rejected "Task description cannot exceed 200 characters"
  else Ok.
Proof. exact (validateTask_parsed e taskText t). Qed.

Lemma parsed_task_validation_witness :
  validateTask (mkTask "task_1700000000000_k3j4h5g6f" "" "high" "general" None)
  = Rejected "Task description is required".
Proof.
  exact (parsed_task_validation (sampleWorld 0) " (high)"
           (mkTask "task_1700000000000_k3j4h5g6f" "" "high" "general" None) eq_refl).
Defined.

Lemma validateEach_first_invalid pre t post error : forall i,
  Forall (fun x => validateTask x = Ok) pre ->
  validateTask t = Rejected error ->
  validateEach i (pre ++ t :: post)%list
  = Rejected ("Task " ++ toString (N.of_nat (i + List.length pre + 1)) ++ ": " ++ error).
Proof.
  induction pre as [|x pre IH]; intros i Hpre Ht; simpl.
  - rewrite Ht. now rewrite Nat.add_0_r.
  - inversion Hpre as [|? ? Hx Hpre']; subst. rewrite Hx.
    rewrite (IH (S i) Hpre' Ht).
    now replace (S i + List.length pre + 1)%nat
      with (i + S (List.length pre) + 1)%nat by lia.
Qed.

(** X5: [validateTasks] reports the first task that [validateTask]
    rejects, under its position counted from one, and does not look at
    the tasks after it. *)
Theorem validateTasks_first_invalid (pre post : list Task) (t : Task) (error : string) :
  Forall (fun x => validateTask x = Ok) pre ->
  validateTask t = Rejected error ->
  (List.length (pre ++ t :: post) <= 20)%nat ->
  validateTasks (pre ++ t :: post)%list
  = Rejected ("Task " ++ toString (N.of_nat (List.length pre + 1)) ++ ": " ++ error).
Proof.
  intros Hpre Ht Hlen. unfold validateTasks.
  destruct (List.length (pre ++ t :: post)) as [|n] eqn:E.
  { rewrite length_app in E. simpl in E. lia. }
  cbn [Nat.eqb]. destruct (20 <? S n)%nat eqn:E20.
  { apply Nat.ltb_lt in E20. lia. }
  exact (validateEach_first_invalid pre t post error 0 Hpre Ht).
Qed.

Lemma validateTasks_first_invalid_witness :
  validateTasks [plainTask "Valid task"; plainTask ""; plainTask "Other"]
  = Rejected "Task 2: Task description is required".
Proof.
  apply (validateTasks_first_invalid [plainTask "Valid task"] [plainTask "Other"]
           (plainTask "") "Task description is required").
  - repeat constructor.
  - reflexivity.
  - simpl. lia.
Defined.

End TaskTexts.

(** ** The parts of a command text *)

Section Parts.
Import Validators.

Lemma takeRun_dropRun s : s = takeRun s ++ dropRun s.
Proof.
  induction s as [|c r IH]; simpl; [reflexivity|].
  destruct (Ascii.eqb c dquote); simpl; [reflexivity | now f_equal].
Qed.

Lemma takeRun_quoteless s : noQuote (takeRun s) = true.
Proof.
  induction s as [|c r IH]; simpl; [reflexivity|].
  destruct (Ascii.eqb c dquote) eqn:E; simpl; [reflexivity|].
  unfold noQuote in *. simpl. unfold notQuote at 1. now rewrite E.
Qed.

Lemma dropRun_head s : dropRun s = "" \/ exists u, dropRun s = String dquote u.
Proof.
  induction s as [|c r IH]; simpl; [now left|].
  destruct (Ascii.eqb c dquote) eqn:E; [|exact IH].
  apply Ascii.eqb_eq in E. subst c. right. now exists r.
Qed.

Lemma dropRun_length s : (String.length (dropRun s) <= String.length s)%nat.
Proof.
  induction s as [|c r IH]; simpl; [lia|].
  destruct (Ascii.eqb c dquote); simpl; lia.
Qed.

Lemma unquote_app a b : unquote (a ++ b) = unquote a ++ unquote b.
Proof.
  induction a as [|c r IH]; simpl; [reflexivity|].
  destruct (Ascii.eqb c dquote); simpl; now rewrite IH.
Qed.

Lemma unquote_quoteless s : noQuote s = true -> unquote s = s.
Proof.
  unfold noQuote. induction s as [|c r IH]; simpl; [reflexivity|].
  intros H. andb_split H as Hc Hr. not_quote Hc. rewrite Hc. now rewrite IH.
Qed.

Lemma concat_cons x xs : String.concat "" (x :: xs) = x ++ String.concat "" xs.
Proof. destruct xs; simpl; [now rewrite append_nil_r | reflexivity]. Qed.

Lemma matchParts_quoteless s :
  s <> "" -> noQuote s = true -> matchParts s = [s].
Proof.
  destruct s as [|c r]; [congruence|]. intros _ H. unfold noQuote in H. simpl in H.
  andb_split H as Hc Hr. not_quote Hc.
  rewrite matchParts_cons, Hc.
  destruct (takeRun_noQuote r "" Hr (or_introl eq_refl)) as [Ht Hd].
  rewrite append_nil_r in Ht, Hd. rewrite Ht, Hd. reflexivity.
Qed.

Lemma matchParts_invariant n : forall text,
  (String.length text <= n)%nat ->
  Forall isPart (matchParts text) /\
  unquote (String.concat "" (matchParts text)) = unquote text.
Proof.
  induction n as [|n IH]; intros text Hlen.
  - destruct text; [|simpl in Hlen; lia]. split; [constructor | reflexivity].
  - destruct text as [|c r]; [split; [constructor | reflexivity]|].
    simpl in Hlen. rewrite matchParts_cons.
    pose proof (takeRun_dropRun r) as Hsplit.
    pose proof (takeRun_quoteless r) as Hq.
    pose proof (dropRun_length r) as Hd.
    destruct (Ascii.eqb c dquote) eqn:Ec.
    + apply Ascii.eqb_eq in Ec. subst c.
      destruct (dropRun r) as [|q rest] eqn:Edrop.
      * destruct (IH r ltac:(lia)) as [H1 H2]. split; [exact H1|].
        rewrite H2. simpl. rewrite ?Ascii.eqb_refl; reflexivity.
      * destruct (dropRun_head r) as [E | [u E]]; rewrite Edrop in E; [discriminate|].
        injection E as -> ->.
        simpl in Hd. destruct (IH u ltac:(lia)) as [H1 H2]. split.
        -- constructor; [|exact H1]. right. now exists (takeRun r).
        -- rewrite concat_cons, unquote_app, H2.
           rewrite Hsplit at 2. simpl. rewrite ?Ascii.eqb_refl.
           rewrite !unquote_app. simpl. rewrite ?Ascii.eqb_refl.
           now rewrite append_nil_r.
    + destruct (IH (dropRun r) ltac:(lia)) as [H1 H2]. split.
      * constructor; [|exact H1]. left. split; [discriminate|].
        unfold noQuote. simpl. unfold notQuote at 1. rewrite Ec. exact Hq.
      * rewrite concat_cons, unquote_app, H2. simpl. rewrite Ec.
        change (String c (unquote (takeRun r) ++ unquote (dropRun r))
                = String c (unquote r)).
        now rewrite <- unquote_app, <- Hsplit.
Qed.

Lemma dropRun_empty s : dropRun s = "" -> noQuote s = true.
Proof.
  intros H. pose proof (takeRun_dropRun s) as E. rewrite H, append_nil_r in E.
  rewrite E. apply takeRun_quoteless.
Qed.

Lemma matchParts_partsOf n : forall text,
  (String.length text <= n)%nat -> partsOf text (matchParts text).
Proof.
  induction n as [|n IH]; intros text Hlen.
  - destruct text; [|simpl in Hlen; lia]. constructor.
  - destruct text as [|c r]; [constructor|].
    simpl in Hlen. rewrite matchParts_cons.
    pose proof (takeRun_dropRun r) as Hsplit.
    pose proof (takeRun_quoteless r) as Hq.
    pose proof (dropRun_length r) as Hd.
    destruct (Ascii.eqb c dquote) eqn:Ec.
    + apply Ascii.eqb_eq in Ec. subst c.
      destruct (dropRun r) as [|q rest] eqn:Edrop.
      * apply parts_skip; [now apply dropRun_empty | apply IH; lia].
      * destruct (dropRun_head r) as [E | [u E]]; rewrite Edrop in E; [discriminate|].
        injection E as -> ->. simpl in Hd.
        assert (Htext : String dquote r = quoted (takeRun r) ++ u).
        { unfold quoted. simpl. f_equal. rewrite append_assoc. exact Hsplit. }
        rewrite Htext. apply parts_quoted; [exact Hq | apply IH; lia].
    + assert (Htext : String c r = String c (takeRun r) ++ dropRun r).
      { simpl. f_equal. exact Hsplit. }
      rewrite Htext at 1. apply parts_run.
      * discriminate.
      * unfold noQuote. simpl. unfold notQuote at 1. rewrite Ec. exact Hq.
      * exact (dropRun_head r).
      * apply IH. lia.
Qed.

Lemma partsOf_unique text ps : partsOf text ps -> ps = matchParts text.
Proof.
  induction 1 as [|run rest ps Hne Hq Hend _ IH|body rest ps Hq _ IH|rest ps Hq _ IH].
  - reflexivity.
  - destruct run as [|c r]; [congruence|].
    unfold noQuote in Hq. simpl in Hq. andb_split Hq as Hc Hr. not_quote Hc.
    change (String c r ++ rest) with (String c (r ++ rest)).
    rewrite matchParts_cons, Hc.
    destruct (takeRun_noQuote r rest Hr Hend) as [-> ->]. now rewrite IH.
  - unfold quoted at 2. cbn [append]. rewrite matchParts_cons, Ascii.eqb_refl.
    rewrite append_assoc. cbn [append].
    destruct (takeRun_noQuote body (String dquote rest) Hq
                (or_intror (ex_intro _ _ eq_refl))) as [-> ->].
    now rewrite IH.
  - rewrite matchParts_cons, Ascii.eqb_refl.
    destruct (takeRun_noQuote rest "" Hq (or_introl eq_refl)) as [_ Hd].
    rewrite append_nil_r in Hd. rewrite Hd. exact IH.
Qed.

(** X6: the parts that the global match of [parseScheduleCommand]
    returns are those of reading the text from the left, and no other
    list is: a run without a double quote goes up to the next quote or the
    end of the text, a quote that a later quote follows opens a quoted
    segment that closes at the next quote, and a quote that no quote
    follows is passed over.  So every part is a non-empty run without a
    double quote or a quoted segment whose body has none, and the parts in
    order make up the text except for double quotes. *)
Theorem matchParts_parts (text : string) :
  partsOf text (matchParts text) /\
  (forall ps, partsOf text ps -> ps = matchParts text) /\
  Forall isPart (matchParts text) /\
  unquote (String.concat "" (matchParts text)) = unquote text.
Proof.
  split; [exact (matchParts_partsOf (String.length text) text (le_n _))|].
  split; [exact (partsOf_unique text)|].
  exact (matchParts_invariant (String.length text) text (le_n _)).
Qed.

(** X7: a command text without any double quote has no tasks: the whole
    trimmed text is the timeframe, and a blank text has no timeframe
    either. *)
Theorem parseScheduleCommand_unquoted (w : nat -> Entropy) (text : string) :
  noQuote text = true ->
  parseScheduleCommand w text =
  if String.eqb (trim text) "" then mkParsed None [] else mkParsed (Some (trim text)) [].
Proof.
  intros Hq. unfold parseScheduleCommand.
  destruct (String.eqb text "") eqn:E.
  { apply String.eqb_eq in E. subst text. reflexivity. }
  apply String.eqb_neq in E. simpl.
  destruct (String.eqb (trim text) ""); [reflexivity|].
  now rewrite (matchParts_quoteless text E Hq).
Qed.

Lemma parseScheduleCommand_unquoted_witness :
  parseScheduleCommand sampleWorld "9AM-5PM Review code"
  = mkParsed (Some "9AM-5PM Review code") [].
Proof. exact (parseScheduleCommand_unquoted sampleWorld "9AM-5PM Review code" eq_refl). Defined.

End Parts.

(** ** Accepted timeframes *)

Section AcceptedTimeframes.
Import Validators.

Lemma validateTimeframe_returns tf : exists r, validateTimeframe tf = Return r.
Proof.
  unfold validateTimeframe.
  destruct (String.eqb tf ""); [eexists; reflexivity|].
  destruct (normalizeTimeframe (trim tf)) as [[n|]|e]; eexists; reflexivity.
Qed.

Lemma formats_need_digit s :
  digits12 s = None -> firstMatch formats s = None.
Proof.
  intros H. unfold formats, firstMatch, format12, format24, formatMixed.
  now rewrite H.
Qed.

Lemma digits12_head c r : isDigit c = false -> digits12 (String c r) = None.
Proof. intros H. destruct r; simpl; now rewrite H. Qed.

Lemma lowerChar_digit c : isDigit c = true -> isDigit (lowerChar c) = true.
Proof. destruct c as [[] [] [] [] [] [] [] []]; intros H; try discriminate H; reflexivity. Qed.

Lemma preset_no_format s :
  In (toLowerCase s) presetNames -> firstMatch formats s = None.
Proof.
  intros H. apply formats_need_digit.
  destruct s as [|c r]; [reflexivity|]. apply digits12_head.
  destruct (isDigit c) eqn:E; [|reflexivity]. apply lowerChar_digit in E.
  simpl in H.
  repeat (destruct H as [H | H]; [injection H as H _; rewrite <- H in E; discriminate E|]).
  contradiction.
Qed.

Lemma preset_normalized s :
  In (toLowerCase s) presetNames ->
  exists n d, normalizeTimeframe s = Return (Some n) /\ checkNormalized n = Valid n d.
Proof.
  intros H. unfold normalizeTimeframe. rewrite (preset_no_format s H).
  simpl in H.
  repeat (destruct H as [H | H];
          [rewrite <- H; do 2 eexists; split; reflexivity|]).
  contradiction.
Qed.

Lemma validateTimeframe_valid_iff tf :
  (exists n d, validateTimeframe tf = Return (Valid n d)) <->
  In (toLowerCase (trim tf)) presetNames.
Proof.
  split.
  - intros (n & d & H). apply validateTimeframe_valid in H. destruct H as [H _].
    apply normalizeTimeframe_some in H. destruct H as (start & end_ & Hin & _).
    unfold presetNames. apply (in_map fst) in Hin. exact Hin.
  - intros H. destruct (preset_normalized _ H) as (n & d & Hn & Hc).
    exists n, d. rewrite (validateTimeframe_after_normalize tf n Hn). now rewrite Hc.
Qed.

(** X8: [validateTimeframe] never throws, and the timeframes it accepts
    are exactly those whose trimmed, lower-cased text is the name of a
    preset. *)
Theorem validateTimeframe_accepts (tf : string) :
  (exists r, validateTimeframe tf = Return r) /\
  ((exists n d, validateTimeframe tf = Return (Valid n d)) <->
   In (toLowerCase (trim tf)) presetNames).
Proof. split; [apply validateTimeframe_returns | apply validateTimeframe_valid_iff]. Qed.

Lemma isSpace_lowerChar c : isSpace (lowerChar c) = isSpace c.
Proof. destruct c as [[] [] [] [] [] [] [] []]; reflexivity. Qed.

Lemma trimStart_toLowerCase s : trimStart (toLowerCase s) = toLowerCase (trimStart s).
Proof.
  induction s as [|c r IH]; simpl; [reflexivity|].
  rewrite isSpace_lowerChar. destruct (isSpace c); [exact IH | reflexivity].
Qed.

Lemma trimEnd_toLowerCase s : trimEnd (toLowerCase s) = toLowerCase (trimEnd s).
Proof.
  induction s as [|c r IH]; simpl; [reflexivity|].
  rewrite IH, isSpace_lowerChar.
  destruct (trimEnd r); simpl; [destruct (isSpace c)|]; reflexivity.
Qed.

Lemma trim_toLowerCase s : trim (toLowerCase s) = toLowerCase (trim s).
Proof. unfold trim. now rewrite trimStart_toLowerCase, trimEnd_toLowerCase. Qed.

Lemma utils_presets : Utils.presets = presetNames.
Proof. reflexivity. Qed.

Lemma preset_accepted_by_utils tf :
  In (toLowerCase (trim tf)) presetNames -> Utils.validateTimeframe tf = None.
Proof.
  intros H. unfold Utils.validateTimeframe.
  assert (Hne : trim tf <> "").
  { intros E. rewrite E in H. simpl in H. intuition discriminate. }
  assert (Hne' : tf <> "") by (intros E; subst tf; now apply Hne).
  apply String.eqb_neq in Hne, Hne'. rewrite Hne, Hne'. cbn [orb].
  rewrite trim_toLowerCase, utils_presets.
  apply includes_In in H. now rewrite H.
Qed.

(** X9: a timeframe that [validateTimeframe] of
    [src/utils/validators.js] accepts is accepted by [validateTimeframe]
    of [src/utils.js] as well. *)
Theorem layered_timeframe_accepted_by_compact (tf : string) (n : Normalized) (d : JSNum) :
  validateTimeframe tf = Return (Valid n d) -> Utils.validateTimeframe tf = None.
Proof.
  intros H. apply preset_accepted_by_utils. apply validateTimeframe_valid_iff. eauto.
Qed.

Lemma layered_timeframe_accepted_by_compact_witness :
  Utils.validateTimeframe " Business Hours " = None.
Proof.
  exact (layered_timeframe_accepted_by_compact " Business Hours "
           (mkNormalized (Int 540) (Int 1020) "09:00 - 17:00") (Int 480) eq_refl).
Defined.

End AcceptedTimeframes.

(** ** The handler of the layered variant *)

Section LayeredHandler.
Import Validators.

Lemma parsed_timeframe_trimmed w text tf :
  timeframe (parseScheduleCommand w text) = Some tf -> trim tf = tf.
Proof.
  unfold parseScheduleCommand.
  destruct (String.eqb text "" || String.eqb (trim text) ""); [discriminate|].
  destruct (matchParts text) as [|part0 rest]; [discriminate|].
  simpl. intros [= <-]. apply trim_idempotent.
Qed.

(** X10: the handler of the layered variant goes on to generate a
    schedule exactly when the parsed timeframe is, in lower case, the
    name of a preset and [validateTasks] accepts the parsed tasks; it
    then passes on the parsed timeframe and tasks unchanged. *)
Theorem handleScheduleCommand_generates (w : nat -> Entropy) (text tf : string)
  (ts : list Task) :
  Handlers.handleScheduleCommand w text = Handlers.Generate tf ts <->
  parseScheduleCommand w text = mkParsed (Some tf) ts /\
  In (toLowerCase tf) presetNames /\
  validateTasks ts = Ok.
Proof.
  unfold Handlers.handleScheduleCommand.
  destruct (parseScheduleCommand w text) as [otf ts'] eqn:Ep.
  assert (Htrim : forall t, otf = Some t -> trim t = t).
  { intros t ->. apply (parsed_timeframe_trimmed w text). now rewrite Ep. }
  cbn [timeframe tasks]. split.
  - destruct otf as [tf'|]; [|discriminate].
    destruct (String.eqb tf' ""); [discriminate|].
    destruct (Nat.eqb (List.length ts') 0); [discriminate|].
    destruct (validateTimeframe tf') as [[e|n d]|ex] eqn:Ev; try discriminate.
    destruct (validateTasks ts') eqn:Et; try discriminate.
    intros [= <- <-]. split; [reflexivity|]. split; [|exact Et].
    rewrite <- (Htrim tf' eq_refl). apply validateTimeframe_valid_iff. eauto.
  - intros (E & Hin & Hok). injection E as -> ->.
    assert (Hne : tf <> "").
    { intros ->. simpl in Hin. intuition discriminate. }
    apply String.eqb_neq in Hne. rewrite Hne.
    apply validateTasks_Ok in Hok as Hlen. destruct Hlen as [Hlen _].
    destruct (List.length ts) as [|k] eqn:El; [lia|]. cbn [Nat.eqb].
    rewrite <- (Htrim tf eq_refl) in Hin.
    apply validateTimeframe_valid_iff in Hin. destruct Hin as (n & d & Hv).
    now rewrite Hv, Hok.
Qed.

Lemma firstMatch_empty : firstMatch formats "" = None.
Proof. reflexivity. Qed.

(** X11: when the parsed timeframe is a time range in one of the three
    formats and there is a task, the handler of the layered variant
    answers that the timeframe format is invalid, and recommends these
    very formats: it never generates a schedule for an explicit range. *)
Theorem explicit_range_is_refused (w : nat -> Entropy) (text tf : string)
  (m : list string) :
  timeframe (parseScheduleCommand w text) = Some tf ->
  firstMatch formats tf = Some m ->
  tasks (parseScheduleCommand w text) <> [] ->
  Handlers.handleScheduleCommand w text
  = Handlers.ErrorMessage ("Invalid timeframe: " ++ msgFormatHelp).
Proof.
  intros Htf Hm Hts. unfold Handlers.handleScheduleCommand. rewrite Htf.
  assert (Hne : tf <> "").
  { intros ->. rewrite firstMatch_empty in Hm. discriminate. }
  apply String.eqb_neq in Hne as Hne'. rewrite Hne'.
  destruct (tasks (parseScheduleCommand w text)) as [|t ts]; [congruence|].
  cbn [List.length Nat.eqb].
  unfold validateTimeframe. rewrite Hne'.
  rewrite (parsed_timeframe_trimmed w text tf Htf).
  now rewrite (normalizeTimeframe_matched tf m Hm).
Qed.

Lemma explicit_range_is_refused_witness :
  Handlers.handleScheduleCommand sampleWorld ("9AM-5PM " ++ render scenarioA)
  = Handlers.ErrorMessage ("Invalid timeframe: " ++ msgFormatHelp).
Proof.
  apply (explicit_range_is_refused sampleWorld ("9AM-5PM " ++ render scenarioA)
           "9AM-5PM" ["9AM-5PM"; "9"; "AM"; "5"; "PM"]).
  - reflexivity.
  - reflexivity.
  - discriminate.
Defined.

End LayeredHandler.

(** ** The parser of the compact variant *)

Section CompactParser.

Lemma applyParam_step p ty pt x :
  exists pt',
    Validators.applyParam (p, ty, pt) x
    = (fst (Utils.applyParam (p, ty) x), snd (Utils.applyParam (p, ty) x), pt').
Proof.
  unfold Utils.applyParam, Validators.applyParam.
  change Utils.validPriorities with Validators.validPriorities.
  change Utils.validTypes with Validators.validTypes.
  destruct (includes Validators.validPriorities x); [eexists; reflexivity|].
  destruct (includes Validators.validTypes x); [eexists; reflexivity|].
  destruct (Validators.isValidTime x); eexists; reflexivity.
Qed.

Lemma applyParam_agree params : forall p ty pt,
  fold_left Utils.applyParam params (p, ty) =
  (fst (fst (fold_left Validators.applyParam params (p, ty, pt))),
   snd (fst (fold_left Validators.applyParam params (p, ty, pt)))).
Proof.
  induction params as [|x r IH]; intros p ty pt; cbn [fold_left]; [reflexivity|].
  destruct (applyParam_step p ty pt x) as [pt' E]. rewrite E.
  destruct (Utils.applyParam (p, ty) x) as [p' ty']. apply IH.
Qed.

Lemma parseTask_agree e taskStr taskNum :
  exists t u,
    Validators.parseTask e taskStr = Some t /\
    Utils.parseTask taskStr taskNum = Some u /\
    Utils.id u = "task_" ++ toString taskNum /\
    compactFields u = layeredFields t.
Proof.
  unfold Validators.parseTask, Utils.parseTask.
  destruct (Validators.taskMatch taskStr) as [[g1 g2]|].
  - rewrite (applyParam_agree _ "medium" "general" None).
    destruct (fold_left Validators.applyParam _ _) as [[p ty] pt].
    do 2 eexists. repeat split.
  - do 2 eexists. repeat split.
Qed.

(** X12: on every task text the two variants of [parseTask] build tasks
    with the same description, priority and type; the compact one
    numbers the task instead of drawing an id, and has no preferred
    time. *)
Theorem parseTask_variants_agree (e : Validators.Entropy) (taskStr : string) (taskNum : N) :
  exists t u,
    Validators.parseTask e taskStr = Some t /\
    Utils.parseTask taskStr taskNum = Some u /\
    Utils.id u = "task_" ++ toString taskNum /\
    Utils.description u = Validators.description t /\
    Utils.priority u = Validators.priority t /\
    Utils.type u = Validators.type t.
Proof.
  destruct (parseTask_agree e taskStr taskNum) as (t & u & Ht & Hu & Hid & Hf).
  exists t, u. unfold compactFields, layeredFields in Hf. injection Hf as H1 H2 H3.
  repeat split; assumption.
Qed.

Lemma mapTasks_ids l : forall k,
  List.length (Validators.notNull (Utils.mapTasks k l)) = List.length l /\
  map Utils.id (Validators.notNull (Utils.mapTasks k l)) = taskIds (k + 1) (List.length l).
Proof.
  induction l as [|x r IH]; intros k; [split; reflexivity|].
  cbn [Utils.mapTasks].
  destruct (parseTask_agree (Validators.mkEntropy 0 "") x (N.of_nat (k + 1)))
    as (t & u & _ & Hu & Hid & _).
  rewrite Hu. cbn [Validators.notNull List.length map].
  destruct (IH (S k)) as [H1 H2]. split; [now rewrite H1|].
  rewrite H2, Hid. unfold taskIds. cbn [seq map].
  now replace (S k + 1)%nat with (S (k + 1)) by lia.
Qed.

Lemma mapTasks_agree w l : forall k k',
  map compactFields (Validators.notNull (Utils.mapTasks k' (map Validators.slice_1_m1 l)))
  = map layeredFields (Validators.notNull (Validators.mapTasks w k l)).
Proof.
  induction l as [|x r IH]; intros k k'; [reflexivity|].
  cbn [map Utils.mapTasks Validators.mapTasks].
  destruct (parseTask_agree (w k) (Validators.slice_1_m1 x) (N.of_nat (k' + 1)))
    as (t & u & Ht & Hu & _ & Hf).
  rewrite Ht, Hu. cbn [Validators.notNull map]. now rewrite Hf, (IH (S k) (S k')).
Qed.

Lemma utils_validateTimeframe_message tf e :
  Utils.validateTimeframe tf = Some e -> e <> "".
Proof.
  unfold Utils.validateTimeframe.
  destruct (_ || _); [intros [= <-]; discriminate|].
  destruct (includes _ _); [discriminate|].
  destruct (negb _); [intros [= <-]; discriminate | discriminate].
Qed.

Lemma utils_parse_shape text :
  (exists e, e <> "" /\ Utils.parseScheduleCommand text = Utils.failed e) \/
  (exists tf ts,
     Utils.parseScheduleCommand text = Utils.mkInput None (Some tf) (Some ts) /\
     tf <> "" /\ ts <> [] /\
     Utils.validateTimeframe tf = None /\
     map Utils.id ts = taskIds 1 (List.length ts)).
Proof.
  unfold Utils.parseScheduleCommand.
  destruct (_ || _); [left; eexists; split; [|reflexivity]; discriminate|].
  destruct (Validators.matchParts text) as [|part0 rest];
    [left; eexists; split; [|reflexivity]; discriminate|].
  cbv zeta.
  set (taskStrings := map Validators.slice_1_m1 _).
  destruct (Nat.eqb (List.length taskStrings) 0);
    [left; eexists; split; [|reflexivity]; discriminate|].
  destruct (mapTasks_ids taskStrings 0) as [Hlen Hids].
  set (tasks := Validators.notNull (Utils.mapTasks 0 taskStrings)) in *.
  destruct (Nat.eqb (List.length tasks) 0) eqn:El;
    [left; eexists; split; [|reflexivity]; discriminate|].
  destruct (Utils.validateTimeframe (trim part0)) as [e|] eqn:Ev.
  - pose proof (utils_validateTimeframe_message _ _ Ev) as Hne.
    apply String.eqb_neq in Hne as Hne'. unfold Utils.truthy. rewrite Hne'.
    left. exists e. split; [exact Hne | reflexivity].
  - right. exists (trim part0), tasks. cbn [Utils.truthy].
    split; [reflexivity|]. split.
    { intros E. rewrite E in Ev. discriminate. }
    split.
    { intros E. rewrite E in El. discriminate. }
    split; [exact Ev|]. rewrite Hids. now rewrite Hlen.
Qed.

(** X13: [parseScheduleCommand] of [src/utils.js] returns either an
    error with a non-empty message and nothing else, or a non-empty
    timeframe that [validateTimeframe] accepts together with at least
    one task, the tasks numbered [task_1], [task_2], ... in order. *)
Theorem compact_parse_result (text : string) :
  (exists e, e <> "" /\ Utils.parseScheduleCommand text = Utils.failed e) \/
  (exists tf ts,
     Utils.parseScheduleCommand text = Utils.mkInput None (Some tf) (Some ts) /\
     tf <> "" /\ ts <> [] /\
     Utils.validateTimeframe tf = None /\
     map Utils.id ts = taskIds 1 (List.length ts)).
Proof. exact (utils_parse_shape text). Qed.

(** X14: [validateInput] applied to what [parseScheduleCommand] of the
    same file returns repeats the error of the parser, and otherwise
    only its check of the number of tasks can fail: the result is
    accepted exactly when it has at most 15 tasks. *)
Theorem validateInput_after_parse (text : string) :
  Utils.validateInput (Utils.parseScheduleCommand text) =
  match Utils.error (Utils.parseScheduleCommand text) with
  | Some e => Rejected e
  | None =>
      if (15 <? Utils.count (Utils.tasks (Utils.parseScheduleCommand text)))%nat then
        Rejected "Maximum 15 tasks allowed per schedule"
      else Ok
  end.
Proof.
  destruct (utils_parse_shape text) as [(e & Hne & ->) | (tf & ts & -> & Htf & Hts & _)].
  - unfold Utils.validateInput, Utils.failed. cbn [Utils.error Utils.truthy Utils.text].
    apply String.eqb_neq in Hne. now rewrite Hne.
  - unfold Utils.validateInput.
    cbn [Utils.error Utils.timeframe Utils.tasks Utils.truthy Utils.count].
    apply String.eqb_neq in Htf. rewrite Htf. cbn [negb orb].
    destruct ts; [congruence | reflexivity].
Qed.

(** X15: the handler of the compact variant answers with the error of
    the parser or goes on to generate a schedule with the parsed
    timeframe and tasks, however many there are: it never shows the help
    message and does not apply the limit of [validateInput]. *)
Theorem scheduleCommand_reaction (text : string) :
  (exists e,
     Utils.parseScheduleCommand text = Utils.failed e /\
     App.scheduleCommand text = App.SayError e) \/
  (exists tf ts,
     Utils.parseScheduleCommand text = Utils.mkInput None (Some tf) (Some ts) /\
     ts <> [] /\
     App.scheduleCommand text = App.Generate tf ts).
Proof.
  unfold App.scheduleCommand.
  destruct (utils_parse_shape text) as [(e & Hne & ->) | (tf & ts & -> & Htf & Hts & _)].
  - left. exists e. split; [reflexivity|].
    unfold Utils.failed. cbn [Utils.error Utils.truthy Utils.text].
    apply String.eqb_neq in Hne. now rewrite Hne.
  - right. exists tf, ts. split; [reflexivity|]. split; [exact Hts|].
    cbn [Utils.error Utils.timeframe Utils.tasks Utils.truthy].
    apply String.eqb_neq in Htf. rewrite Htf.
    destruct ts; [congruence | reflexivity].
Qed.

(** X16: whenever [parseScheduleCommand] of [src/utils.js] accepts a
    command, [parseScheduleCommand] of [src/utils/validators.js] reads
    the same timeframe and the same tasks from it, task by task with the
    same description, priority and type. *)
Theorem compact_parse_agrees_with_layered (w : nat -> Validators.Entropy)
  (text tf : string) (ts : list Utils.Task) :
  Utils.parseScheduleCommand text = Utils.mkInput None (Some tf) (Some ts) ->
  Validators.timeframe (Validators.parseScheduleCommand w text) = Some tf /\
  map layeredFields (Validators.tasks (Validators.parseScheduleCommand w text))
  = map compactFields ts.
Proof.
  unfold Utils.parseScheduleCommand, Validators.parseScheduleCommand.
  destruct (_ || _); [discriminate|].
  destruct (Validators.matchParts text) as [|part0 rest]; [discriminate|].
  cbv zeta.
  change dquote_char with Validators.dquote.
  set (quoted := filter _ rest).
  destruct (Nat.eqb _ 0); [discriminate|].
  destruct (Nat.eqb _ 0); [discriminate|].
  destruct (Utils.truthy _); [discriminate|].
  intros [= <- <-]. cbn [Validators.timeframe Validators.tasks].
  split; [reflexivity|]. symmetry. apply mapTasks_agree.
Qed.

Lemma compact_parse_agrees_with_layered_witness :
  Validators.timeframe
    (Validators.parseScheduleCommand sampleWorld ("9AM-5PM " ++ render scenarioA))
  = Some "9AM-5PM" /\
  map layeredFields
    (Validators.tasks
       (Validators.parseScheduleCommand sampleWorld ("9AM-5PM " ++ render scenarioA)))
  = map compactFields
      [ Utils.mkTask "task_1" "Review code" "high" "general";
        Utils.mkTask "task_2" "Team meeting" "medium" "meeting" ].
Proof.
  exact (compact_parse_agrees_with_layered sampleWorld ("9AM-5PM " ++ render scenarioA)
           "9AM-5PM"
           [ Utils.mkTask "task_1" "Review code" "high" "general";
             Utils.mkTask "task_2" "Team meeting" "medium" "meeting" ]
           eq_refl).
Defined.

End CompactParser.

(** ** Every run of the retrying clients *)

Section Runs.
Variable maxRetries : Z.
Variable backend : nat -> Reply.

Lemma callNIM_run (fuel : nat) : forall attempt net,
  (Z.to_nat (maxRetries + 1 - attempt) <= fuel)%nat ->
  exists n,
    (n = 0%nat \/ attempt + Z.of_nat n <= maxRetries + 1)%Z /\
    (forall k, (k < n)%nat ->
       failsRetryably NimService.isRetryableError backend (calls net + k)) /\
    stopsAt NimService.isRetryableError (maxRetries + 1 - attempt) n
      (backend (calls net + n)%nat) /\
    NimService.callNIM maxRetries backend attempt net =
    (outcome (backend (calls net + n)%nat),
     mkNet (calls net + S n)
           (events net ++ Post :: retries progressive attempt n)%list).
Proof.
  induction fuel as [|fuel IH]; intros attempt net Hfuel.
  all: rewrite callNIM_unfold.
  all: destruct (backend (calls net)) as [content|error] eqn:E.
  all: try (exists 0%nat; rewrite Nat.add_0_r, E; split; [now left|];
            split; [intros k Hk; lia|]; split; [exact I|];
            unfold posted; simpl; now rewrite Nat.add_1_r).
  all: destruct ((attempt <=? maxRetries)%Z && NimService.isRetryableError error) eqn:C.
  all: try (exists 0%nat; rewrite Nat.add_0_r, E; split; [now left|];
            split; [intros k Hk; lia|]; split;
            [ simpl; apply andb_false_iff in C; destruct C as [C | C];
              [apply Z.leb_gt in C; right; lia | now left]
            | unfold posted; simpl; now rewrite Nat.add_1_r ]).
  - andb_split C as C1 C2. apply Z.leb_le in C1. lia.
  - andb_split C as C1 C2. apply Z.leb_le in C1.
    destruct (IH (attempt + 1)%Z (delayed (1000 * attempt) (posted net)) ltac:(lia))
      as (n & Hn & Hfail & Hstop & Hrun).
    exists (S n). split; [right; lia|]. split; [|split].
    + intros [|k] Hk.
      * rewrite Nat.add_0_r. now exists error.
      * replace (calls net + S k)%nat with (S (calls net + k)) by lia.
        apply (Hfail k). lia.
    + simpl in Hstop.
      replace (calls net + S n)%nat with (S (calls net + n)) by lia.
      destruct (backend (S (calls net + n))); [exact I|].
      destruct Hstop as [Hs | Hs]; [now left | right; lia].
    + rewrite Hrun. simpl.
      replace (calls net + S n)%nat with (S (calls net + n)) by lia.
      f_equal. f_equal; [lia|]. now rewrite <- !app_assoc.
Qed.

Lemma makeRequest_run (fuel : nat) : forall retryCount net,
  (Z.to_nat (maxRetries - retryCount) <= fuel)%nat ->
  exists n,
    (n = 0%nat \/ retryCount + Z.of_nat n <= maxRetries)%Z /\
    (forall k, (k < n)%nat ->
       failsRetryably Services.isRetryableError backend (calls net + k)) /\
    stopsAt Services.isRetryableError (maxRetries - retryCount) n
      (backend (calls net + n)%nat) /\
    Services.makeRequest maxRetries backend retryCount net =
    (outcome (backend (calls net + n)%nat),
     mkNet (calls net + S n)
           (events net ++ Post :: retries exponential (retryCount + 1) n)%list).
Proof.
  induction fuel as [|fuel IH]; intros retryCount net Hfuel.
  all: rewrite makeRequest_unfold.
  all: destruct (backend (calls net)) as [content|error] eqn:E.
  all: try (exists 0%nat; rewrite Nat.add_0_r, E; split; [now left|];
            split; [intros k Hk; lia|]; split; [exact I|];
            unfold posted; simpl; now rewrite Nat.add_1_r).
  all: destruct ((retryCount <? maxRetries)%Z && Services.isRetryableError error) eqn:C.
  all: try (exists 0%nat; rewrite Nat.add_0_r, E; split; [now left|];
            split; [intros k Hk; lia|]; split;
            [ simpl; apply andb_false_iff in C; destruct C as [C | C];
              [apply Z.ltb_ge in C; right; lia | now left]
            | unfold posted; simpl; now rewrite Nat.add_1_r ]).
  - andb_split C as C1 C2. apply Z.ltb_lt in C1. lia.
  - andb_split C as C1 C2. apply Z.ltb_lt in C1.
    destruct (IH (retryCount + 1)%Z (delayed (2 ^ retryCount * 1000) (posted net))
                ltac:(lia))
      as (n & Hn & Hfail & Hstop & Hrun).
    exists (S n). split; [right; lia|]. split; [|split].
    + intros [|k] Hk.
      * rewrite Nat.add_0_r. now exists error.
      * replace (calls net + S k)%nat with (S (calls net + k)) by lia.
        apply (Hfail k). lia.
    + simpl in Hstop.
      replace (calls net + S n)%nat with (S (calls net + n)) by lia.
      destruct (backend (S (calls net + n))); [exact I|].
      destruct Hstop as [Hs | Hs]; [now left | right; lia].
    + rewrite Hrun. simpl.
      replace (calls net + S n)%nat with (S (calls net + n)) by lia.
      f_equal. f_equal; [lia|]. rewrite <- !app_assoc. simpl. unfold exponential.
      replace (retryCount + 1 - 1)%Z with retryCount by lia.
      now rewrite Z.mul_comm.
Qed.

(** X17: whatever the backend replies, [callNIM] stops after some number
    [n] of retries that is at most [maxRetries] (none when [maxRetries]
    is negative): the calls before the last failed with retryable
    errors, the result is the content or the error of the last call,
    and the trace is one call and [n] retries with the progressive
    delays.  A failure ends the calls only when it is not retryable or
    [maxRetries] retries have been made. *)
Theorem callNIM_outcome :
  exists n,
    (Z.of_nat n <= Z.max 0 maxRetries)%Z /\
    (forall k, (k < n)%nat -> failsRetryably NimService.isRetryableError backend k) /\
    stopsAt NimService.isRetryableError maxRetries n (backend n) /\
    NimService.callNIM maxRetries backend 1 start =
    (outcome (backend n), mkNet (S n) (schedule progressive n)).
Proof.
  destruct (callNIM_run (Z.to_nat (maxRetries + 1 - 1)) 1 start (le_n _))
    as (n & Hn & Hfail & Hstop & Hrun).
  exists n. split; [lia|]. split; [exact Hfail|]. split; [|exact Hrun].
  simpl in Hstop. now replace (maxRetries + 1 - 1)%Z with maxRetries in Hstop by lia.
Qed.

(** X18: whatever the backend replies, [makeRequest] stops after some
    number [n] of retries that is at most [maxRetries] (none when
    [maxRetries] is negative): the calls before the last failed with
    retryable errors, the result is the response or the error of the
    last call, and the trace is one call and [n] retries with the
    exponential delays.  A failure ends the calls only when it is not
    retryable or [maxRetries] retries have been made. *)
Theorem makeRequest_outcome :
  exists n,
    (Z.of_nat n <= Z.max 0 maxRetries)%Z /\
    (forall k, (k < n)%nat -> failsRetryably Services.isRetryableError backend k) /\
    stopsAt Services.isRetryableError maxRetries n (backend n) /\
    Services.makeRequest maxRetries backend 0 start =
    (outcome (backend n), mkNet (S n) (schedule exponential n)).
Proof.
  destruct (makeRequest_run (Z.to_nat (maxRetries - 0)) 0 start (le_n _))
    as (n & Hn & Hfail & Hstop & Hrun).
  exists n. split; [lia|]. split; [exact Hfail|]. split; [|exact Hrun].
  simpl in Hstop. now replace (maxRetries - 0)%Z with maxRetries in Hstop by lia.
Qed.

End Runs.

Lemma callNIM_exhausted maxRetries backend e :
  (0 <= maxRetries)%Z ->
  (forall k, failsRetryably NimService.isRetryableError backend k) ->
  backend (Z.to_nat maxRetries) = Failed e ->
  NimService.callNIM maxRetries backend 1 start =
  (Throw e, mkNet (S (Z.to_nat maxRetries)) (schedule progressive (Z.to_nat maxRetries))).
Proof.
  intros H0 Hall He.
  destruct (callNIM_run maxRetries backend (Z.to_nat (maxRetries + 1 - 1)) 1 start (le_n _))
    as (n & Hn & _ & Hstop & Hrun).
  simpl in Hstop, Hrun.
  assert (En : n = Z.to_nat maxRetries).
  { destruct (Hall n) as (e' & He' & Hr). rewrite He' in Hstop. simpl in Hstop.
    destruct Hstop as [Hs | Hs]; [congruence | lia]. }
  rewrite Hrun, En, He. reflexivity.
Qed.

Lemma makeRequest_exhausted maxRetries backend e :
  (0 <= maxRetries)%Z ->
  (forall k, failsRetryably Services.isRetryableError backend k) ->
  backend (Z.to_nat maxRetries) = Failed e ->
  Services.makeRequest maxRetries backend 0 start =
  (Throw e, mkNet (S (Z.to_nat maxRetries)) (schedule exponential (Z.to_nat maxRetries))).
Proof.
  intros H0 Hall He.
  destruct (makeRequest_run maxRetries backend (Z.to_nat (maxRetries - 0)) 0 start (le_n _))
    as (n & Hn & _ & Hstop & Hrun).
  simpl in Hstop, Hrun.
  assert (En : n = Z.to_nat maxRetries).
  { destruct (Hall n) as (e' & He' & Hr). rewrite He' in Hstop. simpl in Hstop.
    destruct Hstop as [Hs | Hs]; [congruence | lia]. }
  rewrite Hrun, En, He. reflexivity.
Qed.

(** X19: against a backend whose every call fails with a retryable
    error, each client with a retry budget [maxRetries] of at least zero
    makes exactly [maxRetries + 1] calls, with its own delays between
    them, and then throws the error of the last call. *)
Theorem retries_exhausted (maxRetries : Z) (backend : nat -> Reply) (e : Exn)
  (Hbudget : (0 <= maxRetries)%Z)
  (Hlast : backend (Z.to_nat maxRetries) = Failed e) :
  ((forall k, failsRetryably NimService.isRetryableError backend k) ->
   NimService.callNIM maxRetries backend 1 start =
   (Throw e, mkNet (S (Z.to_nat maxRetries))
                   (schedule progressive (Z.to_nat maxRetries)))) /\
  ((forall k, failsRetryably Services.isRetryableError backend k) ->
   Services.makeRequest maxRetries backend 0 start =
   (Throw e, mkNet (S (Z.to_nat maxRetries))
                   (schedule exponential (Z.to_nat maxRetries)))).
Proof.
  split; intros Hall.
  - now apply callNIM_exhausted.
  - now apply makeRequest_exhausted.
Qed.

Lemma retries_exhausted_witness :
  NimService.callNIM 2 (fun _ => Failed serverError) 1 start =
    (Throw serverError, mkNet 3 [Post; Delay 1000; Post; Delay 2000; Post]) /\
  Services.makeRequest 2 (fun _ => Failed serverError) 0 start =
    (Throw serverError, mkNet 3 [Post; Delay 1000; Post; Delay 2000; Post]).
Proof.
  pose proof (retries_exhausted 2 (fun _ => Failed serverError) serverError
                ltac:(lia) eq_refl) as H.
  split.
  - apply (proj1 H). intros k. exists serverError. split; reflexivity.
  - apply (proj2 H). intros k. exists serverError. split; reflexivity.
Defined.

(** ** What the pipelines hand on *)

Lemma fallback_wellShaped response :
  wellShaped (NimService.createFallbackSchedule response) = true.
Proof. reflexivity. Qed.

Lemma parseScheduleResponse_shape response :
  exists v, NimService.parseScheduleResponse response = Return v /\ wellShaped v = true.
Proof.
  rewrite parseScheduleResponse_spec.
  destruct (parse (clean response)) as [v|e].
  - destruct (wellShaped v) eqn:E; eexists; (split; [reflexivity|]);
      [exact E | apply fallback_wellShaped].
  - eexists; split; [reflexivity | apply fallback_wellShaped].
Qed.

(** X20: whatever the reply text, the value that [parseScheduleResponse]
    returns has a schedule array whose every item has a task label, a
    start time and an end time. *)
Theorem parseScheduleResponse_wellShaped (response : string) :
  exists v, NimService.parseScheduleResponse response = Return v /\ wellShaped v = true.
Proof. exact (parseScheduleResponse_shape response). Qed.

(** X21: [generateSchedule] of [src/nim-service.js] makes the calls of
    [callNIM], at most [maxRetries] retries, and fails only when the
    last call failed, with the message of that error behind a fixed
    prefix; when the last call succeeded it returns a value with a
    schedule array of complete items. *)
Theorem compact_generateSchedule_outcome (maxRetries : Z) (backend : nat -> Reply)
  (T : Type) (timeframe : string) (tasks : list T) :
  exists n,
    (Z.of_nat n <= Z.max 0 maxRetries)%Z /\
    snd (NimService.generateSchedule maxRetries backend timeframe tasks start)
    = mkNet (S n) (schedule progressive n) /\
    match backend n with
    | Fulfilled content =>
        exists v,
          fst (NimService.generateSchedule maxRetries backend timeframe tasks start)
          = Return v /\
          NimService.parseScheduleResponse content = Return v /\
          wellShaped v = true
    | Failed e =>
        fst (NimService.generateSchedule maxRetries backend timeframe tasks start)
        = Throw (Error ("Failed to generate schedule: " ++ message e))
    end.
Proof.
  destruct (callNIM_run maxRetries backend (Z.to_nat (maxRetries + 1 - 1)) 1 start (le_n _))
    as (n & Hn & _ & _ & Hrun).
  exists n. split; [lia|]. unfold NimService.generateSchedule. rewrite Hrun.
  split; [reflexivity|]. simpl.
  destruct (backend n) as [content|e]; simpl; [|reflexivity].
  destruct (parseScheduleResponse_shape content) as (v & Hv & Hw).
  exists v. rewrite Hv. auto.
Qed.

(** X22: [generateSchedule] of [src/services/nim-service.js] makes the
    calls of [makeRequest] and either returns the parsed reply of the
    last call, which then has a schedule array, or throws an error whose
    message begins with a fixed prefix. *)
Theorem layered_generateSchedule_outcome (maxRetries : Z) (backend : nat -> Reply)
  (T : Type) (timeframe : string) (tasks : list T) :
  exists n,
    (Z.of_nat n <= Z.max 0 maxRetries)%Z /\
    snd (Services.generateSchedule maxRetries backend timeframe tasks start)
    = mkNet (S n) (schedule exponential n) /\
    ((exists content v,
        backend n = Fulfilled content /\
        parse content = Return v /\
        hasScheduleArray v = true /\
        fst (Services.generateSchedule maxRetries backend timeframe tasks start)
        = Return v) \/
     (exists msg,
        fst (Services.generateSchedule maxRetries backend timeframe tasks start)
        = Throw (Error ("Schedule generation failed: " ++ msg)))).
Proof.
  destruct (makeRequest_run maxRetries backend (Z.to_nat (maxRetries - 0)) 0 start (le_n _))
    as (n & Hn & _ & _ & Hrun).
  exists n. split; [lia|]. unfold Services.generateSchedule. rewrite Hrun.
  split; [reflexivity|]. simpl.
  destruct (backend n) as [content|e]; simpl; [|right; eauto].
  destruct (parse content) as [v|e] eqn:Ep; simpl; [|right; eauto].
  destruct (hasScheduleArray v) eqn:Ea.
  - left. exists content, v.
    rewrite (proj1 (validateScheduleResponse_spec v) Ea). auto.
  - right. pose proof (proj1 (proj2 (validateScheduleResponse_spec v)) Ea) as Ht.
    destruct (Services.validateScheduleResponse v) as [x|e]; [contradiction|].
    simpl. eauto.
Qed.

(** ** Code fences *)

Lemma prefix_cons a s1 b s2 :
  prefix (String a s1) (String b s2) = if Ascii.eqb a b then prefix s1 s2 else false.
Proof.
  cbn [prefix]. destruct (ascii_dec a b) as [E|E].
  - subst. now rewrite Ascii.eqb_refl.
  - apply Ascii.eqb_neq in E. now rewrite E.
Qed.

Lemma fenceLength_plain c r :
  Ascii.eqb c "`" = false -> noFenceAhead r = true ->
  NimService.fenceLength (String c r) = 0%nat.
Proof.
  intros Hc Hr. unfold NimService.fenceLength.
  rewrite Ascii.eqb_sym in Hc.
  assert (H2 : prefix (String "010" "```") (String c r) = false).
  { rewrite prefix_cons. destruct (Ascii.eqb "010" c); [|reflexivity].
    destruct r as [|a r]; [reflexivity|]. rewrite prefix_cons.
    simpl in Hr. apply negb_true_iff in Hr. rewrite Ascii.eqb_sym in Hr.
    now rewrite Hr. }
  rewrite prefix_cons in H2. rewrite !prefix_cons, Hc. now rewrite H2.
Qed.

Lemma noFenceAhead_app s t :
  contains "`" s = false -> noFenceAhead t = true -> noFenceAhead (s ++ t) = true.
Proof.
  destruct s as [|c r]; simpl; [auto|]. intros H _.
  apply orb_false_iff in H. destruct H as [H _]. now rewrite H.
Qed.

Lemma stripFences_app s : forall t,
  contains "`" s = false -> noFenceAhead t = true ->
  NimService.stripFences 0 (s ++ t) = s ++ NimService.stripFences 0 t.
Proof.
  induction s as [|c r IH]; intros t Hs Ht; [reflexivity|].
  simpl in Hs. apply orb_false_iff in Hs. destruct Hs as [Hc Hr].
  change (String c r ++ t) with (String c (r ++ t)).
  cbn [NimService.stripFences].
  rewrite (fenceLength_plain c (r ++ t) Hc (noFenceAhead_app r t Hr Ht)).
  now rewrite (IH t Hr Ht).
Qed.

Lemma stripFences_plain s :
  contains "`" s = false -> NimService.stripFences 0 s = s.
Proof.
  intros H. rewrite <- (append_nil_r s) at 1.
  rewrite (stripFences_app s "" H eq_refl). apply append_nil_r.
Qed.

Lemma stripFences_skip c r k :
  NimService.fenceLength (String c r) = S k ->
  NimService.stripFences 0 (String c r) = NimService.stripFences k r.
Proof.
  intros H.
  change (NimService.stripFences 0 (String c r))
    with (match NimService.fenceLength (String c r) with
          | S k => NimService.stripFences k r
          | O => String c (NimService.stripFences 0 r)
          end).
  now rewrite H.
Qed.

Lemma fenceLength_opening rest :
  NimService.fenceLength ("```json" ++ String "010" rest) = 8%nat.
Proof. destruct rest; reflexivity. Qed.

Lemma stripFences_fenced s :
  contains "`" s = false -> NimService.stripFences 0 (fenced s) = s.
Proof.
  intros H. unfold fenced.
  pose proof (fenceLength_opening (s ++ String "010" "```")) as F.
  apply stripFences_skip in F. cbn [append] in *. rewrite F.
  change (NimService.stripFences 0 (s ++ String "010" "```") = s).
  rewrite (stripFences_app s (String "010" "```") H eq_refl). simpl.
  apply append_nil_r.
Qed.

(** X23: a reply text without a backquote passes the fence removal
    unchanged, and the same text inside a [json] code fence is stripped
    back to it, so that [parseScheduleResponse] gives the same result
    for both. *)
Theorem fenced_reply (s : string) :
  contains "`" s = false ->
  NimService.stripFences 0 s = s /\
  NimService.stripFences 0 (fenced s) = s /\
  NimService.parseScheduleResponse (fenced s) = NimService.parseScheduleResponse s.
Proof.
  intros H. split; [now apply stripFences_plain|].
  split; [now apply stripFences_fenced|].
  rewrite !parseScheduleResponse_spec. unfold clean.
  now rewrite (stripFences_plain s H), (stripFences_fenced s H).
Qed.

Lemma fenced_reply_witness :
  NimService.stripFences 0 sampleReply = sampleReply /\
  NimService.stripFences 0 (fenced sampleReply) = sampleReply /\
  NimService.parseScheduleResponse (fenced sampleReply)
  = NimService.parseScheduleResponse sampleReply.
Proof. exact (fenced_reply sampleReply eq_refl). Defined.

(** ** Duration estimates *)

Lemma getIndex_element x index :
  x <> JNull -> Services.getIndex (Some x) index = Return (element x index).
Proof. destruct x; simpl; congruence. Qed.

Lemma optionalGet_estimate x index key :
  Services.optionalGet (element x index) key = Return (estimateOf x index key).
Proof.
  unfold Services.optionalGet, estimateOf.
  destruct (element x index) as [[| | | | |]|]; reflexivity.
Qed.

Lemma eqUnits_true a b : eqUnits a b = true <-> a = b.
Proof. unfold eqUnits. destruct (list_eq_dec N.eq_dec a b); split; congruence. Qed.

Lemma eqUnits_false a b : eqUnits a b = false <-> a <> b.
Proof. unfold eqUnits. destruct (list_eq_dec N.eq_dec a b); split; congruence. Qed.

Lemma eqUnits_refl a : eqUnits a a = true.
Proof. now apply eqUnits_true. Qed.

Lemma getOwn_absent key fields :
  ~ In key (map fst fields) -> getOwn key fields = None.
Proof.
  induction fields as [|[k v] r IH]; simpl; [reflexivity|].
  intros H. rewrite IH by tauto.
  destruct (eqUnits k key) eqn:E; [|reflexivity].
  apply eqUnits_true in E. tauto.
Qed.

Lemma getOwn_present key fields :
  In key (map fst fields) -> exists v, getOwn key fields = Some v.
Proof.
  induction fields as [|[k v] r IH]; simpl; [contradiction|].
  intros H. destruct (getOwn key r) as [v'|] eqn:E; [eauto|].
  destruct (eqUnits k key) eqn:Ek; [eauto|].
  apply eqUnits_false in Ek. destruct H as [H|H]; [contradiction|].
  destruct (IH H) as [v' Hv]. discriminate.
Qed.

Lemma getOwn_In key fields v :
  getOwn key fields = Some v -> In key (map fst fields).
Proof.
  intros H. destruct (in_dec (list_eq_dec N.eq_dec) key (map fst fields)) as [Hi|Hn];
    [exact Hi|].
  rewrite (getOwn_absent key fields Hn) in H. discriminate.
Qed.

Lemma getOwn_app key a b :
  getOwn key (a ++ b)%list
  = match getOwn key b with Some v => Some v | None => getOwn key a end.
Proof.
  induction a as [|[k v] r IH]; simpl; [now destruct (getOwn key b)|].
  rewrite IH. now destruct (getOwn key b).
Qed.

Lemma hasKey_In key fields : hasKey key fields = true <-> In key (map fst fields).
Proof.
  unfold hasKey. rewrite existsb_exists, in_map_iff. split.
  - intros (kv & Hin & E). apply eqUnits_true in E. eauto.
  - intros (kv & E & Hin). exists kv. split; [exact Hin | now apply eqUnits_true].
Qed.

Lemma hasKey_same key a b :
  (In key (map fst a) <-> In key (map fst b)) -> hasKey key a = hasKey key b.
Proof.
  intros H. destruct (hasKey key a) eqn:Ea, (hasKey key b) eqn:Eb; try reflexivity.
  - apply hasKey_In, H, hasKey_In in Ea. congruence.
  - apply hasKey_In, H, hasKey_In in Eb. congruence.
Qed.

Lemma filter_all {A} (f : A -> bool) l :
  (forall x, In x l -> f x = true) -> filter f l = l.
Proof.
  induction l as [|x r IH]; simpl; [reflexivity|].
  intros H. rewrite (H x (or_introl eq_refl)). f_equal. apply IH. auto.
Qed.

Lemma map_fst_filter (q : list N -> bool) (l : list (list N * JSON)) :
  map fst (filter (fun kv => q (fst kv)) l) = filter q (map fst l).
Proof.
  induction l as [|[k v] r IH]; simpl; [reflexivity|].
  destruct (q k); simpl; now rewrite IH.
Qed.

Lemma getOwn_filter k key fields :
  getOwn key (filter (fun kv => negb (eqUnits k (fst kv))) fields)
  = if eqUnits k key then None else getOwn key fields.
Proof.
  induction fields as [|[k' v'] r IH]; simpl; [now destruct (eqUnits k key)|].
  destruct (eqUnits k k') eqn:E; simpl; rewrite IH.
  - apply eqUnits_true in E. subst k'.
    destruct (eqUnits k key); [reflexivity | now destruct (getOwn key r)].
  - destruct (eqUnits k key) eqn:Ek; [|reflexivity].
    apply eqUnits_true in Ek. subst key.
    apply eqUnits_false in E.
    assert (Hk : eqUnits k' k = false) by (apply eqUnits_false; congruence).
    now rewrite Hk.
Qed.

(** Reading a name from the properties that the writes leave gives the
    value of the last write of that name. *)
Lemma getOwn_ownProperties key writes :
  getOwn key (ownProperties writes) = getOwn key writes.
Proof.
  induction writes as [|[k v] r IH]; simpl; [reflexivity|].
  rewrite getOwn_filter, IH.
  destruct (eqUnits k key) eqn:E.
  - apply eqUnits_true in E. subst key. now destruct (getOwn k r).
  - now destruct (getOwn key r).
Qed.

Lemma ownProperties_names key writes :
  In key (map fst (ownProperties writes)) <-> In key (map fst writes).
Proof.
  split; intros H.
  - destruct (getOwn_present _ _ H) as [v Hv].
    rewrite getOwn_ownProperties in Hv. exact (getOwn_In _ _ _ Hv).
  - destruct (getOwn_present _ _ H) as [v Hv].
    rewrite <- getOwn_ownProperties in Hv. exact (getOwn_In _ _ _ Hv).
Qed.

Lemma ownProperties_NoDup writes : NoDup (map fst (ownProperties writes)).
Proof.
  induction writes as [|[k v] r IH]; simpl; [constructor|].
  rewrite (map_fst_filter (fun k' => negb (eqUnits k k'))).
  constructor; [|now apply NoDup_filter].
  rewrite filter_In, eqUnits_refl. intros [_ H]. discriminate.
Qed.

Lemma ownProperties_snoc writes k v :
  map fst (ownProperties (writes ++ [(k, v)]))
  = (map fst (ownProperties writes) ++ if hasKey k writes then [] else [k])%list.
Proof.
  induction writes as [|[k' v'] r IH]; [reflexivity|].
  cbn [app ownProperties map fst].
  rewrite !(map_fst_filter (fun x => negb (eqUnits k' x))), IH, filter_app.
  cbn [app]. f_equal. f_equal.
  unfold hasKey. cbn [existsb fst].
  destruct (eqUnits k' k) eqn:E; cbn [orb].
  - destruct (existsb _ r); simpl; [reflexivity | now rewrite E].
  - destruct (existsb _ r); simpl; [reflexivity | now rewrite E].
Qed.

(** Writes of distinct names leave themselves. *)
Lemma ownProperties_distinct writes :
  NoDup (map fst writes) -> ownProperties writes = writes.
Proof.
  induction writes as [|[k v] r IH]; simpl; [reflexivity|].
  intros H. inversion H as [|? ? Hk Hr]; subst.
  rewrite (getOwn_absent k r Hk), (IH Hr). f_equal.
  apply filter_all. intros [k' v'] Hin. simpl.
  apply negb_true_iff, eqUnits_false. intros ->.
  apply Hk. apply in_map_iff. now exists (k', v').
Qed.

Lemma setProp_names key v fields :
  map fst (Services.setProp key v fields)
  = (map fst fields ++ if hasKey key fields then [] else [key])%list.
Proof.
  induction fields as [|[k w] r IH]; [reflexivity|].
  cbn [Services.setProp]. unfold hasKey. cbn [existsb fst].
  destruct (eqUnits k key) eqn:E; cbn [orb map fst app].
  - now rewrite app_nil_r.
  - f_equal. exact IH.
Qed.

Lemma getOwn_setProp key k v fields :
  NoDup (map fst fields) ->
  getOwn key (Services.setProp k v fields)
  = if eqUnits k key then Some v else getOwn key fields.
Proof.
  induction fields as [|[k' w] r IH]; intros Hnd; [reflexivity|].
  simpl in Hnd. inversion Hnd as [|? ? Hk Hr]; subst.
  cbn [Services.setProp].
  destruct (eqUnits k' k) eqn:E.
  - apply eqUnits_true in E. subst k'. cbn [getOwn].
    destruct (eqUnits k key) eqn:Ek.
    + apply eqUnits_true in Ek. subst key. now rewrite (getOwn_absent k r Hk).
    + reflexivity.
  - cbn [getOwn]. rewrite (IH Hr).
    destruct (eqUnits k key) eqn:Ek; reflexivity.
Qed.

Lemma setProp_NoDup k v fields :
  NoDup (map fst fields) -> NoDup (map fst (Services.setProp k v fields)).
Proof.
  intros H. rewrite setProp_names.
  destruct (hasKey k fields) eqn:E; [now rewrite app_nil_r|].
  apply NoDup_app; [exact H | repeat constructor; intros [] |].
  intros a Ha [<-|[]].
  apply hasKey_In in Ha. congruence.
Qed.

(** Two lists of properties of distinct names are equal when they have
    the same names in the same order and the same value for each. *)
Lemma fields_ext (a b : list (list N * JSON)) :
  map fst a = map fst b -> NoDup (map fst a) ->
  (forall key, getOwn key a = getOwn key b) -> a = b.
Proof.
  revert b. induction a as [|[k v] r IH]; intros [|[k2 v2] r2]; simpl;
    try discriminate; [reflexivity|].
  intros [= <- Hkeys] Hnd Hget. inversion Hnd as [|? ? Hk Hr]; subst.
  assert (Hk2 : ~ In k (map fst r2)) by now rewrite <- Hkeys.
  pose proof (Hget k) as Hv.
  rewrite (getOwn_absent k r Hk), (getOwn_absent k r2 Hk2), eqUnits_refl in Hv.
  injection Hv as <-. f_equal.
  apply IH; [exact Hkeys | exact Hr |].
  intros key. specialize (Hget key).
  destruct (eqUnits k key) eqn:E.
  - apply eqUnits_true in E. subst key.
    now rewrite (getOwn_absent k r Hk), (getOwn_absent k r2 Hk2).
  - destruct (getOwn key r), (getOwn key r2); congruence.
Qed.

(** One more write. *)
Lemma setProp_ownProperties k v writes :
  Services.setProp k v (ownProperties writes) = ownProperties (writes ++ [(k, v)]).
Proof.
  apply fields_ext.
  - rewrite setProp_names, ownProperties_snoc. f_equal.
    now rewrite (hasKey_same k _ writes (ownProperties_names k writes)).
  - apply setProp_NoDup, ownProperties_NoDup.
  - intros key. rewrite getOwn_setProp by apply ownProperties_NoDup.
    rewrite !getOwn_ownProperties, getOwn_app. simpl.
    now destruct (eqUnits k key).
Qed.

Lemma fold_setProp writes : forall earlier,
  fold_left (fun obj kv => Services.setProp (fst kv) (snd kv) obj) writes
    (ownProperties earlier)
  = ownProperties (earlier ++ writes).
Proof.
  induction writes as [|[k v] r IH]; intros earlier; simpl.
  - now rewrite app_nil_r.
  - rewrite setProp_ownProperties, IH, <- app_assoc. reflexivity.
Qed.

Lemma spread_ownProperties task : Services.spread task = ownProperties task.
Proof. exact (fold_setProp task []). Qed.

Lemma mergeOne_value estimations x index task :
  field estimations "estimations" = Some x -> x <> JNull ->
  Services.mergeOne estimations index task = Return (mergedTask x index task).
Proof.
  intros Hx Hnull. unfold Services.mergeOne.
  assert (Hobj : estimations <> JNull) by (intros ->; discriminate).
  rewrite (get_field estimations "estimations" Hobj), Hx. cbn [bind].
  rewrite (getIndex_element x index Hnull). cbn [bind].
  rewrite !optionalGet_estimate. cbn [bind].
  rewrite spread_ownProperties, !setProp_ownProperties, <- app_assoc.
  reflexivity.
Qed.

Lemma mapMerge_value estimations x tasks : forall index,
  field estimations "estimations" = Some x -> x <> JNull ->
  Services.mapMerge estimations index tasks = Return (mergedFrom x index tasks).
Proof.
  induction tasks as [|task r IH]; intros index Hx Hnull; [reflexivity|].
  cbn [Services.mapMerge mergedFrom].
  rewrite (mergeOne_value estimations x index task Hx Hnull). cbn [bind].
  now rewrite (IH (S index) Hx Hnull).
Qed.

Lemma mergedFrom_length x tasks : forall index,
  List.length (mergedFrom x index tasks) = List.length tasks.
Proof. induction tasks as [|t r IH]; intros index; simpl; [reflexivity | now rewrite IH]. Qed.

Lemma mergedFields_duration x index task :
  getOwn (units "estimated_duration") (mergedFields x index task)
  = Some (durationOf x index).
Proof.
  unfold mergedFields. rewrite getOwn_ownProperties, getOwn_app. reflexivity.
Qed.

Lemma mergedFields_confidence x index task :
  getOwn (units "estimation_confidence") (mergedFields x index task)
  = Some (confidenceOf x index).
Proof.
  unfold mergedFields. rewrite getOwn_ownProperties, getOwn_app. reflexivity.
Qed.

Lemma mergedFields_other x index task key :
  key <> units "estimated_duration" -> key <> units "estimation_confidence" ->
  getOwn key (mergedFields x index task) = getOwn key task.
Proof.
  intros H1 H2. unfold mergedFields. rewrite getOwn_ownProperties, getOwn_app.
  unfold estimates. cbn [getOwn].
  assert (E1 : eqUnits (units "estimated_duration") key = false)
    by (apply eqUnits_false; congruence).
  assert (E2 : eqUnits (units "estimation_confidence") key = false)
    by (apply eqUnits_false; congruence).
  now rewrite E1, E2.
Qed.

Lemma mergedFields_names x index task :
  NoDup (map fst task) ->
  map fst (mergedFields x index task)
  = (map fst task
     ++ (if hasKey (units "estimated_duration") task then []
         else [units "estimated_duration"])
     ++ (if hasKey (units "estimation_confidence") task then []
         else [units "estimation_confidence"]))%list.
Proof.
  intros Hnd. unfold mergedFields, estimates.
  change (task ++ [?a; ?b])%list with (task ++ [a] ++ [b])%list.
  rewrite app_assoc, !ownProperties_snoc, (ownProperties_distinct task Hnd).
  rewrite <- app_assoc. f_equal. f_equal.
  assert (E : hasKey (units "estimation_confidence")
                (task ++ [(units "estimated_duration", durationOf x index)])
              = hasKey (units "estimation_confidence") task).
  { unfold hasKey. rewrite existsb_app. simpl. now rewrite orb_false_r. }
  now rewrite E.
Qed.

Lemma mergedFields_appended x index task :
  NoDup (map fst task) ->
  hasKey (units "estimated_duration") task = false ->
  hasKey (units "estimation_confidence") task = false ->
  mergedFields x index task = (task ++ estimates x index)%list.
Proof.
  intros Hnd H1 H2. unfold mergedFields. apply ownProperties_distinct.
  rewrite map_app. apply NoDup_app; [exact Hnd | |].
  - simpl. repeat constructor; simpl; [intros [H|[]]; discriminate H | intros []].
  - intros a Ha Hb. apply hasKey_In in Ha. simpl in Hb.
    destruct Hb as [<-|[<-|[]]]; congruence.
Qed.

Lemma orElse_truthy a b :
  truthy (Some b) = true -> truthy (Some (Services.orElse a b)) = true.
Proof.
  intros Hb. unfold Services.orElse. destruct a as [x|]; [|exact Hb].
  destruct (truthy (Some x)) eqn:E; [exact E | exact Hb].
Qed.

Lemma mergedTask_estimated x index task : estimated (mergedTask x index task).
Proof.
  unfold estimated, mergedTask, field. split.
  - rewrite mergedFields_duration. now apply orElse_truthy.
  - rewrite mergedFields_confidence. now apply orElse_truthy.
Qed.

Lemma mergedFrom_estimated x tasks : forall index,
  Forall estimated (mergedFrom x index tasks).
Proof.
  induction tasks as [|t r IH]; intros index; simpl; constructor;
    [apply mergedTask_estimated | apply IH].
Qed.

(** X24: when the reply has a property [estimations] other than [null],
    [mergeTaskEstimations] returns one object per task, in order.  Each
    has the properties of its task and the two estimates
    [estimated_duration] and [estimation_confidence], every name once: an
    estimate takes the place and replaces the value of a property of its
    name that the task has, and else follows the properties of the task,
    the duration before the confidence; every other property keeps its
    value.  Each estimate is taken from the entry of the same index when
    that entry has a truthy value for it and else is the default (60
    minutes, medium confidence), so that both are always truthy. *)
Theorem mergeTaskEstimations_value (tasks : list (list (list N * JSON)))
  (estimations x : JSON) :
  field estimations "estimations" = Some x -> x <> JNull ->
  Services.mergeTaskEstimations tasks estimations = Return (mergedFrom x 0 tasks) /\
  List.length (mergedFrom x 0 tasks) = List.length tasks /\
  Forall estimated (mergedFrom x 0 tasks) /\
  (forall index task,
     NoDup (map fst (mergedFields x index task)) /\
     getOwn (units "estimated_duration") (mergedFields x index task)
       = Some (durationOf x index) /\
     getOwn (units "estimation_confidence") (mergedFields x index task)
       = Some (confidenceOf x index) /\
     (forall key,
        key <> units "estimated_duration" -> key <> units "estimation_confidence" ->
        getOwn key (mergedFields x index task) = getOwn key task) /\
     (NoDup (map fst task) ->
        map fst (mergedFields x index task)
        = (map fst task
           ++ (if hasKey (units "estimated_duration") task then []
               else [units "estimated_duration"])
           ++ (if hasKey (units "estimation_confidence") task then []
               else [units "estimation_confidence"]))%list) /\
     (NoDup (map fst task) ->
        hasKey (units "estimated_duration") task = false ->
        hasKey (units "estimation_confidence") task = false ->
        mergedFields x index task = (task ++ estimates x index)%list)).
Proof.
  intros Hx Hnull. split; [now apply mapMerge_value|].
  split; [apply mergedFrom_length|]. split; [apply mergedFrom_estimated|].
  intros index task.
  split; [apply ownProperties_NoDup|].
  split; [apply mergedFields_duration|].
  split; [apply mergedFields_confidence|].
  split; [apply mergedFields_other|].
  split; [apply mergedFields_names | apply mergedFields_appended].
Qed.

Lemma mergeTaskEstimations_value_witness :
  Services.mergeTaskEstimations
    [ [ (units "id", NimService.str "task_1");
        (units "estimated_duration", NimService.num 30);
        (units "type", NimService.str "general") ];
      [ (units "id", NimService.str "task_2") ] ]
    (JObject
       [ (units "estimations",
           JArray [ JObject [ (units "estimated_duration", NimService.num 45);
                              (units "confidence", NimService.str "high") ] ]) ])
  = Return
      [ JObject [ (units "id", NimService.str "task_1");
                  (units "estimated_duration", NimService.num 45);
                  (units "type", NimService.str "general");
                  (units "estimation_confidence", NimService.str "high") ];
        JObject [ (units "id", NimService.str "task_2");
                  (units "estimated_duration", NimService.num 60);
                  (units "estimation_confidence", NimService.str "medium") ] ].
Proof.
  refine (proj1 (mergeTaskEstimations_value
            [ [ (units "id", NimService.str "task_1");
                (units "estimated_duration", NimService.num 30);
                (units "type", NimService.str "general") ];
              [ (units "id", NimService.str "task_2") ] ]
            (JObject
               [ (units "estimations",
                   JArray [ JObject [ (units "estimated_duration", NimService.num 45);
                                      (units "confidence", NimService.str "high") ] ]) ])
            (JArray [ JObject [ (units "estimated_duration", NimService.num 45);
                                (units "confidence", NimService.str "high") ] ])
            eq_refl _)).
  discriminate.
Defined.

Lemma mergeOne_throws estimations index task :
  field estimations "estimations" = None \/ field estimations "estimations" = Some JNull ->
  isThrow (Services.mergeOne estimations index task).
Proof.
  intros H. unfold Services.mergeOne.
  destruct estimations; try exact I; simpl in *;
    destruct H as [H | H]; try discriminate H; try exact I;
    rewrite H; exact I.
Qed.

(** X25: [mergeTaskEstimations] returns the empty list for no tasks,
    whatever the reply; with at least one task it throws exactly when
    the reply has no property [estimations] (as every reply that is not
    an object) or has [null] there. *)
Theorem mergeTaskEstimations_throws (estimations : JSON) :
  Services.mergeTaskEstimations [] estimations = Return [] /\
  forall task tasks,
    isThrow (Services.mergeTaskEstimations (task :: tasks) estimations) <->
    (field estimations "estimations" = None \/
     field estimations "estimations" = Some JNull).
Proof.
  split; [reflexivity|]. intros task tasks. split.
  - intros Ht. destruct (field estimations "estimations") as [x|] eqn:Ex; [|now left].
    destruct x; try (exfalso; unfold Services.mergeTaskEstimations in Ht;
                     rewrite (mapMerge_value estimations _ (task :: tasks) 0 Ex) in Ht;
                     [exact Ht | discriminate]).
    now right.
  - intros H. unfold Services.mergeTaskEstimations. cbn [Services.mapMerge].
    pose proof (mergeOne_throws estimations 0 task H) as Ht.
    destruct (Services.mergeOne estimations 0 task); [contradiction | exact I].
Qed.

Lemma mapMerge_length estimations tasks : forall index merged,
  Services.mapMerge estimations index tasks = Return merged ->
  List.length merged = List.length tasks.
Proof.
  induction tasks as [|t r IH]; intros index merged; cbn [Services.mapMerge].
  - now intros [= <-].
  - destruct (Services.mergeOne estimations index t) as [m|e]; [|discriminate].
    cbn [bind]. destruct (Services.mapMerge estimations (S index) r) as [ms|e] eqn:E;
      [|discriminate].
    cbn [bind]. intros [= <-]. simpl. f_equal. now apply (IH (S index)).
Qed.

(** X26: [estimateTaskDurations] makes the calls of [makeRequest] and
    either returns one merged object per task or throws an error whose
    message begins with a fixed prefix. *)
Theorem estimateTaskDurations_outcome (maxRetries : Z) (backend : nat -> Reply)
  (tasks : list (list (list N * JSON))) :
  exists n,
    (Z.of_nat n <= Z.max 0 maxRetries)%Z /\
    snd (Services.estimateTaskDurations maxRetries backend tasks start)
    = mkNet (S n) (schedule exponential n) /\
    ((exists merged,
        fst (Services.estimateTaskDurations maxRetries backend tasks start)
        = Return merged /\
        List.length merged = List.length tasks) \/
     (exists msg,
        fst (Services.estimateTaskDurations maxRetries backend tasks start)
        = Throw (Error ("Duration estimation failed: " ++ msg)))).
Proof.
  destruct (makeRequest_run maxRetries backend (Z.to_nat (maxRetries - 0)) 0 start (le_n _))
    as (n & Hn & _ & _ & Hrun).
  exists n. split; [lia|]. unfold Services.estimateTaskDurations. rewrite Hrun.
  split; [reflexivity|]. simpl.
  destruct (backend n) as [content|e]; simpl; [|right; eauto].
  destruct (parse content) as [v|e] eqn:Ep; simpl; [|right; eauto].
  destruct (Services.mergeTaskEstimations tasks v) as [merged|e] eqn:Em; simpl.
  - left. exists merged. split; [reflexivity|].
    exact (mapMerge_length v tasks 0 merged Em).
  - right. eauto.
Qed.

(** ** Validation of a parsed command *)

Section ParsedCommands.
Import Validators.

Lemma notNull_mapTasks_parsed w l : forall k,
  Forall fromParseTask (notNull (mapTasks w k l)).
Proof.
  induction l as [|x r IH]; intros k; [constructor|].
  cbn [mapTasks]. destruct (parseTask (w k) (slice_1_m1 x)) as [t|] eqn:E;
    cbn [notNull]; [|apply IH].
  constructor; [|apply IH]. now exists (w k), (slice_1_m1 x).
Qed.

Lemma parsed_tasks_fromParseTask w text :
  Forall fromParseTask (tasks (parseScheduleCommand w text)).
Proof.
  unfold parseScheduleCommand.
  destruct (_ || _); [constructor|].
  destruct (matchParts text) as [|part0 rest]; [constructor|].
  cbn [tasks]. apply notNull_mapTasks_parsed.
Qed.

Lemma validateTask_describable t :
  fromParseTask t -> (validateTask t = Ok <-> describable t).
Proof.
  intros (e & taskText & H). rewrite (validateTask_parsed e taskText t H).
  unfold describable.
  destruct (String.eqb (description t) "") eqn:E1.
  { apply String.eqb_eq in E1. split; [discriminate | intros [Hne _]; congruence]. }
  apply String.eqb_neq in E1.
  destruct (200 <? String.length (description t))%nat eqn:E2.
  { apply Nat.ltb_lt in E2. split; [discriminate | intros [_ Hle]; lia]. }
  apply Nat.ltb_ge in E2. tauto.
Qed.

(** X27: the tasks of a parsed command pass [validateTasks] exactly
    when there are between 1 and 20 of them and each has a description
    that is not empty and has at most 200 characters: what the parser
    builds cannot fail the checks of priority, type and preferred
    time. *)
Theorem parsed_tasks_validation (w : nat -> Entropy) (text : string) :
  validateTasks (tasks (parseScheduleCommand w text)) = Ok <->
  (1 <= List.length (tasks (parseScheduleCommand w text)) <= 20)%nat /\
  Forall describable (tasks (parseScheduleCommand w text)).
Proof.
  rewrite validateTasks_Ok.
  pose proof (parsed_tasks_fromParseTask w text) as Hp.
  rewrite !Forall_forall in *.
  split; intros [Hlen H]; (split; [exact Hlen|]); intros t Ht.
  - apply validateTask_describable; auto.
  - apply validateTask_describable; auto.
Qed.

Lemma timeToMinutes_fieldless s :
  contains ":" s = false -> timeToMinutes s = NaN.
Proof.
  intros H. unfold timeToMinutes. rewrite split_no_sep; [reflexivity|].
  induction s as [|c r IH]; simpl in *; [reflexivity|].
  apply orb_false_iff in H. destruct H as [Hc Hr]. now rewrite Hc, IH.
Qed.

(** X28: [timeToMinutes] of a text without a colon is NaN, since the
    minutes field is missing, and [isValidTime] rejects every such
    text. *)
Theorem timeToMinutes_without_colon (s : string) :
  contains ":" s = false ->
  timeToMinutes s = NaN /\ isValidTime s = false.
Proof.
  intros H. pose proof (timeToMinutes_fieldless s H) as E.
  split; [exact E|].
  destruct (isValidTime s) eqn:Ev; [|reflexivity].
  apply isValidTime_offset_bound in Ev. destruct Ev as (z & Hz & _). congruence.
Qed.

Lemma timeToMinutes_without_colon_witness :
  timeToMinutes "0900" = NaN /\ isValidTime "0900" = false.
Proof. exact (timeToMinutes_without_colon "0900" eq_refl). Defined.

End ParsedCommands.
